(** * Database.py: the configuration store of the reverse-proxy manager

    A shallow embedding of [src/common/db/Database.py]: the relational
    store is a record of row lists, a session is the store as the open
    transaction sees it together with the pending [to_put] list, and every
    public operation is a function from the store to an outcome (a returned
    value with the new store, or a raised exception with the store rolled
    back). *)

From Stdlib Require Import String Ascii List NArith ZArith Bool Lia.
From Stdlib Require Import DecimalString DecimalN DecimalPos.
From stdpp Require Import base option list strings gmap.

Import ListNotations.
Local Open Scope string_scope.
Local Open Scope list_scope.

(** ** Python strings *)

Module Py.

Definition newline : ascii := ascii_of_nat 10.
Definition underscore : ascii := ascii_of_nat 95.
Definition space : ascii := ascii_of_nat 32.

(** [\d] of the [re] module, restricted to the ten ASCII digits (keys are
    byte strings here). *)
Definition is_digit (c : ascii) : bool :=
  let n := nat_of_ascii c in (48 <=? n)%nat && (n <=? 57)%nat.

(** ASCII white space, as stripped by [int()] and [str.strip]. *)
Definition is_space (c : ascii) : bool :=
  let n := nat_of_ascii c in ((9 <=? n)%nat && (n <=? 13)%nat) || (n =? 32)%nat.

(** [s.startswith(p)] *)
Fixpoint startswith (s p : string) : bool :=
  match p with
  | EmptyString => true
  | String a p' =>
      match s with
      | EmptyString => false
      | String b s' => Ascii.eqb a b && startswith s' p'
      end
  end.

(** [s.replace(old, new)] for a non-empty [old]: occurrences are replaced
    left to right without overlap. [skip] counts the characters of the
    occurrence being consumed. *)
Fixpoint replace_from (old new s : string) (skip : nat) : string :=
  match s with
  | EmptyString => EmptyString
  | String c s' =>
      match skip with
      | S k => replace_from old new s' k
      | O =>
          if startswith s old
          then new ++ replace_from old new s' (String.length old - 1)
          else String c (replace_from old new s' 0)
      end
  end.

Definition replace (s old new : string) : string := replace_from old new s 0.

(** [s.split(sep)] with an explicit one-character separator: every
    separator cuts, empty pieces are kept, the result is never empty. *)
Fixpoint split (s : string) (sep : ascii) : list string :=
  match s with
  | EmptyString => [EmptyString]
  | String c s' =>
      if Ascii.eqb c sep then EmptyString :: split s' sep
      else match split s' sep with
           | piece :: pieces => String c piece :: pieces
           | [] => [String c EmptyString]
           end
  end.

(** [l[-1]] on a non-empty list. *)
Definition last_item (l : list string) : string := List.last l EmptyString.

(** [s[: -m]] for [m > 0]: everything but the last [m] characters. *)
Definition drop_end (s : string) (m : nat) : string :=
  String.substring 0 (String.length s - m) s.

(** [str(n)] for a non-negative integer. *)
Definition str (n : N) : string := NilZero.string_of_uint (N.to_uint n).

(** [s.strip()] on the character list. *)
Fixpoint strip_left (l : list ascii) : list ascii :=
  match l with
  | c :: l' => if is_space c then strip_left l' else l
  | [] => []
  end.

Definition strip (s : string) : string :=
  string_of_list_ascii
    (List.rev (strip_left (List.rev (strip_left (list_ascii_of_string s))))).

(** [int(s)] on an unsigned decimal literal, surrounding white space
    allowed; [None] stands for [ValueError]. The interpreter also raises
    [ValueError] on a literal of more than [max_str_digits] digits; [int]
    gives the value of every literal, and agrees with the interpreter on
    the literals within the limit. What is proved of a key that is parsed
    is stated for keys within the limit. *)
Definition int (s : string) : option N :=
  let t := strip s in
  if forallb is_digit (list_ascii_of_string t) && negb (String.eqb t EmptyString)
  then N.of_uint <$> NilZero.uint_of_string t
  else None.

(** [sys.get_int_max_str_digits()], 4300 unless it is configured. *)
Definition max_str_digits : nat := 4300.

(** [re.search(r"_\d+$", key)]: an underscore followed by one or more
    digits up to the end of the string, where [$] also matches just
    before a final newline. [ends_suffix] reads the key backwards. *)
Fixpoint ends_suffix (r : list ascii) (seen_digit : bool) : bool :=
  match r with
  | [] => false
  | c :: r' =>
      if is_digit c then ends_suffix r' true
      else Ascii.eqb c underscore && seen_digit
  end.

Definition search_suffix (key : string) : bool :=
  let r := List.rev (list_ascii_of_string key) in
  ends_suffix r false
  || match r with
     | c :: r' => Ascii.eqb c newline && ends_suffix r' false
     | [] => false
     end.

End Py.

(** ** Exceptions and results *)

Inductive exn : Type :=
| KeyError (key : string)
| UnboundLocalError (name : string)
| AttributeError (msg : string)
| ValueError (msg : string)
| TypeError (msg : string)
| IntegrityError (msg : string).

(** The computation inside a [with self.__db_session()] block. *)
Inductive result (A : Type) : Type :=
| Ok (a : A)
| Exn (e : exn).
Arguments Ok {A} a.
Arguments Exn {A} e.

Definition bind {A B : Type} (m : result A) (f : A -> result B) : result B :=
  match m with
  | Ok a => f a
  | Exn e => Exn e
  end.

Notation "x <- m ;; k" := (bind m (fun x => k))
  (at level 100, m at next level, right associativity, only parsing).

(** [for x in l: s = f(x, s)], abandoned at the first exception. *)
Fixpoint for_each {A S : Type} (f : A -> S -> result S) (l : list A) (s : S) : result S :=
  match l with
  | [] => Ok s
  | x :: l' => s' <- f x s ;; for_each f l' s'
  end.

Definition exn_text (e : exn) : string :=
  match e with
  | KeyError k => "KeyError: " ++ k
  | UnboundLocalError n => "UnboundLocalError: " ++ n
  | AttributeError m => "AttributeError: " ++ m
  | ValueError m => "ValueError: " ++ m
  | TypeError m => "TypeError: " ++ m
  | IntegrityError m => "sqlalchemy.exc.IntegrityError: " ++ m
  end.

(** [traceback.format_exc()]: the text of the exception being handled. *)
Definition format_exc (e : exn) : string :=
  "Traceback (most recent call last): " ++ exn_text e.

(** A local variable that may not have been assigned yet. *)
Inductive local (A : Type) : Type :=
| Unbound
| Bound (a : A).
Arguments Unbound {A}.
Arguments Bound {A} a.

(** ** The persisted relations (model.py)

    Modelled from the spec: model.py, which declares the tables, is not
    part of the sources. The rows carry the columns that Database.py reads
    and writes; the keys are those of the data model: [Services.id],
    [Settings.id], [Plugins.id], [Jobs.name] (the arguments of
    [session.query(...).get]), [(setting_id, suffix)] for a global value,
    [(service_id, setting_id, suffix)] for a service setting,
    [(setting_id, value)] for a select and [(service_id, type, name)] for a
    custom configuration. A flush that would store two rows with one key
    raises [IntegrityError]. Foreign keys are not enforced. *)

Record Settings_row : Type := {
  set_id : string;
  set_name : string;
  set_plugin_id : string;
  set_context : string;
  set_default : string;
  set_help : string;
  set_label : string;
  set_regex : string;
  set_type : string;
  set_multiple : bool
}.

Record Global_values_row : Type := {
  gv_setting_id : string;
  gv_value : string;
  gv_suffix : N;
  gv_method : string
}.

Record Services_settings_row : Type := {
  ss_service_id : string;
  ss_setting_id : string;
  ss_value : string;
  ss_suffix : N;
  ss_method : string
}.

Record Custom_configs_row : Type := {
  cc_service_id : option string;
  cc_type : string;
  cc_name : string;
  cc_data : string;
  cc_checksum : string;
  cc_method : string
}.

Record Plugins_row : Type := {
  pl_id : string;
  pl_order : Z;
  pl_name : string;
  pl_description : string;
  pl_version : string;
  pl_external : bool
}.

Record Selects_row : Type := {
  sel_setting_id : string;
  sel_value : string
}.

Record Jobs_row : Type := {
  job_plugin_id : string;
  job_name : string;
  job_file : string;
  job_every : string;
  job_reload : bool
}.

Record Plugin_pages_row : Type := {
  pp_plugin_id : string;
  pp_template_file : string;
  pp_template_checksum : string;
  pp_actions_file : string;
  pp_actions_checksum : string
}.

Record Metadata_row : Type := {
  is_initialized : bool;
  first_config_saved : bool;
  autoconf_loaded : bool;
  version : string
}.

Record db : Type := {
  services : list string;
  settings : list Settings_row;
  global_values : list Global_values_row;
  services_settings : list Services_settings_row;
  custom_configs : list Custom_configs_row;
  plugins : list Plugins_row;
  selects : list Selects_row;
  jobs : list Jobs_row;
  plugin_pages : list Plugin_pages_row;
  metadata : option Metadata_row
}.

Definition set_services (l : list string) (d : db) : db :=
  {| services := l; settings := settings d; global_values := global_values d;
     services_settings := services_settings d; custom_configs := custom_configs d;
     plugins := plugins d; selects := selects d; jobs := jobs d;
     plugin_pages := plugin_pages d; metadata := metadata d |}.

Definition set_settings (l : list Settings_row) (d : db) : db :=
  {| services := services d; settings := l; global_values := global_values d;
     services_settings := services_settings d; custom_configs := custom_configs d;
     plugins := plugins d; selects := selects d; jobs := jobs d;
     plugin_pages := plugin_pages d; metadata := metadata d |}.

Definition set_global_values (l : list Global_values_row) (d : db) : db :=
  {| services := services d; settings := settings d; global_values := l;
     services_settings := services_settings d; custom_configs := custom_configs d;
     plugins := plugins d; selects := selects d; jobs := jobs d;
     plugin_pages := plugin_pages d; metadata := metadata d |}.

Definition set_services_settings (l : list Services_settings_row) (d : db) : db :=
  {| services := services d; settings := settings d; global_values := global_values d;
     services_settings := l; custom_configs := custom_configs d;
     plugins := plugins d; selects := selects d; jobs := jobs d;
     plugin_pages := plugin_pages d; metadata := metadata d |}.

Definition set_custom_configs (l : list Custom_configs_row) (d : db) : db :=
  {| services := services d; settings := settings d; global_values := global_values d;
     services_settings := services_settings d; custom_configs := l;
     plugins := plugins d; selects := selects d; jobs := jobs d;
     plugin_pages := plugin_pages d; metadata := metadata d |}.

Definition set_plugins (l : list Plugins_row) (d : db) : db :=
  {| services := services d; settings := settings d; global_values := global_values d;
     services_settings := services_settings d; custom_configs := custom_configs d;
     plugins := l; selects := selects d; jobs := jobs d;
     plugin_pages := plugin_pages d; metadata := metadata d |}.

Definition set_selects (l : list Selects_row) (d : db) : db :=
  {| services := services d; settings := settings d; global_values := global_values d;
     services_settings := services_settings d; custom_configs := custom_configs d;
     plugins := plugins d; selects := l; jobs := jobs d;
     plugin_pages := plugin_pages d; metadata := metadata d |}.

Definition set_jobs (l : list Jobs_row) (d : db) : db :=
  {| services := services d; settings := settings d; global_values := global_values d;
     services_settings := services_settings d; custom_configs := custom_configs d;
     plugins := plugins d; selects := selects d; jobs := l;
     plugin_pages := plugin_pages d; metadata := metadata d |}.

Definition set_plugin_pages (l : list Plugin_pages_row) (d : db) : db :=
  {| services := services d; settings := settings d; global_values := global_values d;
     services_settings := services_settings d; custom_configs := custom_configs d;
     plugins := plugins d; selects := selects d; jobs := jobs d;
     plugin_pages := l; metadata := metadata d |}.

Definition set_metadata (m : option Metadata_row) (d : db) : db :=
  {| services := services d; settings := settings d; global_values := global_values d;
     services_settings := services_settings d; custom_configs := custom_configs d;
     plugins := plugins d; selects := selects d; jobs := jobs d;
     plugin_pages := plugin_pages d; metadata := m |}.

Definition empty_db : db :=
  {| services := []; settings := []; global_values := []; services_settings := [];
     custom_configs := []; plugins := []; selects := []; jobs := [];
     plugin_pages := []; metadata := None |}.

(** The objects a session can be asked to add. *)
Inductive entity : Type :=
| E_Services (id : string)
| E_Global_values (r : Global_values_row)
| E_Services_settings (r : Services_settings_row)
| E_Custom_configs (r : Custom_configs_row)
| E_Plugins (r : Plugins_row)
| E_Settings (r : Settings_row)
| E_Selects (r : Selects_row)
| E_Jobs (r : Jobs_row)
| E_Plugin_pages (r : Plugin_pages_row).

(** *** Filters of the queries *)

Definition option_eqb (a b : option string) : bool :=
  match a, b with
  | None, None => true
  | Some x, Some y => String.eqb x y
  | _, _ => false
  end.

Definition gv_at (key : string) (suffix : N) (r : Global_values_row) : bool :=
  String.eqb (gv_setting_id r) key && N.eqb (gv_suffix r) suffix.

Definition ss_at (service key : string) (suffix : N) (r : Services_settings_row) : bool :=
  String.eqb (ss_service_id r) service && String.eqb (ss_setting_id r) key
  && N.eqb (ss_suffix r) suffix.

Definition cc_at (service : option string) (type name : string) (r : Custom_configs_row) : bool :=
  option_eqb (cc_service_id r) service && String.eqb (cc_type r) type
  && String.eqb (cc_name r) name.

(** [session.query(T).filter(...).first()] *)
Definition first {A : Type} (p : A -> bool) (rows : list A) : option A := List.find p rows.

(** [session.query(T).filter(...).delete()] *)
Definition delete_where {A : Type} (p : A -> bool) (rows : list A) : list A :=
  List.filter (fun r => negb (p r)) rows.

(** [session.query(T).filter(...).update(...)] *)
Definition update_where {A : Type} (p : A -> bool) (f : A -> A) (rows : list A) : list A :=
  List.map (fun r => if p r then f r else r) rows.

(** *** Flushing the pending objects *)

Definition add_entity (e : entity) (d : db) : option db :=
  match e with
  | E_Services id =>
      if existsb (String.eqb id) (services d) then None
      else Some (set_services (services d ++ [id]) d)
  | E_Global_values r =>
      if existsb (gv_at (gv_setting_id r) (gv_suffix r)) (global_values d) then None
      else Some (set_global_values (global_values d ++ [r]) d)
  | E_Services_settings r =>
      if existsb (ss_at (ss_service_id r) (ss_setting_id r) (ss_suffix r)) (services_settings d)
      then None
      else Some (set_services_settings (services_settings d ++ [r]) d)
  | E_Custom_configs r =>
      if existsb (cc_at (cc_service_id r) (cc_type r) (cc_name r)) (custom_configs d) then None
      else Some (set_custom_configs (custom_configs d ++ [r]) d)
  | E_Plugins r =>
      if existsb (fun p => String.eqb (pl_id p) (pl_id r)) (plugins d) then None
      else Some (set_plugins (plugins d ++ [r]) d)
  | E_Settings r =>
      if existsb (fun s => String.eqb (set_id s) (set_id r)) (settings d) then None
      else Some (set_settings (settings d ++ [r]) d)
  | E_Selects r =>
      if existsb (fun s => String.eqb (sel_setting_id s) (sel_setting_id r)
                           && String.eqb (sel_value s) (sel_value r)) (selects d)
      then None
      else Some (set_selects (selects d ++ [r]) d)
  | E_Jobs r =>
      if existsb (fun j => String.eqb (job_name j) (job_name r)) (jobs d) then None
      else Some (set_jobs (jobs d ++ [r]) d)
  | E_Plugin_pages r => Some (set_plugin_pages (plugin_pages d ++ [r]) d)
  end.

(** [session.add_all(to_put); session.commit()]: [None] when the flush
    raises. *)
Fixpoint add_all (to_put : list entity) (d : db) : option db :=
  match to_put with
  | [] => Some d
  | e :: rest =>
      match add_entity e d with
      | Some d' => add_all rest d'
      | None => None
      end
  end.

(** What a public operation leaves behind: a returned value and the store
    after it, or an exception that reached the caller, with the store as
    the rolled-back transaction left it. *)
Inductive outcome (A : Type) : Type :=
| Returned (a : A) (after : db)
| Raised (e : exn) (after : db).
Arguments Returned {A} a after.
Arguments Raised {A} e after.

(** ** save_config *)

(** [config[key]] and [key in config] on the submitted mapping, kept as
    the list of its items in iteration order. *)
Definition dict_get (config : list (string * string)) (key : string) : option string :=
  snd <$> List.find (fun kv => String.eqb (fst kv) key) config.

Definition getitem (config : list (string * string)) (key : string) : result string :=
  match dict_get config key with
  | Some v => Ok v
  | None => Exn (KeyError key)
  end.

(** Lines 292-295 and 402-405:
    [suffix = 0]
    [if search(r"_\d+$", key): suffix = int(key.split("_")[-1]); key = key[: -len(str(suffix)) - 1]] *)
Definition split_suffix (key : string) : result (string * N) :=
  if Py.search_suffix key then
    match Py.int (Py.last_item (Py.split key Py.underscore)) with
    | Some suffix => Ok (Py.drop_end key (String.length (Py.str suffix) + 1), suffix)
    | None => Exn (ValueError "invalid literal for int() with base 10")
    end
  else Ok (key, 0%N).



(** [session.query(Settings).with_entities(Settings.default).filter_by(id=...).first()] *)
Definition setting_default (d : db) (id : string) : option string :=
  set_default <$> first (fun s => String.eqb (set_id s) id) (settings d).

(** The state of the multisite loops: the store as the transaction sees it,
    the pending objects, the list [global_values] of the keys already taken
    as global, and the local variable [global_value], which is assigned in
    the global branch only and read in the service branch. *)
Record frame : Type := {
  f_db : db;
  f_to_put : list entity;
  f_global_values : list string;
  f_global_value : local (option string)
}.

Definition with_db (d : db) (f : frame) : frame :=
  {| f_db := d; f_to_put := f_to_put f; f_global_values := f_global_values f;
     f_global_value := f_global_value f |}.

Definition put (e : entity) (f : frame) : frame :=
  {| f_db := f_db f; f_to_put := f_to_put f ++ [e]; f_global_values := f_global_values f;
     f_global_value := f_global_value f |}.

(** [key != "SERVER_NAME" and (value == setting.default or (key in config and value == config[key]))] *)
Definition redundant (config : list (string * string)) (key value default : string) : bool :=
  negb (String.eqb key "SERVER_NAME")
  && (String.eqb value default
      || match dict_get config key with
         | Some v => String.eqb value v
         | None => false
         end).

(** Lines 307-356, the branch of a key that starts with the service name. *)
Definition service_branch (config : list (string * string)) (method server_name : string)
    (key : string) (suffix : N) (value default : string) (f : frame) : result frame :=
  let key := Py.replace key (server_name ++ "_") EmptyString in
  match first (ss_at server_name key suffix) (services_settings (f_db f)) with
  | None =>
      if redundant config key value default then Ok f
      else Ok (put (E_Services_settings
                      {| ss_service_id := server_name; ss_setting_id := key;
                         ss_value := value; ss_suffix := suffix; ss_method := method |}) f)
  | Some _ =>
      if String.eqb method "autoconf" then
        if redundant config key value default then
          Ok (with_db (set_services_settings
                         (delete_where (ss_at server_name key suffix)
                            (services_settings (f_db f))) (f_db f)) f)
        else
          match f_global_value f with
          | Unbound => Exn (UnboundLocalError "global_value")
          | Bound None => Exn (AttributeError "'NoneType' object has no attribute 'value'")
          | Bound (Some global) =>
              if negb (String.eqb global value) then
                Ok (with_db (set_services_settings
                               (update_where (ss_at server_name key suffix)
                                  (fun r => {| ss_service_id := ss_service_id r;
                                               ss_setting_id := ss_setting_id r;
                                               ss_value := value;
                                               ss_suffix := ss_suffix r;
                                               ss_method := method |})
                                  (services_settings (f_db f))) (f_db f)) f)
              else Ok f
          end
      else Ok f
  end.

(** Lines 357-396, the branch of a key seen for the first time as global. *)
Definition global_branch (method : string) (key : string) (suffix : N)
    (value default : string) (f : frame) : result frame :=
  let global_value := gv_value <$> first (gv_at key suffix) (global_values (f_db f)) in
  let f := {| f_db := f_db f; f_to_put := f_to_put f;
              f_global_values := f_global_values f ++ [key];
              f_global_value := Bound global_value |} in
  match global_value with
  | None =>
      if String.eqb value default then Ok f
      else Ok (put (E_Global_values
                      {| gv_setting_id := key; gv_value := value;
                         gv_suffix := suffix; gv_method := method |}) f)
  | Some stored =>
      if String.eqb method "autoconf" then
        if String.eqb value default then
          Ok (with_db (set_global_values
                         (delete_where (gv_at key suffix) (global_values (f_db f)))
                         (f_db f)) f)
        else if negb (String.eqb stored value) then
          Ok (with_db (set_global_values
                         (update_where (gv_at key suffix)
                            (fun r => {| gv_setting_id := gv_setting_id r;
                                         gv_value := value;
                                         gv_suffix := gv_suffix r;
                                         gv_method := method |})
                            (global_values (f_db f))) (f_db f)) f)
        else Ok f
      else Ok f
  end.

(** Lines 291-396, one item of [deepcopy(config).items()] for one service. *)
Definition multisite_item (config : list (string * string)) (method server_name : string)
    (item : string * string) (f : frame) : result frame :=
  ks <- split_suffix (fst item) ;;
  let key := fst ks in
  let suffix := snd ks in
  let value := snd item in
  match setting_default (f_db f) (Py.replace key (server_name ++ "_") EmptyString) with
  | None => Ok f
  | Some default =>
      if negb (String.eqb server_name EmptyString) && Py.startswith key server_name then
        service_branch config method server_name key suffix value default f
      else if negb (existsb (String.eqb key) (f_global_values f)) then
        global_branch method key suffix value default f
      else Ok f
  end.

(** Lines 281-396, one name of [config["SERVER_NAME"].split(" ")]. *)
Definition multisite_server (config : list (string * string)) (method : string)
    (server_name : string) (f : frame) : result frame :=
  let f :=
    if negb (String.eqb server_name EmptyString)
       && negb (existsb (String.eqb server_name) (services (f_db f)))
    then put (E_Services server_name) f else f in
  for_each (multisite_item config method server_name) config f.

(** Lines 417-437: the stored global value is looked up by key and suffix,
    created when absent and rewritten only when this writer owns it. *)
Definition single_site_store (method : string) (key : string) (suffix : N)
    (value : string) (f : frame) : frame :=
  match first (gv_at key suffix) (global_values (f_db f)) with
  | None => put (E_Global_values
                   {| gv_setting_id := key; gv_value := value;
                      gv_suffix := suffix; gv_method := method |}) f
  | Some stored =>
      if String.eqb (gv_method stored) method then
        with_db (set_global_values
                   (update_where (gv_at key suffix)
                      (fun r => {| gv_setting_id := gv_setting_id r;
                                   gv_value := value;
                                   gv_suffix := gv_suffix r;
                                   gv_method := gv_method r |})
                      (global_values (f_db f))) (f_db f)) f
      else f
  end.

(** Lines 401-437, one item of [config.items()] in single-site mode. *)
Definition single_site_item (method : string) (item : string * string) (f : frame) : result frame :=
  ks <- split_suffix (fst item) ;;
  let key := fst ks in
  let suffix := snd ks in
  let value := snd item in
  let at_default :=
    match setting_default (f_db f) key with
    | Some default => String.eqb value default
    | None => false
    end in
  if at_default then Ok f
  else Ok (single_site_store method key suffix value f).

(** Lines 278-437, [if config: ...]. *)
Definition save_config_body (config : list (string * string)) (method : string)
    (f : frame) : result frame :=
  match config with
  | [] => Ok f
  | _ :: _ =>
      multisite <- getitem config "MULTISITE" ;;
      if String.eqb multisite "yes" then
        server_names <- getitem config "SERVER_NAME" ;;
        for_each (multisite_server config method) (Py.split server_names Py.space) f
      else
        server_names <- getitem config "SERVER_NAME" ;;
        let primary_server_name := List.hd EmptyString (Py.split server_names Py.space) in
        for_each (single_site_item method) config (put (E_Services primary_server_name) f)
  end.

(** Lines 439-444. *)
Definition mark_first_config_saved (d : db) : db :=
  match metadata d with
  | Some m =>
      if negb (first_config_saved m)
      then set_metadata (Some {| is_initialized := is_initialized m;
                                 first_config_saved := true;
                                 autoconf_loaded := autoconf_loaded m;
                                 version := version m |}) d
      else d
  | None => d
  end.

(** Lines 272-276, the rows of this writer are deleted first. *)
Definition delete_own (method : string) (d : db) : db :=
  set_services_settings
    (delete_where (fun r => String.eqb (ss_method r) method) (services_settings d))
    (set_global_values
       (delete_where (fun r => String.eqb (gv_method r) method) (global_values d)) d).

Definition start (d : db) : frame :=
  {| f_db := d; f_to_put := []; f_global_values := []; f_global_value := Unbound |}.

(** [Database.save_config]. An exception raised inside the session block is
    rolled back and raised again by [__db_session] (lines 92-94); a failed
    commit is caught and its text returned (lines 446-450), and closing the
    session drops the transaction. *)
Definition save_config (st : db) (config : list (string * string)) (method : string)
    : outcome string :=
  match save_config_body config method (start (delete_own method st)) with
  | Exn e => Raised e st
  | Ok f =>
      match add_all (f_to_put f) (mark_first_config_saved (f_db f)) with
      | Some st' => Returned EmptyString st'
      | None => Returned (format_exc (IntegrityError "UNIQUE constraint failed")) st
      end
  end.

(** ** get_config *)

(** A value of the projected mapping: the bare string, or the dictionary
    [{"value": ..., "method": ...}] when [methods] is set. *)
Inductive cfg_value : Type :=
| Plain (value : string)
| WithMethod (value method : string).

(** [x if methods is False else {"value": x, "method": m}] *)
Definition shaped (methods : bool) (value method : string) : cfg_value :=
  if methods then WithMethod value method else Plain value.

(** [config[k] if methods is False else {"value": config[k]["value"], "method": "default"}] *)
Definition seeded (methods : bool) (config : gmap string cfg_value) (k : string)
    : result cfg_value :=
  match config !! k with
  | None => Exn (KeyError k)
  | Some v =>
      if methods then
        match v with
        | WithMethod value _ => Ok (WithMethod value "default")
        | Plain _ => Exn (TypeError "string indices must be integers")
        end
      else Ok v
  end.

(** The tail of the key for a suffix: [_] and the suffix in decimal when the
    suffix is greater than 0, nothing otherwise (lines 580 and 628). *)
Definition suffix_tail (suffix : N) : string :=
  if (0 <? suffix)%N then "_" ++ Py.str suffix else EmptyString.

Inductive flow : Type := Break | Next.

(** Lines 564-641, one turn of the [while True] loop; [Next] is the fall
    through to [suffix += 1]. *)
Definition probe (d : db) (methods : bool) (service : string) (setting : Settings_row)
    (suffix : N) (config : gmap string cfg_value) : result (gmap string cfg_value * flow) :=
  let config :=
    match first (gv_at (set_id setting) suffix) (global_values d) with
    | None =>
        if (suffix =? 0)%N
        then <[set_id setting := shaped methods (set_default setting) "default"]> config
        else config
    | Some global_value =>
        <[(set_id setting ++ suffix_tail suffix)%string :=
            shaped methods (gv_value global_value) (gv_method global_value)]> config
    end in
  if negb (String.eqb (set_context setting) "multisite") then Ok (config, Break)
  else
    config <-
      (if (suffix =? 0)%N then
         v <- seeded methods config (set_id setting) ;;
         Ok (<[(service ++ "_" ++ set_id setting)%string := v]> config)
       else
         match config !! (set_id setting ++ "_" ++ Py.str suffix)%string with
         | Some _ =>
             v <- seeded methods config (set_id setting ++ "_" ++ Py.str suffix) ;;
             Ok (<[(service ++ "_" ++ set_id setting ++ "_" ++ Py.str suffix)%string := v]> config)
         | None => Ok config
         end) ;;
    match first (ss_at service (set_id setting) suffix) (services_settings d) with
    | Some service_setting =>
        let config :=
          <[(service ++ "_" ++ set_id setting ++ suffix_tail suffix)%string :=
              shaped methods (ss_value service_setting) (ss_method service_setting)]> config in
        if negb (set_multiple setting) then Ok (config, Break) else Ok (config, Next)
    | None =>
        if (0 <? suffix)%N then Ok (config, Break)
        else if negb (set_multiple setting) then Ok (config, Break)
        else Ok (config, Next)
    end.

(** Lines 562-643: [suffix = 0; while True: ...]. The loop is run with a
    bound on the number of turns ([None] when the bound is used up) and
    hands back the mapping together with the suffix at which it left. *)
Fixpoint probe_loop (fuel : nat) (d : db) (methods : bool) (service : string)
    (setting : Settings_row) (suffix : N) (config : gmap string cfg_value)
    : option (result (gmap string cfg_value * N)) :=
  match fuel with
  | O => None
  | S fuel' =>
      match probe d methods service setting suffix config with
      | Exn e => Some (Exn e)
      | Ok (config', Break) => Some (Ok (config', suffix))
      | Ok (config', Next) =>
          probe_loop fuel' d methods service setting (suffix + 1)%N config'
      end
  end.

(** Lines 552-643, the settings of one service. *)
Fixpoint project_settings (fuel : nat) (d : db) (methods : bool) (service : string)
    (l : list Settings_row) (config : gmap string cfg_value)
    : option (result (gmap string cfg_value)) :=
  match l with
  | [] => Some (Ok config)
  | setting :: l' =>
      match probe_loop fuel d methods service setting 0%N config with
      | None => None
      | Some (Exn e) => Some (Exn e)
      | Some (Ok (config', _)) => project_settings fuel d methods service l' config'
      end
  end.

(** Lines 551-643, the services in table order. *)
Fixpoint project_services (fuel : nat) (d : db) (methods : bool) (l : list string)
    (config : gmap string cfg_value) : option (result (gmap string cfg_value)) :=
  match l with
  | [] => Some (Ok config)
  | service :: l' =>
      match project_settings fuel d methods service (settings d) config with
      | None => None
      | Some (Exn e) => Some (Exn e)
      | Some (Ok config') => project_services fuel d methods l' config'
      end
  end.

(** [Database.get_config]; [fuel] bounds each suffix loop. *)
Definition get_config (fuel : nat) (st : db) (methods : bool)
    : option (result (gmap string cfg_value)) :=
  project_services fuel st methods (services st) ∅.

(** The largest suffix of a stored service setting. *)
Definition max_suffix (d : db) : N :=
  List.fold_right N.max 0%N (List.map ss_suffix (services_settings d)).

(** Turns that always suffice: past the largest stored suffix of a
    service setting no loop goes on. *)
Definition enough_fuel (st : db) : nat := N.to_nat (max_suffix st) + 2.

(** ** save_custom_configs *)

(** One submitted entry: [custom_config["value"]] and the three items of
    [custom_config["exploded"]] (service id, type, name). *)
Record custom_config : Type := {
  cc_in_value : string;
  cc_in_service : option string;
  cc_in_type : string;
  cc_in_name : string
}.

Definition lower_ascii (c : ascii) : ascii :=
  let n := nat_of_ascii c in
  if (65 <=? n)%nat && (n <=? 90)%nat then ascii_of_nat (n + 32) else c.

(** [s.lower()] on ASCII letters. *)
Fixpoint lower (s : string) : string :=
  match s with
  | EmptyString => EmptyString
  | String c s' => String (lower_ascii c) (lower s')
  end.

Definition backslash_newline : string := String (ascii_of_nat 92) (String Py.newline EmptyString).
Definition endl : string := String Py.newline EmptyString.

(** Truthiness of [custom_config["exploded"][0]]. *)
Definition truthy (s : option string) : bool :=
  match s with
  | Some x => negb (String.eqb x EmptyString)
  | None => false
  end.

Record cc_frame : Type := {
  c_db : db;
  c_to_put : list entity;
  c_message : string
}.

Section Hashing.

(** [sha256(data).hexdigest()] *)
Variable sha256_hexdigest : string -> string.

(** Lines 469-505: the row built from a submitted entry; [service_id] is
    set only for a truthy first item. *)
Definition build_config (method : string) (c : custom_config) : Custom_configs_row :=
  let data := Py.replace (cc_in_value c) backslash_newline endl in
  {| cc_service_id := if truthy (cc_in_service c) then cc_in_service c else None;
     cc_type := lower (Py.replace (cc_in_type c) "-" "_");
     cc_name := cc_in_name c;
     cc_data := data;
     cc_checksum := sha256_hexdigest data;
     cc_method := method |}.

(** Lines 479-486, the warning for a service that does not exist. *)
Definition service_warning (d : db) (c : custom_config) (message : string) : string :=
  match cc_in_service c with
  | Some service =>
      if truthy (cc_in_service c)
         && negb (existsb (String.eqb service) (services d))
      then message ++ (if String.eqb message EmptyString then EmptyString else endl)
           ++ "Service " ++ service ++ " not found, please check your config"
      else message
  | None => message
  end.

(** Lines 523-537, the update of a stored row. *)
Definition overwrite (method : string) (config : Custom_configs_row)
    (r : Custom_configs_row) : Custom_configs_row :=
  {| cc_service_id := cc_service_id r;
     cc_type := cc_type r;
     cc_name := cc_name r;
     cc_data := cc_data config;
     cc_checksum := cc_checksum config;
     cc_method := if String.eqb method "autoconf" then "autoconf" else cc_method r |}.

(** Lines 468-537, one entry of [custom_configs]. *)
Definition custom_config_item (method : string) (c : custom_config) (f : cc_frame) : cc_frame :=
  let config := build_config method c in
  let message := service_warning (c_db f) c (c_message f) in
  let at_key := cc_at (cc_service_id config) (cc_type config) (cc_name config) in
  match first at_key (custom_configs (c_db f)) with
  | None =>
      {| c_db := c_db f; c_to_put := c_to_put f ++ [E_Custom_configs config];
         c_message := message |}
  | Some custom_conf =>
      if negb (String.eqb (cc_checksum config) (cc_checksum custom_conf))
         && (String.eqb method (cc_method custom_conf) || String.eqb method "autoconf")
      then
        {| c_db := set_custom_configs
                     (update_where at_key (overwrite method config)
                        (custom_configs (c_db f))) (c_db f);
           c_to_put := c_to_put f;
           c_message := message |}
      else {| c_db := c_db f; c_to_put := c_to_put f; c_message := message |}
  end.

(** [Database.save_custom_configs] *)
Definition save_custom_configs (st : db) (custom_configs_in : list custom_config)
    (method : string) : outcome string :=
  let d := set_custom_configs
             (delete_where (fun r => String.eqb (cc_method r) method) (custom_configs st)) st in
  let f := List.fold_left (fun f c => custom_config_item method c f) custom_configs_in
             {| c_db := d; c_to_put := []; c_message := EmptyString |} in
  match add_all (c_to_put f) (c_db f) with
  | Some st' => Returned (c_message f) st'
  | None =>
      Returned ((if String.eqb (c_message f) EmptyString then EmptyString
                 else c_message f ++ endl)
                ++ format_exc (IntegrityError "UNIQUE constraint failed"))%string st
  end.

(** ** update_external_plugins *)

(** A setting of a manifest: [sm_id] is the [id] field of the value, which
    line 1042 moves to [name]; the key of the [settings] mapping becomes the
    row's [id]. *)
Record setting_manifest : Type := {
  sm_id : string;
  sm_context : string;
  sm_default : string;
  sm_help : string;
  sm_label : string;
  sm_regex : string;
  sm_type : string;
  sm_multiple : bool;
  sm_select : list string
}.

Record job_manifest : Type := {
  jm_name : string;
  jm_file : string;
  jm_every : string;
  jm_reload : bool
}.

Record page_manifest : Type := {
  pg_template_file : string;
  pg_actions_file : string
}.

Record plugin_manifest : Type := {
  pm_id : string;
  pm_order : Z;
  pm_name : string;
  pm_description : string;
  pm_version : string;
  pm_settings : list (string * setting_manifest);
  pm_jobs : list job_manifest;
  pm_pages : list page_manifest
}.

(** What the caller's dictionary looks like after lines 773-776 popped
    [settings], [jobs] and [pages] from it. *)
Definition popped (p : plugin_manifest) : plugin_manifest :=
  {| pm_id := pm_id p; pm_order := pm_order p; pm_name := pm_name p;
     pm_description := pm_description p; pm_version := pm_version p;
     pm_settings := []; pm_jobs := []; pm_pages := [] |}.

Record up_frame : Type := {
  u_db : db;
  u_to_put : list entity;
  u_warnings : list string
}.

(** Lines 1038-1054, the objects of one setting. *)
Definition setting_entities (plugin_id : string) (item : string * setting_manifest)
    : list entity :=
  let setting := fst item in
  let value := snd item in
  List.map (fun select => E_Selects {| sel_setting_id := setting; sel_value := select |})
    (sm_select value)
  ++ [E_Settings {| set_id := setting; set_name := sm_id value; set_plugin_id := plugin_id;
                    set_context := sm_context value; set_default := sm_default value;
                    set_help := sm_help value; set_label := sm_label value;
                    set_regex := sm_regex value; set_type := sm_type value;
                    set_multiple := sm_multiple value |}].

(** Lines 1036-1068, the objects of a plugin that is inserted whole. *)
Definition plugin_entities (p : plugin_manifest) : list entity :=
  [E_Plugins {| pl_id := pm_id p; pl_order := pm_order p; pl_name := pm_name p;
                pl_description := pm_description p; pl_version := pm_version p;
                pl_external := true |}]
  ++ List.flat_map (setting_entities (pm_id p)) (pm_settings p)
  ++ List.map (fun job => E_Jobs {| job_plugin_id := pm_id p; job_name := jm_name job;
                                    job_file := jm_file job; job_every := jm_every job;
                                    job_reload := jm_reload job |}) (pm_jobs p)
  ++ List.map (fun page => E_Plugin_pages
                             {| pp_plugin_id := pm_id p;
                                pp_template_file := pg_template_file page;
                                pp_template_checksum := sha256_hexdigest (pg_template_file page);
                                pp_actions_file := pg_actions_file page;
                                pp_actions_checksum := sha256_hexdigest (pg_actions_file page) |})
       (pm_pages p).

(** Lines 788-1032, the reconciliation of a stored external plugin with its
    manifest. It reads the plugin's UI files and is entered only under the
    test of line 778; it is kept as a parameter of the development. *)
Variable reconcile : plugin_manifest -> Plugins_row -> up_frame -> up_frame.

(** Line 762: [db_ids = []], which no later line extends. *)
Definition db_ids : list string := [].

Definition not_external_warning (id : string) : string :=
  ("Plugin " ++ id ++ " is not external, skipping update (updating a non-external plugin is forbidden for security reasons)")%string.

(** Lines 772-1068, one manifest of [plugins]. *)
Definition plugin_item (p : plugin_manifest) (f : up_frame) : up_frame :=
  let insert :=
    {| u_db := u_db f; u_to_put := u_to_put f ++ plugin_entities p;
       u_warnings := u_warnings f |} in
  if existsb (String.eqb (pm_id p)) db_ids then
    match first (fun r => String.eqb (pl_id r) (pm_id p)) (plugins (u_db f)) with
    | Some db_plugin =>
        if negb (pl_external db_plugin) then
          {| u_db := u_db f; u_to_put := u_to_put f;
             u_warnings := u_warnings f ++ [not_external_warning (pm_id p)] |}
        else reconcile p db_plugin f
    | None => insert
    end
  else insert.

(** Modelled from the spec: the foreign keys of model.py are not part of
    the sources; deleting a plugin cascades to its settings, their selects,
    its jobs and its pages. *)
Definition delete_plugins (ids : list string) (d : db) : db :=
  let gone (id : string) := existsb (String.eqb id) ids in
  let dead_settings :=
    List.map set_id (List.filter (fun s => gone (set_plugin_id s)) (settings d)) in
  set_plugin_pages (delete_where (fun r => gone (pp_plugin_id r)) (plugin_pages d))
    (set_jobs (delete_where (fun r => gone (job_plugin_id r)) (jobs d))
       (set_selects
          (delete_where (fun r => existsb (String.eqb (sel_setting_id r)) dead_settings)
             (selects d))
          (set_settings (delete_where (fun s => gone (set_plugin_id s)) (settings d))
             (set_plugins (delete_where (fun r => gone (pl_id r)) (plugins d)) d)))).

(** Lines 755-770: the stored external plugins that the list no longer
    names. *)
Definition missing_ids (d : db) (plugins_in : list plugin_manifest) : list string :=
  let ids := List.map pm_id plugins_in in
  List.filter (fun id => negb (existsb (String.eqb id) ids))
    (List.map pl_id (List.filter pl_external (plugins d))).

(** [Database.update_external_plugins]; the second component is the list of
    warnings written to the logger. *)
Definition update_external_plugins (st : db) (plugins_in : list plugin_manifest)
    : outcome string * list string :=
  let d := delete_plugins (missing_ids st plugins_in) st in
  let f := List.fold_left (fun f p => plugin_item p f) plugins_in
             {| u_db := d; u_to_put := []; u_warnings := [] |} in
  match add_all (u_to_put f) (u_db f) with
  | Some st' => (Returned EmptyString st', u_warnings f)
  | None => (Returned (format_exc (IntegrityError "UNIQUE constraint failed")) st,
             u_warnings f)
  end.

End Hashing.

(** ** Stores and submissions used as concrete inputs *)

Definition mk_setting (id default context : string) (multiple : bool) : Settings_row :=
  {| set_id := id; set_name := id; set_plugin_id := "general"; set_context := context;
     set_default := default; set_help := EmptyString; set_label := EmptyString;
     set_regex := EmptyString; set_type := "text"; set_multiple := multiple |}.

(** A store that holds the settings catalogue and nothing else. *)
Definition catalog : db :=
  set_settings
    [mk_setting "MULTISITE" "no" "global" false;
     mk_setting "SERVER_NAME" "www.example.com" "multisite" false;
     mk_setting "LOG_LEVEL" "info" "global" false;
     mk_setting "REVERSE_PROXY_URL" EmptyString "multisite" true]
    empty_db.

Definition single_site_config : list (string * string) :=
  [("MULTISITE", "no"); ("SERVER_NAME", "www.example.com")].

Definition commit_failure : string :=
  format_exc (IntegrityError "UNIQUE constraint failed").

(** A stand-in for the digest in concrete runs: the data themselves. *)
Definition plain_digest (data : string) : string := data.

Definition stored_snippet : Custom_configs_row :=
  {| cc_service_id := None; cc_type := "server_http"; cc_name := "hello";
     cc_data := "old"; cc_checksum := "old"; cc_method := "manual" |}.

Definition snippet_frame : cc_frame :=
  {| c_db := set_custom_configs [stored_snippet] catalog; c_to_put := [];
     c_message := EmptyString |}.

Definition submitted_snippet : custom_config :=
  {| cc_in_value := "new"; cc_in_service := None; cc_in_type := "server-http";
     cc_in_name := "hello" |}.

Definition builtin_plugin : Plugins_row :=
  {| pl_id := "builtin1"; pl_order := 1%Z; pl_name := "Built-in"; pl_description := "core";
     pl_version := "1.0"; pl_external := false |}.

Definition builtin_store : db := set_plugins [builtin_plugin] catalog.

Definition claiming_manifest : plugin_manifest :=
  {| pm_id := "builtin1"; pm_order := 9%Z; pm_name := "Impostor"; pm_description := "ext";
     pm_version := "0.1"; pm_settings := []; pm_jobs := []; pm_pages := [] |}.

Definition external_manifest : plugin_manifest :=
  {| pm_id := "myplugin"; pm_order := 7%Z; pm_name := "My plugin"; pm_description := "ext";
     pm_version := "0.1";
     pm_settings :=
       [("MY_SETTING",
         {| sm_id := "my-setting"; sm_context := "multisite"; sm_default := "no";
            sm_help := "help"; sm_label := "label"; sm_regex := "^(yes|no)$";
            sm_type := "select"; sm_multiple := false; sm_select := ["yes"; "no"] |})];
     pm_jobs := [{| jm_name := "my-job"; jm_file := "job.py"; jm_every := "day";
                    jm_reload := false |}];
     pm_pages := [] |}.

(** A reconciliation that does nothing, for concrete runs. *)
Definition no_reconcile (p : plugin_manifest) (r : Plugins_row) (f : up_frame) : up_frame := f.

(** Whether a plugin is stored under the id. *)
Definition has_plugin (id : string) (d : db) : bool :=
  existsb (fun r => String.eqb (pl_id r) id) (plugins d).

(** With [methods] set every value of the mapping is a dictionary. *)
Definition well_shaped (methods : bool) (config : gmap string cfg_value) : Prop :=
  methods = true -> forall k v, config !! k = Some v -> exists x m, v = WithMethod x m.

(** The way a turn of the loop of lines 563-643 ends, read off its three
    [break] statements. *)
Definition probe_flow (d : db) (service : string) (setting : Settings_row) (suffix : N) : flow :=
  if negb (String.eqb (set_context setting) "multisite") then Break
  else
    match first (ss_at service (set_id setting) suffix) (services_settings d) with
    | Some _ => if negb (set_multiple setting) then Break else Next
    | None =>
        if (0 <? suffix)%N then Break
        else if negb (set_multiple setting) then Break
        else Next
    end.

Definition has_global_value (d : db) (id : string) (suffix : N) : bool :=
  existsb (gv_at id suffix) (global_values d).

Definition has_service_setting (d : db) (service id : string) (suffix : N) : bool :=
  existsb (ss_at service id suffix) (services_settings d).

(** The stopping rule as the specification words it: the loop leaves at
    the first suffix that has neither a global value nor a service
    setting. *)
Definition first_gap (d : db) (service id : string) (n : N) : Prop :=
  has_global_value d id n = false
  /\ has_service_setting d service id n = false
  /\ forall m, (m < n)%N ->
       has_global_value d id m = true \/ has_service_setting d service id m = true.

Definition url_setting : Settings_row := mk_setting "REVERSE_PROXY_URL" EmptyString "multisite" true.

(** Three global values of a multiple setting, suffixes 0 to 2, and a
    service without any setting of its own. *)
Definition three_urls : db :=
  set_services ["app"]
    (set_global_values
       [{| gv_setting_id := "REVERSE_PROXY_URL"; gv_value := "/"; gv_suffix := 0;
           gv_method := "manual" |};
        {| gv_setting_id := "REVERSE_PROXY_URL"; gv_value := "/a"; gv_suffix := 1;
           gv_method := "manual" |};
        {| gv_setting_id := "REVERSE_PROXY_URL"; gv_value := "/b"; gv_suffix := 2;
           gv_method := "manual" |}]
       catalog).

(** A service that overrides suffixes 0 and 1. *)
Definition two_overrides : db :=
  set_services_settings
    [{| ss_service_id := "app"; ss_setting_id := "REVERSE_PROXY_URL"; ss_value := "/x";
        ss_suffix := 0; ss_method := "manual" |};
     {| ss_service_id := "app"; ss_setting_id := "REVERSE_PROXY_URL"; ss_value := "/y";
        ss_suffix := 1; ss_method := "manual" |}]
    (set_services ["app"] catalog).

(** The suffix at which a run of the loop left, if it ran to its end. *)
Definition left_at (r : option (result (gmap string cfg_value * N))) : option N :=
  match r with
  | Some (Ok (_, n)) => Some n
  | _ => None
  end.

(** The two states of a stored global value during a multisite call: not
    yet reached as a global key, and rewritten by the caller. *)
Definition untouched (st : db) (k : string) (sfx : N) (r : Global_values_row)
    (f : frame) : Prop :=
  ~ In k (f_global_values f)
  /\ first (gv_at k sfx) (global_values (f_db f)) = Some r
  /\ settings (f_db f) = settings st.

Definition overridden (k : string) (sfx : N) (value method : string) (f : frame) : Prop :=
  In k (f_global_values f)
  /\ exists r', first (gv_at k sfx) (global_values (f_db f)) = Some r'
                /\ gv_value r' = value /\ gv_method r' = method.

Definition manual_level : Global_values_row :=
  {| gv_setting_id := "LOG_LEVEL"; gv_value := "warn"; gv_suffix := 0;
     gv_method := "manual" |}.

(** The catalogue with a log level that the manual writer set. *)
Definition manual_store : db := set_global_values [manual_level] catalog.

Definition multisite_error_config : list (string * string) :=
  [("MULTISITE", "yes"); ("SERVER_NAME", "app"); ("LOG_LEVEL", "error")].

Definition single_site_error_config : list (string * string) :=
  [("MULTISITE", "no"); ("SERVER_NAME", "app"); ("LOG_LEVEL", "error")].

(** No key that the projection writes for a suffixed global value or for a
    service falls on the setting id [k]. *)
Definition no_collision (d : db) (k : string) : Prop :=
  forall service t n,
    In service (services d) -> In t (settings d) ->
    (service ++ "_" ++ set_id t ++ suffix_tail n)%string <> k
    /\ ((0 < n)%N -> (set_id t ++ suffix_tail n)%string <> k).

Definition level_setting : Settings_row := mk_setting "LOG_LEVEL" "info" "global" false.

(** The catalogue and one service. *)
Definition one_service : db := set_services ["app"] catalog.

Definition default_name_config : list (string * string) :=
  [("MULTISITE", "yes"); ("SERVER_NAME", "app"); ("app_SERVER_NAME", "www.example.com")].

(** No underscore among the characters. *)
Definition no_underscore (l : list ascii) : bool :=
  forallb (fun c => negb (Ascii.eqb c Py.underscore)) l.

(** The store of the scenario of the specification: one setting,
    [LOG_LEVEL], default ["info"]. *)
Definition scenario_store : db :=
  set_settings [mk_setting "LOG_LEVEL" "info" "multisite" false] empty_db.

Definition scenario_config : list (string * string) :=
  [("MULTISITE", "yes"); ("SERVER_NAME", "a b"); ("LOG_LEVEL", "warn")].

(** A service that overrides a setting, and a submission that names the
    service key before any global key. *)
Definition override_store : db :=
  set_services_settings
    [{| ss_service_id := "app"; ss_setting_id := "REVERSE_PROXY_URL"; ss_value := "/old";
        ss_suffix := 0; ss_method := "manual" |}]
    (set_services ["app"] catalog).

Definition service_key_first_config : list (string * string) :=
  [("app_REVERSE_PROXY_URL", "/new"); ("MULTISITE", "yes"); ("SERVER_NAME", "app")].

(** The value of a key in what get_config returned. *)
Definition projected (r : option (result (gmap string cfg_value))) (k : string)
    : option cfg_value :=
  match r with
  | Some (Ok c) => c !! k
  | _ => None
  end.

(** ** What a flush adds *)

(** The rows of each table among the pending objects, in order. *)
Definition puts_services (l : list entity) : list string :=
  List.flat_map (fun e => match e with E_Services id => [id] | _ => [] end) l.

Definition puts_global_values (l : list entity) : list Global_values_row :=
  List.flat_map (fun e => match e with E_Global_values r => [r] | _ => [] end) l.

Definition puts_services_settings (l : list entity) : list Services_settings_row :=
  List.flat_map (fun e => match e with E_Services_settings r => [r] | _ => [] end) l.

Definition puts_custom_configs (l : list entity) : list Custom_configs_row :=
  List.flat_map (fun e => match e with E_Custom_configs r => [r] | _ => [] end) l.

Definition puts_plugins (l : list entity) : list Plugins_row :=
  List.flat_map (fun e => match e with E_Plugins r => [r] | _ => [] end) l.

Definition puts_settings (l : list entity) : list Settings_row :=
  List.flat_map (fun e => match e with E_Settings r => [r] | _ => [] end) l.

Definition puts_selects (l : list entity) : list Selects_row :=
  List.flat_map (fun e => match e with E_Selects r => [r] | _ => [] end) l.

Definition puts_jobs (l : list entity) : list Jobs_row :=
  List.flat_map (fun e => match e with E_Jobs r => [r] | _ => [] end) l.

Definition puts_plugin_pages (l : list entity) : list Plugin_pages_row :=
  List.flat_map (fun e => match e with E_Plugin_pages r => [r] | _ => [] end) l.

(** The store with the pending objects appended to their tables. *)
Definition extend (l : list entity) (d : db) : db :=
  {| services := services d ++ puts_services l;
     settings := settings d ++ puts_settings l;
     global_values := global_values d ++ puts_global_values l;
     services_settings := services_settings d ++ puts_services_settings l;
     custom_configs := custom_configs d ++ puts_custom_configs l;
     plugins := plugins d ++ puts_plugins l;
     selects := selects d ++ puts_selects l;
     jobs := jobs d ++ puts_jobs l;
     plugin_pages := plugin_pages d ++ puts_plugin_pages l;
     metadata := metadata d |}.

(** ** The metadata row *)

(** [Database.set_autoconf_load] (lines 98-112). The tables are taken to
    exist; [metadata] is the row of id 1. *)
Definition set_autoconf_load (st : db) (value : bool) : outcome string :=
  match metadata st with
  | None => Returned "The metadata are not set yet, try again" st
  | Some m =>
      Returned EmptyString
        (set_metadata (Some {| is_initialized := is_initialized m;
                               first_config_saved := first_config_saved m;
                               autoconf_loaded := value;
                               version := version m |}) st)
  end.

(** [Database.is_autoconf_loaded] (lines 114-126):
    [metadata is not None and metadata.autoconf_loaded]. *)
Definition is_autoconf_loaded (st : db) : bool :=
  match metadata st with
  | Some m => autoconf_loaded m
  | None => false
  end.

(** [Database.is_first_config_saved] (lines 128-140). *)
Definition is_first_config_saved (st : db) : bool :=
  match metadata st with
  | Some m => first_config_saved m
  | None => false
  end.

(** [Database.is_initialized] (lines 142-154); the projection of the row
    has the name of the method, so the method is [db_is_initialized]
    here. *)
Definition db_is_initialized (st : db) : bool :=
  match metadata st with
  | Some m => is_initialized m
  | None => false
  end.

(** ** get_custom_configs *)

(** A dictionary of the list that get_custom_configs returns: the row
    without its checksum. *)
Record custom_config_view : Type := {
  v_service_id : option string;
  v_type : string;
  v_name : string;
  v_data : string;
  v_method : string
}.

Definition view_of (r : Custom_configs_row) : custom_config_view :=
  {| v_service_id := cc_service_id r; v_type := cc_type r; v_name := cc_name r;
     v_data := cc_data r; v_method := cc_method r |}.

(** [Database.get_custom_configs] (lines 647-669). *)
Definition get_custom_configs (st : db) : list custom_config_view :=
  List.map view_of (custom_configs st).

(** ** Ownership of the stored values *)

(** The pending objects of save_config: services, and values under the
    label of the caller. *)
Definition labelled (method : string) (l : list entity) : Prop :=
  forall e, In e l ->
    match e with
    | E_Services _ => True
    | E_Global_values r => gv_method r = method
    | E_Services_settings r => ss_method r = method
    | _ => False
    end.

(** Every stored value is a row of [st] under another label, or is under
    the label of the caller. *)
Definition rows_ok (st : db) (method : string) (d : db) : Prop :=
  (forall r, In r (global_values d) ->
     (In r (global_values st) /\ gv_method r <> method) \/ gv_method r = method)
  /\ (forall r, In r (services_settings d) ->
        (In r (services_settings st) /\ ss_method r <> method) \/ ss_method r = method).

(** The tables that save_config only reads or leaves alone. *)
Definition same_catalogue (d d' : db) : Prop :=
  settings d' = settings d /\ custom_configs d' = custom_configs d
  /\ plugins d' = plugins d /\ selects d' = selects d /\ jobs d' = jobs d
  /\ plugin_pages d' = plugin_pages d.

(** How a frame of save_config relates to an earlier one: the pending
    objects are extended and stay under the caller's label, services,
    metadata and catalogue are the same, rewritten rows take the caller's
    label, and nothing is rewritten unless the caller is ["autoconf"]. *)
Definition keeps (st : db) (method : string) (f f' : frame) : Prop :=
  (labelled method (f_to_put f) -> labelled method (f_to_put f'))
  /\ (exists tl, f_to_put f' = f_to_put f ++ tl)
  /\ services (f_db f') = services (f_db f)
  /\ metadata (f_db f') = metadata (f_db f)
  /\ same_catalogue (f_db f) (f_db f')
  /\ (rows_ok st method (f_db f) -> rows_ok st method (f_db f'))
  /\ (method <> "autoconf" -> f_db f' = f_db f).

(** A single-site submission with a key that names no setting. *)
Definition unknown_key_config : list (string * string) :=
  [("MULTISITE", "no"); ("SERVER_NAME", "app"); ("NO_SUCH_KEY_2", "x")].

(** ** The three parts of a turn of the suffix loop *)

(** Lines 564-588: the global value of the suffix, or the default at
    suffix 0. *)
Definition probe_global (d : db) (methods : bool) (setting : Settings_row) (suffix : N)
    (config : gmap string cfg_value) : gmap string cfg_value :=
  match first (gv_at (set_id setting) suffix) (global_values d) with
  | None =>
      if (suffix =? 0)%N
      then <[set_id setting := shaped methods (set_default setting) "default"]> config
      else config
  | Some global_value =>
      <[(set_id setting ++ suffix_tail suffix)%string :=
          shaped methods (gv_value global_value) (gv_method global_value)]> config
  end.

(** Lines 593-610: the key of the service, seeded from the global key. *)
Definition probe_seed (methods : bool) (service : string) (setting : Settings_row)
    (suffix : N) (config : gmap string cfg_value) : result (gmap string cfg_value) :=
  if (suffix =? 0)%N then
    v <- seeded methods config (set_id setting) ;;
    Ok (<[(service ++ "_" ++ set_id setting)%string := v]> config)
  else
    match config !! (set_id setting ++ "_" ++ Py.str suffix)%string with
    | Some _ =>
        v <- seeded methods config (set_id setting ++ "_" ++ Py.str suffix) ;;
        Ok (<[(service ++ "_" ++ set_id setting ++ "_" ++ Py.str suffix)%string := v]> config)
    | None => Ok config
    end.

(** Lines 612-636: the setting of the service, if it has one. *)
Definition probe_override (d : db) (methods : bool) (service : string)
    (setting : Settings_row) (suffix : N) (config : gmap string cfg_value)
    : gmap string cfg_value :=
  match first (ss_at service (set_id setting) suffix) (services_settings d) with
  | Some service_setting =>
      <[(service ++ "_" ++ set_id setting ++ suffix_tail suffix)%string :=
          shaped methods (ss_value service_setting) (ss_method service_setting)]> config
  | None => config
  end.

(** The value and the method that the projection shows under a setting id:
    those of the global value at suffix 0, or the default. *)
Definition global_entry (d : db) (methods : bool) (setting : Settings_row) : cfg_value :=
  match first (gv_at (set_id setting) 0) (global_values d) with
  | Some g => shaped methods (gv_value g) (gv_method g)
  | None => shaped methods (set_default setting) "default"
  end.

(** The value that a service key is seeded with. *)
Definition global_value_of (d : db) (setting : Settings_row) : string :=
  match first (gv_at (set_id setting) 0) (global_values d) with
  | Some g => gv_value g
  | None => set_default setting
  end.

(** A value of the projection without its method. *)
Definition bare (v : cfg_value) : cfg_value :=
  match v with
  | Plain x => Plain x
  | WithMethod x _ => Plain x
  end.

(** The key of a service for a setting is written by no other turn of the
    projection: no suffixed global key falls on it, and a service key falls
    on it only for the same service and setting id at suffix 0. *)
Definition sole_writer (d : db) (service : string) (t : Settings_row) : Prop :=
  forall service' t' n,
    In service' (services d) -> In t' (settings d) ->
    (set_id t' ++ suffix_tail n)%string <> (service ++ "_" ++ set_id t)%string
    /\ ((service' ++ "_" ++ set_id t' ++ suffix_tail n)%string
          = (service ++ "_" ++ set_id t)%string ->
        service' = service /\ set_id t' = set_id t /\ n = 0%N).

(** What the projection shows under the key of a service: the setting of
    the service with its method, or the global value (or default) with the
    method ["default"]. *)
Definition service_entry (d : db) (methods : bool) (service : string)
    (t : Settings_row) : cfg_value :=
  match first (ss_at service (set_id t) 0) (services_settings d) with
  | Some s => shaped methods (ss_value s) (ss_method s)
  | None => shaped methods (global_value_of d t) "default"
  end.

(** A store with a service, a global value and a setting of the service. *)
Definition layered_store : db :=
  set_services_settings
    [{| ss_service_id := "app"; ss_setting_id := "REVERSE_PROXY_URL"; ss_value := "/x";
        ss_suffix := 0; ss_method := "scheduler" |}]
    (set_global_values
       [{| gv_setting_id := "LOG_LEVEL"; gv_value := "warn"; gv_suffix := 0;
           gv_method := "manual" |}]
       (set_services ["app"] catalog)).

(** ** Custom configurations: keys, owners and warnings *)

(** The key of a custom configuration. *)
Definition cc_key (r : Custom_configs_row) : option string * string * string :=
  (cc_service_id r, cc_type r, cc_name r).

(** The rows that a writer does not own. *)
Definition others (method : string) (rows : list Custom_configs_row)
    : list Custom_configs_row :=
  delete_where (fun r => String.eqb (cc_method r) method) rows.

(** No stored row has the key of [r]. *)
Definition cc_free (rows : list Custom_configs_row) (r : Custom_configs_row) : bool :=
  negb (existsb (cc_at (cc_service_id r) (cc_type r) (cc_name r)) rows).

(** The entry names a service, and the store has no such service. *)
Definition unknown_service (d : db) (c : custom_config) : Prop :=
  exists s, cc_in_service c = Some s /\ s <> EmptyString /\ ~ In s (services d).

(** The message after the entries of [l], from the warnings of
    lines 479-486 alone. *)
Definition warned (d : db) (l : list custom_config) (message : string) : string :=
  List.fold_left (fun m c => service_warning d c m) l message.

(** Two stores with the four tables that get_config reads. *)
Definition same_config_tables (d d' : db) : Prop :=
  services d' = services d /\ settings d' = settings d
  /\ global_values d' = global_values d /\ services_settings d' = services_settings d.

(** A store with a custom configuration of the scheduler and one of the UI. *)
Definition snippets_store : db :=
  set_custom_configs
    [{| cc_service_id := None; cc_type := "http"; cc_name := "gzip"; cc_data := "gzip on;";
        cc_checksum := "gzip on;"; cc_method := "scheduler" |};
     {| cc_service_id := Some "app"; cc_type := "server_http"; cc_name := "old";
        cc_data := "deny all;"; cc_checksum := "deny all;"; cc_method := "ui" |}]
    one_service.

Definition ui_snippets : list custom_config :=
  [{| cc_in_value := "allow all;"; cc_in_service := Some "app"; cc_in_type := "server-http";
      cc_in_name := "open" |};
   {| cc_in_value := "return 404;"; cc_in_service := Some "ghost"; cc_in_type := "SERVER-HTTP";
      cc_in_name := "closed" |}].

(** ** Plugins: the row of a manifest *)

(** The [Plugins] row that line 1036 builds from a manifest, [external]
    set by line 776. *)
Definition plugin_row (p : plugin_manifest) : Plugins_row :=
  {| pl_id := pm_id p; pl_order := pm_order p; pl_name := pm_name p;
     pl_description := pm_description p; pl_version := pm_version p;
     pl_external := true |}.

(** The ids of the stored external plugins. *)
Definition external_ids (d : db) : list string :=
  List.map pl_id (List.filter pl_external (plugins d)).

(** A store with a built-in plugin and an external one, each with a job. *)
Definition old_external : Plugins_row :=
  {| pl_id := "oldplugin"; pl_order := 5%Z; pl_name := "Old"; pl_description := "ext";
     pl_version := "0.9"; pl_external := true |}.

Definition mixed_store : db :=
  set_jobs
    [{| job_plugin_id := "builtin1"; job_name := "core-job"; job_file := "core.py";
        job_every := "hour"; job_reload := true |};
     {| job_plugin_id := "oldplugin"; job_name := "old-job"; job_file := "old.py";
        job_every := "day"; job_reload := false |}]
    (set_plugins [builtin_plugin; old_external] catalog).

(** ** A submission read back *)

(** The items of a submission that address the setting key at suffix 0
    all carry the value [v]. *)
Definition sole_value (config : list (string * string)) (k v : string) : Prop :=
  forall K' v', In (K', v') config -> split_suffix K' = Ok (k, 0%N) -> v' = v.

(** No other writer holds a global value at the key and suffix 0. *)
Definition unclaimed (st : db) (method k : string) : Prop :=
  forall r, In r (global_values st) -> gv_at k 0 r = true -> gv_method r = method.

(** The label that get_config shows for a value submitted by [method]. *)
Definition shown_method (method v default : string) : string :=
  if String.eqb v default then "default" else method.

(** A single-site submission that sets the log level. *)
Definition level_config : list (string * string) :=
  [("MULTISITE", "no"); ("SERVER_NAME", "app"); ("LOG_LEVEL", "debug")].

(** A store with its metadata row. *)
Definition initialized_store : db :=
  set_metadata (Some {| is_initialized := true; first_config_saved := false;
                        autoconf_loaded := false; version := "1.5" |}) one_service.

(** The store that an operation leaves behind. *)
Definition store_after {A : Type} (o : outcome A) : db :=
  match o with
  | Returned _ d => d
  | Raised _ d => d
  end.

(** ** update_job_cache

    The operation reads and writes the table [Job_cache] alone; the rows
    carry the columns that lines 720-743 name. [now] is the reading of
    [datetime.now()]. *)

Record Job_cache_row : Type := {
  jc_job_name : string;
  jc_service_id : option string;
  jc_file_name : string;
  jc_data : string;
  jc_last_update : N;
  jc_checksum : option string
}.

(** [filter_by(job_name=..., service_id=..., file_name=...)] *)
Definition jc_at (job_name : string) (service_id : option string) (file_name : string)
    (r : Job_cache_row) : bool :=
  String.eqb (jc_job_name r) job_name && option_eqb (jc_service_id r) service_id
  && String.eqb (jc_file_name r) file_name.

(** Assignments to the attributes of the object that [first()] returned:
    the first row that matches is rewritten, and no other. *)
Fixpoint update_first {A : Type} (p : A -> bool) (f : A -> A) (rows : list A) : list A :=
  match rows with
  | [] => []
  | r :: rest => if p r then f r :: rest else r :: update_first p f rest
  end.

(** [Database.update_job_cache] (lines 709-749). A row is added only when
    none has the three columns of the filter, and the commit is taken to go
    through. *)
Definition update_job_cache (table : list Job_cache_row) (now : N)
    (job_name : string) (service_id : option string) (file_name data : string)
    (checksum : option string) : string * list Job_cache_row :=
  match first (jc_at job_name service_id file_name) table with
  | None =>
      (EmptyString,
       table ++ [{| jc_job_name := job_name; jc_service_id := service_id;
                    jc_file_name := file_name; jc_data := data;
                    jc_last_update := now; jc_checksum := checksum |}])
  | Some _ =>
      (EmptyString,
       update_first (jc_at job_name service_id file_name)
         (fun cache => {| jc_job_name := jc_job_name cache;
                          jc_service_id := jc_service_id cache;
                          jc_file_name := jc_file_name cache;
                          jc_data := data; jc_last_update := now;
                          jc_checksum := checksum |})
         table)
  end.

(** The three columns that the operation looks a row up by. *)
Definition jc_key (r : Job_cache_row) : string * option string * string :=
  (jc_job_name r, jc_service_id r, jc_file_name r).

(** ** The list of the global keys of a multisite call *)







(** * Results *)

(** ** The model on concrete inputs *)

Example startswith_prefix : Py.startswith "app_USE_GZIP" "app" = true.
Proof. reflexivity. Qed.

Example replace_all_occurrences : Py.replace "a_USE_a_X" "a_" EmptyString = "USE_X".
Proof. reflexivity. Qed.

Example split_keeps_empty_pieces : Py.split "a  b" Py.space = ["a"; EmptyString; "b"].
Proof. reflexivity. Qed.

Example split_of_empty : Py.split EmptyString Py.space = [EmptyString].
Proof. reflexivity. Qed.

Example int_drops_leading_zeros : Py.int "0042" = Some 42%N.
Proof. reflexivity. Qed.

Example search_suffix_cases :
  Py.search_suffix "URL_12" = true
  /\ Py.search_suffix "URL_" = false
  /\ Py.search_suffix "URL12" = false.
Proof. repeat split; reflexivity. Qed.

(** The scenario of the specification: two services and one global value
    are stored, and the projection shows the value under the setting id and
    under the key of each service. *)
Example save_config_scenario :
  exists st',
    save_config scenario_store scenario_config "manual" = Returned EmptyString st'
    /\ services st' = ["a"; "b"]
    /\ global_values st'
       = [{| gv_setting_id := "LOG_LEVEL"; gv_value := "warn"; gv_suffix := 0;
             gv_method := "manual" |}]
    /\ projected (get_config (enough_fuel st') st' false) "LOG_LEVEL" = Some (Plain "warn")
    /\ projected (get_config (enough_fuel st') st' false) "a_LOG_LEVEL" = Some (Plain "warn").
Proof.
  eexists. split; [vm_compute; reflexivity|].
  repeat split; vm_compute; reflexivity.
Qed.

(** Line 346 reads [global_value] in the service branch, where it may not
    have been assigned: the exception leaves save_config. *)
Example save_config_unbound_global_value :
  save_config override_store service_key_first_config "autoconf"
  = Raised (UnboundLocalError "global_value") override_store.
Proof. reflexivity. Qed.

(** ** Generic facts about the session *)

Lemma commit_failure_not_empty : commit_failure <> EmptyString.
Proof. discriminate. Qed.

Lemma add_entity_services (e : entity) (d d' : db) (s : string) :
  add_entity e d = Some d' -> In s (services d) -> In s (services d').
Proof.
  destruct e; simpl; intros H Hin;
    repeat match type of H with
           | (if ?c then _ else _) = _ => destruct c; [discriminate|]
           end;
    injection H as <-; simpl; auto.
  apply in_or_app; auto.
Qed.

Lemma add_all_services (l : list entity) (d d' : db) (s : string) :
  add_all l d = Some d' -> In s (services d) -> In s (services d').
Proof.
  revert d. induction l as [|e l IH]; simpl; intros d H Hin.
  - injection H as <-; assumption.
  - destruct (add_entity e d) as [d1|] eqn:He; [|discriminate].
    eapply IH; [eassumption|]. eapply add_entity_services; eassumption.
Qed.

Lemma existsb_eqb_In (s : string) (l : list string) :
  existsb (String.eqb s) l = true <-> In s l.
Proof.
  rewrite existsb_exists. split.
  - intros [x [Hx He]]. apply String.eqb_eq in He. subst. assumption.
  - intros H. exists s. split; [assumption | apply String.eqb_refl].
Qed.

Lemma add_all_stored_service (s : string) (l : list entity) (d d' : db) :
  add_all (E_Services s :: l) d = Some d' -> In s (services d').
Proof.
  simpl. destruct (existsb (String.eqb s) (services d)); [discriminate|].
  intros H. eapply add_all_services; [eassumption|].
  simpl. apply in_or_app. right. left. reflexivity.
Qed.

Lemma add_all_duplicate_service (s : string) (l : list entity) (d : db) :
  In s (services d) -> add_all (E_Services s :: l) d = None.
Proof.
  intros H. simpl. apply existsb_eqb_In in H. rewrite H. reflexivity.
Qed.

Lemma mark_first_config_saved_services (d : db) :
  services (mark_first_config_saved d) = services d.
Proof.
  unfold mark_first_config_saved. destruct (metadata d) as [m|]; [|reflexivity].
  destruct (negb (first_config_saved m)); reflexivity.
Qed.

(** The single-site loop never touches the services and only appends to
    the pending objects; whether it raises depends on the keys alone. *)
Lemma single_site_item_frame (method : string) (item : string * string) (f f' : frame) :
  single_site_item method item f = Ok f' ->
  services (f_db f') = services (f_db f)
  /\ exists tl, f_to_put f' = f_to_put f ++ tl.
Proof.
  unfold single_site_item, bind. destruct (split_suffix (fst item)) as [[key suffix]|e]; [|discriminate].
  simpl. destruct (match setting_default (f_db f) key with Some d => _ | None => false end).
  - intros H; injection H as <-. split; [reflexivity | exists []; symmetry; apply app_nil_r].
  - intros H; injection H as <-. unfold single_site_store.
    destruct (first (gv_at key suffix) (global_values (f_db f))) as [stored|].
    + destruct (String.eqb (gv_method stored) method); simpl;
        (split; [reflexivity | exists []; symmetry; apply app_nil_r]).
    + simpl. split; [reflexivity | eexists; reflexivity].
Qed.

Lemma single_site_loop_frame (method : string) (config : list (string * string)) (f f' : frame) :
  for_each (single_site_item method) config f = Ok f' ->
  services (f_db f') = services (f_db f)
  /\ exists tl, f_to_put f' = f_to_put f ++ tl.
Proof.
  revert f. induction config as [|item config IH]; simpl; intros f H.
  - injection H as <-. split; [reflexivity | exists []; symmetry; apply app_nil_r].
  - unfold bind in H. destruct (single_site_item method item f) as [f1|] eqn:H1; [|discriminate].
    apply single_site_item_frame in H1 as [Hs [tl1 Ht1]].
    apply IH in H as [Hs' [tl2 Ht2]]. split; [congruence|].
    exists (tl1 ++ tl2). rewrite Ht2, Ht1, app_assoc. reflexivity.
Qed.

Lemma single_site_loop_again (method : string) (config : list (string * string)) (f f' g : frame) :
  for_each (single_site_item method) config f = Ok f' ->
  exists g', for_each (single_site_item method) config g = Ok g'.
Proof.
  revert f g. induction config as [|item config IH]; simpl; intros f g H.
  - eexists; reflexivity.
  - unfold bind in *. destruct (single_site_item method item f) as [f1|] eqn:H1; [|discriminate].
    assert (exists g1, single_site_item method item g = Ok g1) as [g1 Hg1].
    { revert H1. unfold single_site_item, bind.
      destruct (split_suffix (fst item)) as [ks|e]; [|discriminate]. intros _.
      destruct (match setting_default (f_db g) (fst ks) with Some d => _ | None => false end);
        eexists; reflexivity. }
    rewrite Hg1. eapply IH. eassumption.
Qed.

(** ** Reading the suffix of a key *)

Lemma digit_parses (c : ascii) (d : Decimal.uint) :
  Py.is_digit c = true -> exists d', uint_of_char c (Some d) = Some d'.
Proof.
  destruct c as [[|] [|] [|] [|] [|] [|] [|] [|]]; intros H;
    try discriminate H; eexists; reflexivity.
Qed.

Lemma digit_not_space (c : ascii) : Py.is_digit c = true -> Py.is_space c = false.
Proof.
  unfold Py.is_digit, Py.is_space. intros H. apply andb_true_iff in H as [H1 H2].
  apply Nat.leb_le in H1. apply Nat.leb_le in H2.
  apply orb_false_iff. split.
  - apply andb_false_iff. right. apply Nat.leb_gt. lia.
  - apply Nat.eqb_neq. lia.
Qed.

Lemma digits_parse (ds : list ascii) :
  forallb Py.is_digit ds = true ->
  exists d, NilEmpty.uint_of_string (string_of_list_ascii ds) = Some d.
Proof.
  induction ds as [|c ds IH]; simpl; intros H; [eauto|].
  apply andb_true_iff in H as [Hc Hds]. destruct (IH Hds) as [d ->].
  apply digit_parses. assumption.
Qed.

Lemma strip_left_digits (ds : list ascii) :
  forallb Py.is_digit ds = true -> Py.strip_left ds = ds.
Proof.
  destruct ds as [|c ds]; simpl; [reflexivity|]. intros H.
  apply andb_true_iff in H as [Hc _]. rewrite (digit_not_space c Hc). reflexivity.
Qed.

Lemma forallb_rev {A : Type} (p : A -> bool) (l : list A) :
  forallb p l = true -> forallb p (List.rev l) = true.
Proof.
  rewrite !forallb_forall. intros H x Hx. apply H. apply in_rev. assumption.
Qed.

(** [int] reads a run of digits, with or without a newline after it. *)
Lemma int_digits (ds : list ascii) (tail : list ascii) :
  forallb Py.is_digit ds = true -> ds <> [] ->
  tail = [] \/ tail = [Py.newline] ->
  exists n, Py.int (string_of_list_ascii (ds ++ tail)) = Some n.
Proof.
  intros Hds Hne Htail.
  assert (Hstrip : Py.strip (string_of_list_ascii (ds ++ tail)) = string_of_list_ascii ds).
  { unfold Py.strip. rewrite list_ascii_of_string_of_list_ascii.
    assert (Hleft : Py.strip_left (ds ++ tail) = ds ++ tail).
    { destruct ds as [|c ds]; [contradiction|]. simpl in *.
      apply andb_true_iff in Hds as [Hc _]. rewrite (digit_not_space c Hc). reflexivity. }
    rewrite Hleft, rev_app_distr.
    assert (Hright : Py.strip_left (List.rev tail ++ List.rev ds) = List.rev ds).
    { destruct Htail as [->| ->]; simpl; apply strip_left_digits, forallb_rev; assumption. }
    rewrite Hright, rev_involutive. reflexivity. }
  unfold Py.int. rewrite Hstrip, list_ascii_of_string_of_list_ascii, Hds.
  destruct ds as [|c ds]; [contradiction|].
  destruct (digits_parse (c :: ds) Hds) as [d Hd].
  exists (N.of_uint d). simpl. simpl in Hd. rewrite Hd. reflexivity.
Qed.

Lemma ends_suffix_inv (r : list ascii) (seen : bool) :
  Py.ends_suffix r seen = true ->
  exists ds rest, r = ds ++ Py.underscore :: rest
                  /\ forallb Py.is_digit ds = true
                  /\ (seen = false -> ds <> []).
Proof.
  revert seen. induction r as [|c r IH]; simpl; intros seen H; [discriminate|].
  destruct (Py.is_digit c) eqn:Hc.
  - destruct (IH true H) as [ds [rest [-> [Hds _]]]].
    exists (c :: ds), rest. split; [reflexivity|]. split.
    + simpl. rewrite Hc. assumption.
    + intros _. discriminate.
  - apply andb_true_iff in H as [Hu ->]. apply Ascii.eqb_eq in Hu. subst c.
    exists [], r. split; [reflexivity|]. split; [reflexivity | discriminate].
Qed.

Lemma split_plain (b : list ascii) :
  no_underscore b = true ->
  Py.split (string_of_list_ascii b) Py.underscore = [string_of_list_ascii b].
Proof.
  induction b as [|c b IH]; simpl; intros H; [reflexivity|].
  apply andb_true_iff in H as [Hc Hb]. apply negb_true_iff in Hc. rewrite Hc, (IH Hb).
  reflexivity.
Qed.

Lemma split_last_piece (a b : list ascii) :
  no_underscore b = true ->
  exists pieces,
    Py.split (string_of_list_ascii (a ++ Py.underscore :: b)) Py.underscore
    = pieces ++ [string_of_list_ascii b] /\ pieces <> [].
Proof.
  intros Hb. induction a as [|c a IH]; simpl.
  - rewrite (split_plain b Hb). exists [EmptyString]. split; [reflexivity | discriminate].
  - destruct IH as [pieces [-> Hne]]. destruct (Ascii.eqb c Py.underscore).
    + exists (EmptyString :: pieces). split; [reflexivity | discriminate].
    + destruct pieces as [|p pieces]; [contradiction|]. simpl.
      exists (String c p :: pieces). split; [reflexivity | discriminate].
Qed.

Lemma last_item_app (pieces : list string) (x : string) :
  Py.last_item (pieces ++ [x]) = x.
Proof. unfold Py.last_item. apply last_last. Qed.

Lemma digits_no_underscore (ds : list ascii) :
  forallb Py.is_digit ds = true -> no_underscore ds = true.
Proof.
  unfold no_underscore. rewrite !forallb_forall. intros H c Hc. specialize (H c Hc).
  apply negb_true_iff. apply Ascii.eqb_neq. intros ->. discriminate H.
Qed.

(** When the pattern matches, the piece after the last underscore is the
    run of digits, followed by the newline if there is one. *)
Lemma search_suffix_digits (key : string) :
  Py.search_suffix key = true ->
  exists ds tail,
    Py.last_item (Py.split key Py.underscore) = string_of_list_ascii (ds ++ tail)
    /\ forallb Py.is_digit ds = true /\ ds <> []
    /\ (tail = [] \/ tail = [Py.newline]).
Proof.
  unfold Py.search_suffix. intros H.
  assert (Hkey : key = string_of_list_ascii (List.rev (List.rev (list_ascii_of_string key)))).
  { rewrite rev_involutive, string_of_list_ascii_of_string. reflexivity. }
  set (r := List.rev (list_ascii_of_string key)) in *.
  apply orb_true_iff in H as [H|H].
  - destruct (ends_suffix_inv r false H) as [ds [rest [Hr [Hds Hne]]]].
    exists (List.rev ds), []. rewrite Hkey, Hr, rev_app_distr. simpl.
    rewrite <- app_assoc. simpl. rewrite app_nil_r.
    destruct (split_last_piece (List.rev rest) (List.rev ds)) as [pieces [-> _]].
    { apply digits_no_underscore, forallb_rev. assumption. }
    rewrite last_item_app. split; [reflexivity|]. split; [apply forallb_rev; assumption|].
    split; [|left; reflexivity].
    intros Hnil. apply (f_equal (@List.rev ascii)) in Hnil. rewrite rev_involutive in Hnil.
    apply Hne; [reflexivity | assumption].
  - destruct r as [|c r'] eqn:Hr0; [discriminate|].
    apply andb_true_iff in H as [Hc H]. apply Ascii.eqb_eq in Hc. subst c.
    destruct (ends_suffix_inv r' false H) as [ds [rest [Hr [Hds Hne]]]].
    exists (List.rev ds), [Py.newline]. rewrite Hkey. simpl. rewrite Hr, rev_app_distr. simpl.
    rewrite <- !app_assoc. simpl.
    destruct (split_last_piece (List.rev rest) (List.rev ds ++ [Py.newline]))
      as [pieces [-> _]].
    { unfold no_underscore. rewrite forallb_app. simpl.
      fold (no_underscore (List.rev ds)).
      rewrite (digits_no_underscore _ (forallb_rev _ _ Hds)). reflexivity. }
    rewrite last_item_app. split; [reflexivity|]. split; [apply forallb_rev; assumption|].
    split; [|right; reflexivity].
    intros Hnil. apply (f_equal (@List.rev ascii)) in Hnil. rewrite rev_involutive in Hnil.
    apply Hne; [reflexivity | assumption].
Qed.

(** Lines 293-295 never raise: [int] is applied to what the pattern
    matched. *)
Lemma split_suffix_never_raises (key : string) :
  exists k n, split_suffix key = Ok (k, n).
Proof.
  unfold split_suffix. destruct (Py.search_suffix key) eqn:Hs; [|eauto].
  destruct (search_suffix_digits key Hs) as [ds [tail [-> [Hds [Hne Htail]]]]].
  destruct (int_digits ds tail Hds Hne Htail) as [n ->]. eauto.
Qed.

Lemma int_of_digits (ds : list ascii) :
  forallb Py.is_digit ds = true -> ds <> [] ->
  Py.int (string_of_list_ascii ds)
  = N.of_uint <$> NilZero.uint_of_string (string_of_list_ascii ds).
Proof.
  intros Hds Hne. unfold Py.int.
  assert (Hstrip : Py.strip (string_of_list_ascii ds) = string_of_list_ascii ds).
  { unfold Py.strip. rewrite list_ascii_of_string_of_list_ascii.
    rewrite (strip_left_digits ds Hds), (strip_left_digits _ (forallb_rev _ _ Hds)).
    rewrite rev_involutive. reflexivity. }
  rewrite Hstrip, list_ascii_of_string_of_list_ascii, Hds.
  destruct ds as [|c ds]; [contradiction | reflexivity].
Qed.

Lemma uint_digits (d : Decimal.uint) :
  forallb Py.is_digit (list_ascii_of_string (NilEmpty.string_of_uint d)) = true.
Proof. induction d; simpl; auto. Qed.

Lemma to_uint_not_nil (n : N) : N.to_uint n <> Decimal.Nil.
Proof.
  destruct n as [|p]; [discriminate|]. apply DecimalPos.Unsigned.to_uint_nonnil.
Qed.

Lemma str_unfold (n : N) : Py.str n = NilEmpty.string_of_uint (N.to_uint n).
Proof.
  unfold Py.str, NilZero.string_of_uint. pose proof (to_uint_not_nil n) as H.
  destruct (N.to_uint n); [contradiction|..]; reflexivity.
Qed.

Lemma str_digits (n : N) :
  forallb Py.is_digit (list_ascii_of_string (Py.str n)) = true
  /\ list_ascii_of_string (Py.str n) <> [].
Proof.
  rewrite str_unfold. split; [apply uint_digits|].
  pose proof (to_uint_not_nil n) as H.
  destruct (N.to_uint n); [contradiction|..]; discriminate.
Qed.

(** [int(str(n))] is [n]. *)
Lemma int_str (n : N) : Py.int (Py.str n) = Some n.
Proof.
  destruct (str_digits n) as [Hds Hne].
  rewrite <- (string_of_list_ascii_of_string (Py.str n)).
  rewrite (int_of_digits _ Hds Hne), string_of_list_ascii_of_string.
  unfold Py.str. rewrite NilZero.usu by apply to_uint_not_nil.
  simpl. rewrite DecimalN.Unsigned.of_to. reflexivity.
Qed.

Lemma ends_suffix_digits (ds rest : list ascii) (seen : bool) :
  forallb Py.is_digit ds = true -> (seen = true \/ ds <> []) ->
  Py.ends_suffix (ds ++ Py.underscore :: rest) seen = true.
Proof.
  revert seen. induction ds as [|c ds IH]; simpl; intros seen Hds Hseen.
  - destruct Hseen as [->|H]; [reflexivity | contradiction].
  - apply andb_true_iff in Hds as [Hc Hds]. rewrite Hc. apply IH; auto.
Qed.

Lemma list_ascii_app (a b : string) :
  list_ascii_of_string (a ++ b) = list_ascii_of_string a ++ list_ascii_of_string b.
Proof.
  induction a as [|c a IH]; [reflexivity|].
  change (c :: list_ascii_of_string (a ++ b) = c :: (list_ascii_of_string a ++ list_ascii_of_string b)).
  rewrite IH. reflexivity.
Qed.

Lemma length_append (a b : string) :
  String.length (a ++ b) = (String.length a + String.length b)%nat.
Proof.
  induction a as [|c a IH]; [reflexivity|].
  change (S (String.length (a ++ b)) = S (String.length a + String.length b)).
  rewrite IH. reflexivity.
Qed.

Lemma substring_prefix (a b : string) :
  String.substring 0 (String.length a) (a ++ b) = a.
Proof.
  induction a as [|c a IH].
  - destruct b; reflexivity.
  - change (String c (String.substring 0 (String.length a) (a ++ b)) = String c a).
    rewrite IH. reflexivity.
Qed.

(** On a key that ends in an underscore and a suffix in decimal notation,
    as get_config writes them, the setting key and the suffix are read
    back. *)
Lemma split_suffix_canonical (base : string) (n : N) :
  split_suffix (base ++ "_" ++ Py.str n) = Ok (base, n).
Proof.
  destruct (str_digits n) as [Hds Hne].
  assert (Hchars : list_ascii_of_string (base ++ "_" ++ Py.str n)
                   = list_ascii_of_string base
                     ++ Py.underscore :: list_ascii_of_string (Py.str n)).
  { rewrite list_ascii_app. reflexivity. }
  unfold split_suffix.
  assert (Hsearch : Py.search_suffix (base ++ "_" ++ Py.str n) = true).
  { unfold Py.search_suffix. rewrite Hchars, rev_app_distr. simpl.
    rewrite <- app_assoc. simpl. rewrite ends_suffix_digits; [reflexivity | |].
    - apply forallb_rev. assumption.
    - right. intros Hnil. apply (f_equal (@List.rev ascii)) in Hnil.
      rewrite rev_involutive in Hnil. contradiction. }
  rewrite Hsearch.
  assert (Hlast : Py.last_item (Py.split (base ++ "_" ++ Py.str n) Py.underscore) = Py.str n).
  { rewrite <- (string_of_list_ascii_of_string (base ++ "_" ++ Py.str n)), Hchars.
    destruct (split_last_piece (list_ascii_of_string base) (list_ascii_of_string (Py.str n)))
      as [pieces [-> _]]; [apply digits_no_underscore; assumption|].
    rewrite last_item_app. apply string_of_list_ascii_of_string. }
  rewrite Hlast, int_str. unfold Py.drop_end.
  rewrite length_append.
  change (String.length ("_" ++ Py.str n)) with (S (String.length (Py.str n))).
  replace (String.length base + S (String.length (Py.str n)) - (String.length (Py.str n) + 1))%nat
    with (String.length base) by lia.
  rewrite substring_prefix. reflexivity.
Qed.

(** ** Modes of save_config *)

Lemma dict_get_nonempty (config : list (string * string)) (k v : string) :
  dict_get config k = Some v -> exists item rest, config = item :: rest.
Proof. destruct config as [|item rest]; [discriminate | eauto]. Qed.

Lemma save_config_body_single_site (config : list (string * string)) (method : string)
    (f : frame) (multisite : string) :
  dict_get config "MULTISITE" = Some multisite -> multisite <> "yes" ->
  save_config_body config method f =
    (server_names <- getitem config "SERVER_NAME" ;;
     for_each (single_site_item method) config
       (put (E_Services (List.hd EmptyString (Py.split server_names Py.space))) f)).
Proof.
  intros Hm Hne. destruct (dict_get_nonempty _ _ _ Hm) as [item [rest ->]].
  unfold save_config_body, getitem at 1. rewrite Hm. simpl bind.
  apply String.eqb_neq in Hne. rewrite Hne. reflexivity.
Qed.

Lemma save_config_body_multisite (config : list (string * string)) (method : string)
    (f : frame) (names : string) :
  dict_get config "MULTISITE" = Some "yes" ->
  dict_get config "SERVER_NAME" = Some names ->
  save_config_body config method f =
    for_each (multisite_server config method) (Py.split names Py.space) f.
Proof.
  intros Hm Hs. destruct (dict_get_nonempty _ _ _ Hm) as [item [rest ->]].
  unfold save_config_body, getitem. rewrite Hm. simpl bind. rewrite Hs. reflexivity.
Qed.

(** ** C1: repeating save_config in single-site mode *)

(** Whatever the store holds, the single-site path queues the first
    server name as a new service. *)
Lemma single_site_queues_service (config : list (string * string))
    (method multisite names : string) (f f' : frame) :
  dict_get config "MULTISITE" = Some multisite -> multisite <> "yes" ->
  dict_get config "SERVER_NAME" = Some names ->
  save_config_body config method f = Ok f' ->
  In (E_Services (List.hd EmptyString (Py.split names Py.space))) (f_to_put f').
Proof.
  intros Hm Hne Hs. rewrite (save_config_body_single_site _ _ _ _ Hm Hne).
  unfold getitem. rewrite Hs. simpl bind. intros H.
  apply single_site_loop_frame in H as [_ [tl ->]]. simpl.
  apply in_or_app. left. apply in_or_app. right. left. reflexivity.
Qed.

(** C1 (fails on the code). In single-site mode ([MULTISITE] other than
    ["yes"]) line 399 queues a [Services] row for the first server name
    without looking for a stored one, so a call that succeeded cannot be
    repeated: whatever the store and the submission, the second call with
    the same arguments ends in the commit handler, returns the text of the
    integrity error and leaves the store as the first call left it. *)
Theorem save_config_single_site_retry_fails (st st1 : db)
    (config : list (string * string)) (method multisite : string) :
  dict_get config "MULTISITE" = Some multisite ->
  multisite <> "yes" ->
  save_config st config method = Returned EmptyString st1 ->
  save_config st1 config method = Returned commit_failure st1.
Proof.
  intros Hm Hne. unfold save_config.
  rewrite !(save_config_body_single_site _ _ _ _ Hm Hne).
  unfold getitem. destruct (dict_get config "SERVER_NAME") as [names|]; simpl bind; [|discriminate].
  set (primary := List.hd EmptyString (Py.split names Py.space)).
  destruct (for_each _ config (put (E_Services primary) (start (delete_own method st))))
    as [f|e] eqn:Hf; [|discriminate].
  destruct (add_all (f_to_put f) (mark_first_config_saved (f_db f))) as [st'|] eqn:Hc;
    [|intros H; injection H as H _; discriminate].
  intros H; injection H as <-.
  destruct (single_site_loop_frame _ _ _ _ Hf) as [_ [tl Htl]]. simpl in Htl.
  rewrite Htl in Hc. apply add_all_stored_service in Hc.
  destruct (single_site_loop_again _ _ _ _
              (put (E_Services primary) (start (delete_own method st'))) Hf) as [g Hg].
  rewrite Hg. destruct (single_site_loop_frame _ _ _ _ Hg) as [Hs [tl' Htl']].
  simpl in Htl', Hs. rewrite Htl'.
  rewrite add_all_duplicate_service; [reflexivity|].
  rewrite mark_first_config_saved_services, Hs. assumption.
Qed.

Lemma save_config_single_site_retry_fails_witness :
  save_config catalog single_site_config "manual"
    = Returned EmptyString (set_services ["www.example.com"] catalog)
  /\ save_config (set_services ["www.example.com"] catalog) single_site_config "manual"
     = Returned commit_failure (set_services ["www.example.com"] catalog).
Proof.
  assert (H : save_config catalog single_site_config "manual"
              = Returned EmptyString (set_services ["www.example.com"] catalog))
    by (vm_compute; reflexivity).
  split; [exact H|].
  apply (save_config_single_site_retry_fails catalog _ single_site_config "manual" "no");
    [reflexivity | discriminate | exact H].
Defined.

(** ** C7: what save_config hands back *)






(** ** C8: the suffix of a submitted key *)

(** C8 (fails on the code). The key is cut by the length of [str(suffix)],
    the suffix printed again without its leading zeros, not by the length
    of the digits that were read: for ["REVERSE_PROXY_URL_01"] the suffix
    is 1 and the setting key keeps the underscore and a digit less than it
    should lose. *)
Theorem split_suffix_leading_zero :
  split_suffix "REVERSE_PROXY_URL_01" = Ok ("REVERSE_PROXY_URL_", 1%N)
  /\ split_suffix "REVERSE_PROXY_URL_007" = Ok ("REVERSE_PROXY_URL_0", 7%N)
  /\ split_suffix "REVERSE_PROXY_URL_1" = Ok ("REVERSE_PROXY_URL", 1%N)
  /\ split_suffix "REVERSE_PROXY_URL" = Ok ("REVERSE_PROXY_URL", 0%N).
Proof. repeat split; reflexivity. Qed.

(** ** C10: no service, no projection *)

(** C10. When the store holds no [Services] row the loop of line 551 has
    nothing to go through and get_config returns the empty mapping,
    whatever settings and values are stored. *)
Theorem get_config_no_services (fuel : nat) (st : db) (methods : bool) :
  services st = [] -> get_config fuel st methods = Some (Ok ∅).
Proof. intros H. unfold get_config. rewrite H. reflexivity. Qed.

Lemma get_config_no_services_witness :
  services catalog = [] /\ get_config 0 catalog true = Some (Ok ∅).
Proof.
  split; [reflexivity | apply (get_config_no_services 0 catalog true); reflexivity].
Defined.

(** ** C9: a custom configuration that is already stored *)

Lemma first_update_where {A : Type} (p : A -> bool) (g : A -> A) (l : list A) :
  (forall r, p (g r) = p r) ->
  first p (update_where p g l) = g <$> first p l.
Proof.
  intros Hg. unfold first, update_where. induction l as [|x l IH]; simpl; [reflexivity|].
  destruct (p x) eqn:Hx.
  - rewrite Hg, Hx. reflexivity.
  - rewrite Hx. exact IH.
Qed.

(** C9. When the row looked up by (service id, type, name) exists, nothing
    is queued for insertion; the stored row takes the new content and
    checksum exactly when the new checksum differs from the stored one and
    the caller is the stored owner or ["autoconf"] (the latter also takes
    the row over); in every other case the store is left as it was. *)
Theorem custom_config_item_existing (sha256_hexdigest : string -> string)
    (method : string) (c : custom_config) (f : cc_frame) (r : Custom_configs_row) :
  let config := build_config sha256_hexdigest method c in
  let at_key := cc_at (cc_service_id config) (cc_type config) (cc_name config) in
  let f' := custom_config_item sha256_hexdigest method c f in
  first at_key (custom_configs (c_db f)) = Some r ->
  c_to_put f' = c_to_put f
  /\ (cc_checksum config <> cc_checksum r
      /\ (method = cc_method r \/ method = "autoconf") ->
      exists r', first at_key (custom_configs (c_db f')) = Some r'
                 /\ cc_data r' = cc_data config
                 /\ cc_checksum r' = cc_checksum config
                 /\ cc_method r' = (if String.eqb method "autoconf" then "autoconf"
                                    else cc_method r))
  /\ (~ (cc_checksum config <> cc_checksum r
         /\ (method = cc_method r \/ method = "autoconf")) ->
      c_db f' = c_db f).
Proof.
  intros config at_key f' Hr. subst f'. unfold custom_config_item.
  fold config. fold at_key. rewrite Hr.
  destruct (String.eqb (cc_checksum config) (cc_checksum r)) eqn:Hsum; simpl negb.
  - apply String.eqb_eq in Hsum. simpl. split; [reflexivity|]. split.
    + intros [Hne _]. contradiction.
    + reflexivity.
  - apply String.eqb_neq in Hsum. simpl andb.
    destruct (String.eqb method (cc_method r) || String.eqb method "autoconf") eqn:Hown.
    + simpl. split; [reflexivity|]. split.
      * intros _. exists (overwrite method config r). split; [|repeat split].
        rewrite first_update_where; [rewrite Hr; reflexivity|].
        intros x. reflexivity.
      * intros Hn. exfalso. apply Hn. split; [assumption|].
        apply orb_true_iff in Hown as [H|H]; apply String.eqb_eq in H; auto.
    + simpl. split; [reflexivity|]. split.
      * intros [_ [H|H]]; apply String.eqb_eq in H; rewrite H in Hown.
        -- discriminate Hown.
        -- rewrite orb_true_r in Hown. discriminate Hown.
      * reflexivity.
Qed.

Lemma custom_config_item_existing_witness :
  first (cc_at None "server_http" "hello") (custom_configs (c_db snippet_frame))
    = Some stored_snippet
  /\ custom_configs (c_db (custom_config_item plain_digest "scheduler" submitted_snippet
                             snippet_frame)) = [stored_snippet]
  /\ exists r', first (cc_at None "server_http" "hello")
                  (custom_configs (c_db (custom_config_item plain_digest "autoconf"
                                           submitted_snippet snippet_frame))) = Some r'
                /\ cc_data r' = "new" /\ cc_checksum r' = "new" /\ cc_method r' = "autoconf".
Proof.
  split; [reflexivity|]. split.
  - destruct (custom_config_item_existing plain_digest "scheduler" submitted_snippet
                snippet_frame stored_snippet eq_refl) as [_ [_ H]].
    rewrite H; [reflexivity|].
    intros [_ [H1|H1]]; discriminate H1.
  - destruct (custom_config_item_existing plain_digest "autoconf" submitted_snippet
                snippet_frame stored_snippet eq_refl) as [_ [H _]].
    destruct H as [r' Hr'].
    + split; [discriminate | right; reflexivity].
    + exists r'. exact Hr'.
Defined.

(** ** C2 and C5: update_external_plugins *)

Section Plugins.

Variable sha256_hexdigest : string -> string.
Variable reconcile : plugin_manifest -> Plugins_row -> up_frame -> up_frame.

(** With [db_ids] empty every manifest takes the insertion path. *)
Lemma plugin_item_inserts (p : plugin_manifest) (f : up_frame) :
  plugin_item sha256_hexdigest reconcile p f =
  {| u_db := u_db f; u_to_put := u_to_put f ++ plugin_entities sha256_hexdigest p;
     u_warnings := u_warnings f |}.
Proof. reflexivity. Qed.

Lemma plugin_items_insert (l : list plugin_manifest) (f : up_frame) :
  List.fold_left (fun f p => plugin_item sha256_hexdigest reconcile p f) l f =
  {| u_db := u_db f;
     u_to_put := u_to_put f ++ List.flat_map (plugin_entities sha256_hexdigest) l;
     u_warnings := u_warnings f |}.
Proof.
  revert f. induction l as [|p l IH]; intros f; simpl.
  - rewrite app_nil_r. destruct f; reflexivity.
  - rewrite IH, plugin_item_inserts. simpl. rewrite <- app_assoc. reflexivity.
Qed.

Lemma has_plugin_app (id : string) (l : list Plugins_row) (r : Plugins_row) :
  existsb (fun x => String.eqb (pl_id x) id) (l ++ [r])
  = existsb (fun x => String.eqb (pl_id x) id) l || String.eqb (pl_id r) id.
Proof. rewrite existsb_app. simpl. rewrite orb_false_r. reflexivity. Qed.

Lemma add_entity_has_plugin (e : entity) (d d' : db) (id : string) :
  add_entity e d = Some d' -> has_plugin id d = true -> has_plugin id d' = true.
Proof.
  unfold has_plugin. destruct e; simpl; intros H Hin;
    repeat match type of H with
           | (if ?c then _ else _) = _ => destruct c; [discriminate|]
           end;
    injection H as <-; simpl; auto.
  rewrite has_plugin_app, Hin. reflexivity.
Qed.

Lemma add_all_has_plugin (l : list entity) (d d' : db) (id : string) :
  add_all l d = Some d' -> has_plugin id d = true -> has_plugin id d' = true.
Proof.
  revert d. induction l as [|e l IH]; simpl; intros d H Hin.
  - injection H as <-; assumption.
  - destruct (add_entity e d) as [d1|] eqn:He; [|discriminate].
    eapply IH; [eassumption|]. eapply add_entity_has_plugin; eassumption.
Qed.

(** A flush that goes through stores each queued plugin under an id that
    was free. *)
Lemma add_all_plugin (l : list entity) (d d' : db) (r : Plugins_row) :
  add_all l d = Some d' -> In (E_Plugins r) l ->
  has_plugin (pl_id r) d = false /\ has_plugin (pl_id r) d' = true.
Proof.
  revert d. induction l as [|e l IH]; simpl; intros d H Hin; [contradiction|].
  destruct (add_entity e d) as [d1|] eqn:He; [|discriminate].
  destruct Hin as [->|Hin].
  - simpl in He.
    destruct (existsb (fun p => String.eqb (pl_id p) (pl_id r)) (plugins d)) eqn:Hex;
      [discriminate|].
    injection He as <-. split.
    + exact Hex.
    + eapply add_all_has_plugin; [eassumption|].
      unfold has_plugin. simpl. rewrite has_plugin_app, String.eqb_refl, orb_true_r.
      reflexivity.
  - destruct (IH _ H Hin) as [Hfree Hthen]. split; [|assumption].
    destruct (has_plugin (pl_id r) d) eqn:Hd; [|reflexivity].
    rewrite (add_entity_has_plugin _ _ _ _ He Hd) in Hfree. discriminate.
Qed.

Lemma add_all_taken_plugin (l : list entity) (d : db) (r : Plugins_row) :
  In (E_Plugins r) l -> has_plugin (pl_id r) d = true -> add_all l d = None.
Proof.
  intros Hin Hhas. destruct (add_all l d) as [d'|] eqn:H; [|reflexivity].
  destruct (add_all_plugin _ _ _ _ H Hin) as [Hfree _]. congruence.
Qed.

Lemma plugin_entities_head (p : plugin_manifest) :
  exists r, In (E_Plugins r) (plugin_entities sha256_hexdigest p) /\ pl_id r = pm_id p.
Proof. eexists. split; [left; reflexivity | reflexivity]. Qed.

Lemma queued_plugin (l : list plugin_manifest) (p : plugin_manifest) :
  In p l ->
  exists r, In (E_Plugins r) (List.flat_map (plugin_entities sha256_hexdigest) l)
            /\ pl_id r = pm_id p.
Proof.
  intros Hin. destruct (plugin_entities_head p) as [r [Hr Hid]].
  exists r. split; [|assumption]. apply in_flat_map. exists p. split; assumption.
Qed.

(** The plugins named by the submitted list survive the deletion of
    lines 764-770. *)
Lemma named_plugin_kept (st : db) (l : list plugin_manifest) (id : string) :
  In id (List.map pm_id l) -> has_plugin id st = true ->
  has_plugin id (delete_plugins (missing_ids st l) st) = true.
Proof.
  intros Hid Hhas. unfold has_plugin in *. simpl.
  apply existsb_exists in Hhas as [x [Hx Hxid]]. apply String.eqb_eq in Hxid.
  apply existsb_exists. exists x. split; [|apply String.eqb_eq; assumption].
  unfold delete_where. apply filter_In. split; [assumption|].
  apply negb_true_iff. destruct (existsb (String.eqb (pl_id x)) (missing_ids st l)) eqn:Hm;
    [|reflexivity].
  apply existsb_eqb_In in Hm. unfold missing_ids in Hm. apply filter_In in Hm as [_ Hm].
  apply negb_true_iff in Hm. rewrite Hxid in Hm.
  apply existsb_eqb_In in Hid. congruence.
Qed.

Lemma update_external_plugins_clash (st : db) (l : list plugin_manifest) (p : plugin_manifest) :
  In p l -> has_plugin (pm_id p) st = true ->
  update_external_plugins sha256_hexdigest reconcile st l = (Returned commit_failure st, []).
Proof.
  intros Hin Hhas. unfold update_external_plugins. rewrite plugin_items_insert. simpl.
  destruct (queued_plugin l p Hin) as [r [Hr Hid]].
  rewrite (add_all_taken_plugin _ _ r Hr); [reflexivity|].
  rewrite Hid. apply named_plugin_kept; [|assumption].
  apply in_map. assumption.
Qed.

End Plugins.

(** C2 (fails on the code). The test of line 778 is made against [db_ids],
    which is empty, so the guard of lines 782-786 is never reached: a
    manifest whose id belongs to a stored non-external plugin is queued for
    insertion like a new plugin, the commit fails on the plugin id and
    the operation returns the text of the failure, without any warning,
    whatever else the list holds. *)
Theorem update_external_plugins_builtin_id (sha256_hexdigest : string -> string)
    (reconcile : plugin_manifest -> Plugins_row -> up_frame -> up_frame)
    (st : db) (l : list plugin_manifest) (p : plugin_manifest) (r : Plugins_row) :
  In p l ->
  first (fun x => String.eqb (pl_id x) (pm_id p)) (plugins st) = Some r ->
  pl_external r = false ->
  update_external_plugins sha256_hexdigest reconcile st l = (Returned commit_failure st, []).
Proof.
  intros Hin Hr _. apply update_external_plugins_clash with (p := p); [assumption|].
  unfold has_plugin. apply existsb_exists. unfold first in Hr.
  apply find_some in Hr. exists r. exact Hr.
Qed.

Lemma update_external_plugins_builtin_id_witness :
  update_external_plugins plain_digest no_reconcile builtin_store [claiming_manifest]
  = (Returned commit_failure builtin_store, []).
Proof.
  apply (update_external_plugins_builtin_id plain_digest no_reconcile builtin_store
           [claiming_manifest] claiming_manifest builtin_plugin);
    [left; reflexivity | reflexivity | reflexivity].
Defined.

(** C5 (fails on the code). For the same reason a synchronisation that
    succeeded cannot be repeated: every manifest of a non-empty list is
    queued for insertion again, its id is now stored, and the second run
    returns the text of the failed commit. That holds for the list as it
    was submitted and for the list as the first run left it, with
    [settings], [jobs] and [pages] popped from its manifests. *)
Theorem update_external_plugins_retry_fails (sha256_hexdigest : string -> string)
    (reconcile : plugin_manifest -> Plugins_row -> up_frame -> up_frame)
    (st st1 : db) (l : list plugin_manifest) (warnings : list string) :
  l <> [] ->
  update_external_plugins sha256_hexdigest reconcile st l = (Returned EmptyString st1, warnings) ->
  update_external_plugins sha256_hexdigest reconcile st1 l = (Returned commit_failure st1, [])
  /\ update_external_plugins sha256_hexdigest reconcile st1 (List.map popped l)
     = (Returned commit_failure st1, []).
Proof.
  intros Hne. destruct l as [|p rest]; [contradiction|].
  unfold update_external_plugins at 1. rewrite plugin_items_insert.
  cbv beta iota delta [u_db u_to_put u_warnings]. rewrite app_nil_l.
  destruct (add_all _ _) as [st'|] eqn:Hc; [|intros H; injection H as H _; discriminate].
  intros H; injection H as <- _.
  destruct (queued_plugin sha256_hexdigest (p :: rest) p (or_introl eq_refl)) as [r [Hr Hid]].
  destruct (add_all_plugin _ _ _ _ Hc Hr) as [_ Hhas]. rewrite Hid in Hhas.
  split.
  - apply update_external_plugins_clash with (p := p); [left; reflexivity | assumption].
  - apply update_external_plugins_clash with (p := popped p); [left; reflexivity | assumption].
Qed.

Lemma update_external_plugins_retry_fails_witness :
  exists st1,
    update_external_plugins plain_digest no_reconcile catalog [external_manifest]
      = (Returned EmptyString st1, [])
    /\ update_external_plugins plain_digest no_reconcile st1 [external_manifest]
       = (Returned commit_failure st1, []).
Proof.
  eexists. split; [vm_compute; reflexivity|].
  apply (update_external_plugins_retry_fails plain_digest no_reconcile catalog _
           [external_manifest] []); [discriminate | vm_compute; reflexivity].
Defined.

(** ** C4: the suffix loop of get_config *)

Lemma append_empty_r (s : string) : (s ++ EmptyString)%string = s.
Proof.
  induction s as [|c s IH]; [reflexivity|].
  change (String c (s ++ EmptyString) = String c s). rewrite IH. reflexivity.
Qed.

Lemma suffix_tail_pos (n : N) : (0 <? n)%N = true -> suffix_tail n = ("_" ++ Py.str n)%string.
Proof. intros H. unfold suffix_tail. rewrite H. reflexivity. Qed.

Lemma well_shaped_empty (methods : bool) : well_shaped methods ∅.
Proof. intros _ k v H. rewrite lookup_empty in H. discriminate. Qed.

Lemma well_shaped_insert (methods : bool) (c : gmap string cfg_value) (k : string)
    (v : cfg_value) :
  well_shaped methods c ->
  (methods = true -> exists x m, v = WithMethod x m) ->
  well_shaped methods (<[k := v]> c).
Proof.
  intros Hc Hv Hm k' v' H. destruct (decide (k = k')) as [->|Hne].
  - rewrite lookup_insert_eq in H. injection H as <-. auto.
  - rewrite lookup_insert_ne in H by assumption. eapply Hc; eassumption.
Qed.

Lemma shaped_well (methods : bool) (value method : string) :
  methods = true -> exists x m, shaped methods value method = WithMethod x m.
Proof. intros ->. simpl. eauto. Qed.

Lemma seeded_well (methods : bool) (c : gmap string cfg_value) (k : string) (v : cfg_value) :
  well_shaped methods c -> c !! k = Some v ->
  exists v', seeded methods c k = Ok v'
             /\ (methods = true -> exists x m, v' = WithMethod x m).
Proof.
  intros Hc Hk. unfold seeded. rewrite Hk. destruct methods.
  - destruct (Hc eq_refl _ _ Hk) as [x [m ->]]. eauto.
  - exists v. split; [reflexivity | discriminate].
Qed.

(** One turn of the loop: it never raises, it ends as [probe_flow] says,
    and it writes at most the global key and the service key of the
    suffix. *)
Lemma probe_step (d : db) (methods : bool) (service : string) (setting : Settings_row)
    (n : N) (c : gmap string cfg_value) :
  well_shaped methods c ->
  exists c', probe d methods service setting n c = Ok (c', probe_flow d service setting n)
    /\ well_shaped methods c'
    /\ (forall k, k <> (set_id setting ++ suffix_tail n)%string ->
                  k <> (service ++ "_" ++ set_id setting ++ suffix_tail n)%string ->
                  c' !! k = c !! k)
    /\ (n = 0%N -> first (gv_at (set_id setting) 0) (global_values d) = None ->
        (service ++ "_" ++ set_id setting)%string <> set_id setting ->
        c' !! set_id setting = Some (shaped methods (set_default setting) "default")).
Proof.
  intros Hc. unfold probe, probe_flow.
  set (id := set_id setting).
  set (c1 := match first (gv_at id n) (global_values d) with
             | None => if (n =? 0)%N
                       then <[id := shaped methods (set_default setting) "default"]> c
                       else c
             | Some g => <[(id ++ suffix_tail n)%string :=
                             shaped methods (gv_value g) (gv_method g)]> c
             end).
  assert (Hc1 : well_shaped methods c1).
  { subst c1. destruct (first (gv_at id n) (global_values d)) as [g|].
    - apply well_shaped_insert; [assumption | apply shaped_well].
    - destruct (n =? 0)%N; [|assumption].
      apply well_shaped_insert; [assumption | apply shaped_well]. }
  assert (Hk1 : forall k, k <> (id ++ suffix_tail n)%string -> c1 !! k = c !! k).
  { intros k Hk. subst c1. destruct (first (gv_at id n) (global_values d)) as [g|].
    - rewrite lookup_insert_ne by congruence. reflexivity.
    - destruct (n =? 0)%N eqn:Hn; [|reflexivity].
      apply N.eqb_eq in Hn. subst n. unfold suffix_tail in Hk. simpl in Hk.
      rewrite append_empty_r in Hk. rewrite lookup_insert_ne by congruence. reflexivity. }
  assert (Hd1 : n = 0%N -> first (gv_at id 0) (global_values d) = None ->
                c1 !! id = Some (shaped methods (set_default setting) "default")).
  { intros -> Hg. subst c1. rewrite Hg. simpl. apply lookup_insert_eq. }
  assert (H0 : n = 0%N -> exists v, c1 !! id = Some v).
  { intros ->. subst c1. destruct (first (gv_at id 0) (global_values d)) as [g|].
    - unfold suffix_tail. simpl. rewrite append_empty_r, lookup_insert_eq. eauto.
    - simpl. rewrite lookup_insert_eq. eauto. }
  clearbody c1.
  destruct (negb (String.eqb (set_context setting) "multisite")).
  { exists c1. split; [reflexivity|]. split; [assumption|]. split.
    - intros k Hk _. apply Hk1. assumption.
    - intros Hn Hg _. apply Hd1; assumption. }
  set (skey := (service ++ "_" ++ id ++ suffix_tail n)%string).
  assert (Hseed : exists c2,
             (if (n =? 0)%N
              then v <- seeded methods c1 id ;; Ok (<[(service ++ "_" ++ id)%string := v]> c1)
              else match c1 !! (id ++ "_" ++ Py.str n)%string with
                   | Some _ =>
                       v <- seeded methods c1 (id ++ "_" ++ Py.str n) ;;
                       Ok (<[(service ++ "_" ++ id ++ "_" ++ Py.str n)%string := v]> c1)
                   | None => Ok c1
                   end) = Ok c2
             /\ well_shaped methods c2
             /\ (forall k, k <> skey -> c2 !! k = c1 !! k)).
  { destruct (n =? 0)%N eqn:Hn.
    - apply N.eqb_eq in Hn. destruct (H0 Hn) as [v Hv].
      destruct (seeded_well _ _ _ _ Hc1 Hv) as [v' [Hs Hw]]. rewrite Hs. simpl bind.
      eexists. split; [reflexivity|]. split.
      + apply well_shaped_insert; assumption.
      + intros k Hk. subst skey n. unfold suffix_tail in Hk. simpl in Hk.
        rewrite append_empty_r in Hk. rewrite lookup_insert_ne by congruence. reflexivity.
    - destruct (c1 !! (id ++ "_" ++ Py.str n)%string) as [v|] eqn:Hv.
      + destruct (seeded_well _ _ _ _ Hc1 Hv) as [v' [Hs Hw]]. rewrite Hs. simpl bind.
        eexists. split; [reflexivity|]. split.
        * apply well_shaped_insert; assumption.
        * intros k Hk. subst skey. rewrite suffix_tail_pos in Hk.
          -- rewrite lookup_insert_ne by congruence. reflexivity.
          -- apply N.ltb_lt. apply N.eqb_neq in Hn. lia.
      + exists c1. split; [reflexivity|]. split; [assumption|]. reflexivity. }
  destruct Hseed as [c2 [-> [Hc2 Hk2]]]. simpl bind.
  assert (Hfinal : forall c3,
            (c3 = c2 \/ exists v, (methods = true -> exists x m, v = WithMethod x m)
                                  /\ c3 = <[skey := v]> c2) ->
            well_shaped methods c3
            /\ (forall k, k <> (id ++ suffix_tail n)%string -> k <> skey -> c3 !! k = c !! k)
            /\ (n = 0%N -> first (gv_at id 0) (global_values d) = None ->
                (service ++ "_" ++ id)%string <> id ->
                c3 !! id = Some (shaped methods (set_default setting) "default"))).
  { intros c3 H3. destruct H3 as [->|[v [Hv ->]]].
    - split; [assumption|]. split.
      + intros k Hkg Hks. rewrite Hk2 by assumption. apply Hk1. assumption.
      + intros Hn Hg Hne. rewrite Hk2; [apply Hd1; assumption|].
        subst skey n. unfold suffix_tail. simpl. rewrite append_empty_r. congruence.
    - split; [apply well_shaped_insert; assumption|]. split.
      + intros k Hkg Hks. rewrite lookup_insert_ne by congruence.
        rewrite Hk2 by assumption. apply Hk1. assumption.
      + intros Hn Hg Hne.
        assert (Hs : id <> skey).
        { subst skey n. unfold suffix_tail. simpl. rewrite append_empty_r. congruence. }
        rewrite lookup_insert_ne by congruence. rewrite Hk2 by assumption.
        apply Hd1; assumption. }
  destruct (first (ss_at service id n) (services_settings d)) as [s|].
  - destruct (negb (set_multiple setting)); eexists; (split; [reflexivity|]);
      apply Hfinal; right; eexists; (split; [apply shaped_well | reflexivity]).
  - destruct (0 <? n)%N; [|destruct (negb (set_multiple setting))];
      eexists; (split; [reflexivity|]); apply Hfinal; left; reflexivity.
Qed.

Lemma first_existsb {A : Type} (p : A -> bool) (l : list A) :
  first p l = None <-> existsb p l = false.
Proof.
  unfold first. induction l as [|x l IH]; simpl; [tauto|].
  destruct (p x); simpl; [split; discriminate | exact IH].
Qed.

Lemma probe_flow_multiple (d : db) (service : string) (setting : Settings_row) (m : N) :
  set_context setting = "multisite" -> set_multiple setting = true ->
  probe_flow d service setting m =
  if has_service_setting d service (set_id setting) m then Next
  else if (0 <? m)%N then Break else Next.
Proof.
  intros Hctx Hmul. unfold probe_flow, has_service_setting. rewrite Hctx, Hmul. simpl.
  destruct (first _ (services_settings d)) as [r|] eqn:Hf.
  - destruct (existsb _ (services_settings d)) eqn:He; [reflexivity|].
    apply first_existsb in He. congruence.
  - apply first_existsb in Hf. rewrite Hf. reflexivity.
Qed.

Lemma probe_loop_runs_to (d : db) (methods : bool) (service : string)
    (setting : Settings_row) (n : N) :
  set_context setting = "multisite" -> set_multiple setting = true ->
  (0 < n)%N ->
  has_service_setting d service (set_id setting) n = false ->
  (forall m, (0 < m < n)%N -> has_service_setting d service (set_id setting) m = true) ->
  forall (fuel : nat) (m : N) (c : gmap string cfg_value),
    (m <= n)%N -> (N.to_nat (n - m) < fuel)%nat -> well_shaped methods c ->
    exists c', probe_loop fuel d methods service setting m c = Some (Ok (c', n)).
Proof.
  intros Hctx Hmul Hpos Hgap Hrows. induction fuel as [|fuel IH]; intros m c Hle Hfuel Hc;
    [lia|].
  simpl. destruct (probe_step d methods service setting m c Hc) as [c' [-> [Hc' _]]].
  rewrite (probe_flow_multiple _ _ _ _ Hctx Hmul).
  destruct (N.eq_dec m n) as [->|Hne].
  - rewrite Hgap. apply N.ltb_lt in Hpos. rewrite Hpos. eauto.
  - assert (Hnext : (if has_service_setting d service (set_id setting) m then Next
                     else if (0 <? m)%N then Break else Next) = Next).
    { destruct (0 <? m)%N eqn:Hm.
      - apply N.ltb_lt in Hm. rewrite Hrows by lia. reflexivity.
      - destruct (has_service_setting d service (set_id setting) m); reflexivity. }
    rewrite Hnext. apply IH; [lia | lia | assumption].
Qed.

(** With global values at suffixes 0, 1 and 2 and no setting of the
    service, the first suffix that has neither a global value nor a service
    setting is 3, yet the loop leaves at suffix 1, a suffix that has a
    global value: line 637 breaks on the missing service setting alone. *)
Lemma probe_loop_leaves_at_global_value :
  left_at (probe_loop 5 three_urls true "app" url_setting 0 ∅) = Some 1%N
  /\ has_global_value three_urls "REVERSE_PROXY_URL" 1 = true
  /\ first_gap three_urls "app" "REVERSE_PROXY_URL" 3
  /\ ~ first_gap three_urls "app" "REVERSE_PROXY_URL" 1.
Proof.
  split; [vm_compute; reflexivity|]. split; [reflexivity|]. split.
  - split; [reflexivity|]. split; [reflexivity|]. intros m Hm. left.
    assert (Hcases : m = 0%N \/ m = 1%N \/ m = 2%N) by lia.
    destruct Hcases as [->|[->| ->]]; reflexivity.
  - intros [H _]. discriminate H.
Qed.

(** The rule that the loop follows. For a setting with context multisite
    the loop of one service leaves after suffix 0 when the setting is not
    multiple; when it is multiple it goes on from suffix 0 and leaves
    exactly at the first suffix greater than 0 that has no row of that
    service in [Services_settings], whether or not a global value is stored
    at that suffix. *)
Theorem probe_loop_stops (d : db) (methods : bool) (service : string)
    (setting : Settings_row) (c : gmap string cfg_value) :
  set_context setting = "multisite" ->
  well_shaped methods c ->
  (set_multiple setting = false ->
   forall fuel, exists c', probe_loop (S fuel) d methods service setting 0 c = Some (Ok (c', 0%N)))
  /\ (set_multiple setting = true ->
      forall (n : N) (fuel : nat),
        (0 < n)%N ->
        has_service_setting d service (set_id setting) n = false ->
        (forall m, (0 < m < n)%N -> has_service_setting d service (set_id setting) m = true) ->
        (N.to_nat n < fuel)%nat ->
        exists c', probe_loop fuel d methods service setting 0 c = Some (Ok (c', n))).
Proof.
  intros Hctx Hc. split.
  - intros Hmul fuel. simpl.
    destruct (probe_step d methods service setting 0 c Hc) as [c' [-> _]].
    unfold probe_flow. rewrite Hctx, Hmul. simpl.
    destruct (first _ (services_settings d)); eauto.
  - intros Hmul n fuel Hpos Hgap Hrows Hfuel.
    apply (probe_loop_runs_to d methods service setting n Hctx Hmul Hpos Hgap Hrows);
      [lia | lia | assumption].
Qed.

Lemma probe_loop_stops_witness :
  exists c', probe_loop 3 two_overrides true "app" url_setting 0 ∅ = Some (Ok (c', 2%N)).
Proof.
  destruct (probe_loop_stops two_overrides true "app" url_setting ∅ eq_refl
              (well_shaped_empty true)) as [_ H].
  apply (H eq_refl 2%N 3%nat).
  - lia.
  - reflexivity.
  - intros m Hm. assert (m = 1%N) as -> by lia. reflexivity.
  - simpl. lia.
Defined.

(** The loop from suffix [m] to the suffix [n] at which it leaves writes
    the keys of the suffixes it visits and no other. *)
Lemma probe_loop_runs_to_frame (d : db) (methods : bool) (service : string)
    (setting : Settings_row) (n : N) :
  set_context setting = "multisite" -> set_multiple setting = true ->
  (0 < n)%N ->
  has_service_setting d service (set_id setting) n = false ->
  (forall m, (0 < m < n)%N -> has_service_setting d service (set_id setting) m = true) ->
  forall (fuel : nat) (m : N) (c : gmap string cfg_value),
    (m <= n)%N -> (N.to_nat (n - m) < fuel)%nat -> well_shaped methods c ->
    exists c', probe_loop fuel d methods service setting m c = Some (Ok (c', n))
      /\ forall k,
           (forall j, (m <= j <= n)%N ->
                      k <> (set_id setting ++ suffix_tail j)%string
                      /\ k <> (service ++ "_" ++ set_id setting ++ suffix_tail j)%string) ->
           c' !! k = c !! k.
Proof.
  intros Hctx Hmul Hpos Hgap Hrows. induction fuel as [|fuel IH]; intros m c Hle Hfuel Hc;
    [lia|].
  simpl. destruct (probe_step d methods service setting m c Hc) as [c1 [-> [Hc1 [Hkeep _]]]].
  rewrite (probe_flow_multiple _ _ _ _ Hctx Hmul).
  destruct (N.eq_dec m n) as [->|Hne].
  - rewrite Hgap. apply N.ltb_lt in Hpos. rewrite Hpos. exists c1. split; [reflexivity|].
    intros k Hk. destruct (Hk n ltac:(lia)) as [H1 H2]. apply Hkeep; assumption.
  - assert (Hnext : (if has_service_setting d service (set_id setting) m then Next
                     else if (0 <? m)%N then Break else Next) = Next).
    { destruct (0 <? m)%N eqn:Hm.
      - apply N.ltb_lt in Hm. rewrite Hrows by lia. reflexivity.
      - destruct (has_service_setting d service (set_id setting) m); reflexivity. }
    rewrite Hnext.
    destruct (IH (m + 1)%N c1 ltac:(lia) ltac:(lia) Hc1) as [c' [Hrun Hframe]].
    exists c'. split; [exact Hrun|]. intros k Hk.
    rewrite Hframe by (intros j Hj; apply Hk; lia).
    destruct (Hk m ltac:(lia)) as [H1 H2]. apply Hkeep; assumption.
Qed.

(** C4 (fails on the code). The loop does not stop at the first suffix that
    has neither a global value nor a setting of the service: for a multiple
    setting of context multisite it leaves at the first suffix above 0
    without a setting of the service, also when a global value is stored at
    that suffix, which the claim says does not end the probe. The keys of
    the suffixes above it are not written, so a global value stored there
    is not projected, although lines 571-588 and 602-610 project and seed
    the global values of every suffix that the loop visits. *)
Theorem probe_loop_stops_at_global_value (d : db) (methods : bool) (service : string)
    (setting : Settings_row) (c : gmap string cfg_value) (n : N) (fuel : nat) :
  set_context setting = "multisite" -> set_multiple setting = true ->
  well_shaped methods c ->
  (0 < n)%N ->
  has_service_setting d service (set_id setting) n = false ->
  (forall m, (0 < m < n)%N -> has_service_setting d service (set_id setting) m = true) ->
  has_global_value d (set_id setting) n = true ->
  (N.to_nat n < fuel)%nat ->
  ~ first_gap d service (set_id setting) n
  /\ exists c',
       probe_loop fuel d methods service setting 0 c = Some (Ok (c', n))
       /\ forall k,
            (forall j, (j <= n)%N ->
                       k <> (set_id setting ++ suffix_tail j)%string
                       /\ k <> (service ++ "_" ++ set_id setting ++ suffix_tail j)%string) ->
            c' !! k = c !! k.
Proof.
  intros Hctx Hmul Hc Hpos Hgap Hrows Hglobal Hfuel. split.
  - intros [Hnone _]. congruence.
  - destruct (probe_loop_runs_to_frame d methods service setting n Hctx Hmul Hpos Hgap Hrows
                fuel 0%N c ltac:(lia) ltac:(lia) Hc) as [c' [Hrun Hframe]].
    exists c'. split; [exact Hrun|]. intros k Hk. apply Hframe.
    intros j Hj. apply Hk. lia.
Qed.

Lemma probe_loop_stops_at_global_value_witness :
  has_global_value three_urls "REVERSE_PROXY_URL" 2 = true
  /\ first_gap three_urls "app" "REVERSE_PROXY_URL" 3
  /\ ~ first_gap three_urls "app" "REVERSE_PROXY_URL" 1
  /\ (exists c', probe_loop 5 three_urls true "app" url_setting 0 ∅ = Some (Ok (c', 1%N))
                  /\ c' !! "REVERSE_PROXY_URL_2" = None)
  /\ projected (get_config 5 three_urls true) "REVERSE_PROXY_URL_2" = None.
Proof.
  split; [reflexivity|]. split.
  { split; [reflexivity|]. split; [reflexivity|]. intros m Hm. left.
    assert (Hcases : m = 0%N \/ m = 1%N \/ m = 2%N) by lia.
    destruct Hcases as [->|[->| ->]]; reflexivity. }
  destruct (probe_loop_stops_at_global_value three_urls true "app" url_setting ∅ 1%N 5%nat
              eq_refl eq_refl (well_shaped_empty true)) as [Hgap [c' [Hrun Hframe]]].
  - lia.
  - reflexivity.
  - intros m Hm. lia.
  - reflexivity.
  - simpl. lia.
  - split; [exact Hgap|]. split; [|vm_compute; reflexivity].
    exists c'. split; [exact Hrun|].
    rewrite Hframe; [apply lookup_empty|].
    intros j Hj. assert (Hcases : j = 0%N \/ j = 1%N) by lia.
    destruct Hcases as [->| ->]; split; discriminate.
Defined.

(** ** C3: a stored global value and a later writer *)

Lemma first_filter {A : Type} (p q : A -> bool) (l : list A) (r : A) :
  first p l = Some r -> q r = true -> first p (List.filter q l) = Some r.
Proof.
  unfold first. induction l as [|x l IH]; simpl; [discriminate|].
  destruct (p x) eqn:Hp.
  - intros H Hq. injection H as ->. rewrite Hq. simpl. rewrite Hp. reflexivity.
  - intros H Hq. destruct (q x); simpl; [rewrite Hp|]; apply IH; assumption.
Qed.

Lemma first_delete_other {A : Type} (p q : A -> bool) (l : list A) :
  (forall x, p x = true -> q x = false) ->
  first p (delete_where q l) = first p l.
Proof.
  intros Hpq. unfold first, delete_where. induction l as [|x l IH]; simpl; [reflexivity|].
  destruct (p x) eqn:Hp.
  - rewrite (Hpq x Hp). simpl. rewrite Hp. reflexivity.
  - destruct (q x); simpl; [|rewrite Hp]; exact IH.
Qed.

Lemma first_update_other {A : Type} (p q : A -> bool) (g : A -> A) (l : list A) :
  (forall x, p x = true -> q x = false) ->
  (forall x, p (g x) = p x) ->
  first p (update_where q g l) = first p l.
Proof.
  intros Hpq Hg. unfold first, update_where. induction l as [|x l IH]; simpl; [reflexivity|].
  destruct (p x) eqn:Hp.
  - rewrite (Hpq x Hp), Hp. reflexivity.
  - destruct (q x); [rewrite Hg|]; rewrite Hp; exact IH.
Qed.

Lemma first_app_some {A : Type} (p : A -> bool) (l l' : list A) (r : A) :
  first p l = Some r -> first p (l ++ l') = Some r.
Proof.
  unfold first. induction l as [|x l IH]; simpl; [discriminate|].
  destruct (p x); [trivial | exact IH].
Qed.

Lemma gv_at_other (k k' : string) (s s' : N) (x : Global_values_row) :
  k' <> k -> gv_at k s x = true -> gv_at k' s' x = false.
Proof.
  unfold gv_at. intros Hne H. apply andb_true_iff in H as [H _].
  apply String.eqb_eq in H. rewrite H. apply String.eqb_neq in Hne.
  rewrite String.eqb_sym, Hne. reflexivity.
Qed.

Lemma add_entity_global_value (e : entity) (d d' : db) (p : Global_values_row -> bool)
    (r : Global_values_row) :
  add_entity e d = Some d' -> first p (global_values d) = Some r ->
  first p (global_values d') = Some r.
Proof.
  destruct e; simpl; intros H Hf;
    repeat match type of H with
           | (if ?c then _ else _) = _ => destruct c; [discriminate|]
           end;
    injection H as <-; simpl; auto.
  apply first_app_some. assumption.
Qed.

Lemma add_all_global_value (l : list entity) (d d' : db) (p : Global_values_row -> bool)
    (r : Global_values_row) :
  add_all l d = Some d' -> first p (global_values d) = Some r ->
  first p (global_values d') = Some r.
Proof.
  revert d. induction l as [|e l IH]; simpl; intros d H Hf.
  - injection H as <-; assumption.
  - destruct (add_entity e d) as [d1|] eqn:He; [|discriminate].
    eapply IH; [eassumption|]. eapply add_entity_global_value; eassumption.
Qed.

Lemma mark_first_config_saved_global_values (d : db) :
  global_values (mark_first_config_saved d) = global_values d.
Proof.
  unfold mark_first_config_saved. destruct (metadata d) as [m|]; [|reflexivity].
  destruct (negb (first_config_saved m)); reflexivity.
Qed.

Lemma delete_own_global_value (method : string) (d : db) (p : Global_values_row -> bool)
    (r : Global_values_row) :
  first p (global_values d) = Some r -> gv_method r <> method ->
  first p (global_values (delete_own method d)) = Some r.
Proof.
  intros Hf Hne. simpl. unfold delete_where. apply first_filter; [assumption|].
  apply negb_true_iff. apply String.eqb_neq. assumption.
Qed.

(** The service branch leaves the global values, the settings and the
    bookkeeping of the global keys alone. *)
Lemma service_branch_globals (config : list (string * string)) (method server_name key : string)
    (suffix : N) (value default : string) (f f' : frame) :
  service_branch config method server_name key suffix value default f = Ok f' ->
  global_values (f_db f') = global_values (f_db f)
  /\ settings (f_db f') = settings (f_db f)
  /\ f_global_values f' = f_global_values f.
Proof.
  unfold service_branch.
  destruct (first _ (services_settings (f_db f))) as [s|].
  - destruct (String.eqb method "autoconf").
    + destruct (redundant _ _ _ _).
      * intros H; injection H as <-. repeat split.
      * destruct (f_global_value f) as [|[g|]]; try discriminate.
        destruct (negb (String.eqb g value)); intros H; injection H as <-; repeat split.
    + intros H; injection H as <-. repeat split.
  - destruct (redundant _ _ _ _); intros H; injection H as <-; repeat split.
Qed.

(** The global branch of another key leaves the row under watch alone. *)
Lemma global_branch_other (method key : string) (suffix : N) (value default : string)
    (f f' : frame) (k : string) (sfx : N) :
  global_branch method key suffix value default f = Ok f' -> key <> k ->
  first (gv_at k sfx) (global_values (f_db f')) = first (gv_at k sfx) (global_values (f_db f))
  /\ settings (f_db f') = settings (f_db f)
  /\ f_global_values f' = f_global_values f ++ [key].
Proof.
  unfold global_branch. intros H Hne.
  destruct (gv_value <$> first (gv_at key suffix) (global_values (f_db f))) as [stored|].
  - destruct (String.eqb method "autoconf").
    + destruct (String.eqb value default).
      * injection H as <-. simpl. split; [|split; reflexivity].
        apply first_delete_other. intros x. apply gv_at_other. assumption.
      * destruct (negb (String.eqb stored value)); injection H as <-; simpl;
          (split; [|split; reflexivity]); [|reflexivity].
        apply first_update_other; [intros x; apply gv_at_other; assumption|].
        intros x. reflexivity.
    + injection H as <-. simpl. repeat split.
  - destruct (String.eqb value default); injection H as <-; simpl; repeat split.
Qed.

Section Override.

Variables (st : db) (config : list (string * string)).
Variables (K k newValue default s1 : string) (sfx : N) (r : Global_values_row).

Hypothesis HK : split_suffix K = Ok (k, sfx).
Hypothesis Hother : forall K' v' k' s',
  In (K', v') config -> K' <> K -> split_suffix K' = Ok (k', s') -> k' <> k.
Hypothesis Hnew : newValue <> default.
Hypothesis Hold : gv_value r <> newValue.
Hypothesis Hglobal : negb (String.eqb s1 EmptyString) && Py.startswith k s1 = false.
Hypothesis Hsetting : setting_default st (Py.replace k (s1 ++ "_") EmptyString) = Some default.

Lemma item_overridden (method server : string) (item : string * string) (f f' : frame)
    (value owner : string) :
  overridden k sfx value owner f ->
  multisite_item config method server item f = Ok f' ->
  overridden k sfx value owner f'.
Proof.
  intros [Hin Hrow]. unfold multisite_item, bind.
  destruct (split_suffix (fst item)) as [[key suffix]|e]; [|discriminate]. simpl.
  destruct (setting_default (f_db f) _) as [dflt|]; [|intros H; injection H as <-; split; assumption].
  destruct (negb (String.eqb server EmptyString) && Py.startswith key server).
  - intros H. apply service_branch_globals in H as [Hg [_ Hl]].
    unfold overridden. rewrite Hg, Hl. split; assumption.
  - destruct (negb (existsb (String.eqb key) (f_global_values f))) eqn:Hseen;
      [|intros H; injection H as <-; split; assumption].
    intros H. assert (Hne : key <> k).
    { intros ->. apply negb_true_iff in Hseen. apply existsb_eqb_In in Hin. congruence. }
    destruct (global_branch_other _ _ _ _ _ _ _ k sfx H Hne) as [Hg [_ Hl]].
    unfold overridden. rewrite Hg, Hl. split; [apply in_or_app; left|]; assumption.
Qed.

Lemma item_untouched (method server : string) (item : string * string) (f f' : frame) :
  untouched st k sfx r f -> In item config -> fst item <> K ->
  multisite_item config method server item f = Ok f' ->
  untouched st k sfx r f'.
Proof.
  intros [Hnin [Hrow Hset]] Hitem HneK. unfold multisite_item, bind.
  destruct (split_suffix (fst item)) as [[key suffix]|e] eqn:Hsplit; [|discriminate]. simpl.
  assert (Hne : key <> k).
  { destruct item as [K' v']. apply (Hother K' v' key suffix); assumption. }
  destruct (setting_default (f_db f) _) as [dflt|];
    [|intros H; injection H as <-; repeat split; assumption].
  destruct (negb (String.eqb server EmptyString) && Py.startswith key server).
  - intros H. apply service_branch_globals in H as [Hg [Hs Hl]].
    unfold untouched. rewrite Hg, Hs, Hl. repeat split; assumption.
  - destruct (negb (existsb (String.eqb key) (f_global_values f)));
      [|intros H; injection H as <-; repeat split; assumption].
    intros H. destruct (global_branch_other _ _ _ _ _ _ _ k sfx H Hne) as [Hg [Hs Hl]].
    unfold untouched. rewrite Hg, Hs, Hl. repeat split; try assumption.
    intros Hin. apply in_app_or in Hin as [Hin|[Hin|[]]]; [contradiction | congruence].
Qed.

Lemma item_hit (f f' : frame) :
  untouched st k sfx r f ->
  multisite_item config "autoconf" s1 (K, newValue) f = Ok f' ->
  overridden k sfx newValue "autoconf" f'.
Proof.
  intros [Hnin [Hrow Hset]]. unfold multisite_item, bind. simpl fst. rewrite HK. simpl.
  assert (Hd : setting_default (f_db f) (Py.replace k (s1 ++ "_") EmptyString) = Some default).
  { unfold setting_default in *. rewrite Hset. assumption. }
  rewrite Hd, Hglobal.
  assert (Hfresh : existsb (String.eqb k) (f_global_values f) = false).
  { destruct (existsb (String.eqb k) (f_global_values f)) eqn:He; [|reflexivity].
    apply existsb_eqb_In in He. contradiction. }
  rewrite Hfresh. simpl negb. cbv iota. unfold global_branch. rewrite Hrow. simpl.
  apply String.eqb_neq in Hnew. rewrite Hnew.
  apply String.eqb_neq in Hold. rewrite Hold. simpl.
  intros H; injection H as <-. split; simpl.
  - apply in_or_app. right. left. reflexivity.
  - eexists. split.
    + rewrite first_update_where; [rewrite Hrow; reflexivity|]. intros x. reflexivity.
    + split; reflexivity.
Qed.

Lemma pass_overridden (method server value owner : string) (l : list (string * string))
    (f f' : frame) :
  overridden k sfx value owner f ->
  for_each (multisite_item config method server) l f = Ok f' ->
  overridden k sfx value owner f'.
Proof.
  revert f. induction l as [|item l IH]; simpl; intros f Hf H.
  - injection H as <-. assumption.
  - unfold bind in H. destruct (multisite_item config method server item f) as [f1|] eqn:H1;
      [|discriminate].
    eapply IH; [|eassumption]. eapply item_overridden; eassumption.
Qed.

Lemma first_pass (l : list (string * string)) (f f' : frame) :
  (forall item, In item l -> In item config) ->
  untouched st k sfx r f ->
  dict_get l K = Some newValue ->
  for_each (multisite_item config "autoconf" s1) l f = Ok f' ->
  overridden k sfx newValue "autoconf" f'.
Proof.
  revert f. induction l as [|item l IH]; intros f Hsub Hf Hget H; [discriminate|].
  simpl in H. unfold bind in H.
  destruct (multisite_item config "autoconf" s1 item f) as [f1|] eqn:H1; [|discriminate].
  unfold dict_get in Hget. simpl in Hget.
  destruct (String.eqb (fst item) K) eqn:HeK.
  - apply String.eqb_eq in HeK. simpl in Hget. injection Hget as Hv.
    destruct item as [K' v']. simpl in HeK, Hv. subst K' v'.
    eapply pass_overridden; [|eassumption]. eapply item_hit; eassumption.
  - apply String.eqb_neq in HeK. eapply IH; [| |exact Hget|eassumption].
    + intros x Hx. apply Hsub. right. assumption.
    + eapply item_untouched; [eassumption | apply Hsub; left; reflexivity | eassumption
                               | eassumption].
Qed.

Lemma servers_overridden (method value owner : string) (l : list string) (f f' : frame) :
  overridden k sfx value owner f ->
  for_each (multisite_server config method) l f = Ok f' ->
  overridden k sfx value owner f'.
Proof.
  revert f. induction l as [|s l IH]; simpl; intros f Hf H.
  - injection H as <-. assumption.
  - unfold bind in H. destruct (multisite_server config method s f) as [f1|] eqn:H1;
      [|discriminate].
    eapply IH; [|eassumption]. unfold multisite_server in H1.
    eapply pass_overridden; [|eassumption].
    destruct (negb (String.eqb s EmptyString) && negb (existsb (String.eqb s) (services (f_db f))));
      assumption.
Qed.

Lemma multisite_override (rest : list string) (f : frame) :
  first (gv_at k sfx) (global_values st) = Some r ->
  gv_method r <> "autoconf" ->
  dict_get config K = Some newValue ->
  for_each (multisite_server config "autoconf") (s1 :: rest)
    (start (delete_own "autoconf" st)) = Ok f ->
  overridden k sfx newValue "autoconf" f.
Proof.
  intros Hrow Hm Hget H. simpl in H. unfold bind in H.
  destruct (multisite_server config "autoconf" s1 _) as [f1|] eqn:H1; [|discriminate].
  eapply servers_overridden; [|eassumption].
  unfold multisite_server in H1.
  eapply first_pass; [intros x Hx; exact Hx| |exact Hget|exact H1].
  assert (Hstart : untouched st k sfx r (start (delete_own "autoconf" st))).
  { split; [intros []|]. split; [|reflexivity].
    apply delete_own_global_value; assumption. }
  destruct (negb (String.eqb s1 EmptyString) && negb (existsb (String.eqb s1) _)); assumption.
Qed.

End Override.

(** In single-site mode a stored row is rewritten only when it belongs to
    the caller, and the caller's rows are gone when the loop starts: the
    loop leaves the store as it found it. *)
Lemma single_site_item_db (method : string) (item : string * string) (f f' : frame) :
  (forall x, In x (global_values (f_db f)) -> gv_method x <> method) ->
  single_site_item method item f = Ok f' ->
  f_db f' = f_db f.
Proof.
  intros Hown. unfold single_site_item, bind.
  destruct (split_suffix (fst item)) as [[key suffix]|e]; [|discriminate]. simpl.
  destruct (match setting_default (f_db f) key with Some d => _ | None => false end);
    intros H; injection H as <-; [reflexivity|].
  unfold single_site_store.
  destruct (first (gv_at key suffix) (global_values (f_db f))) as [stored|] eqn:Hf;
    [|reflexivity].
  apply find_some in Hf as [Hin _]. apply Hown in Hin. apply String.eqb_neq in Hin.
  rewrite Hin. reflexivity.
Qed.

Lemma single_site_loop_db (method : string) (l : list (string * string)) (f f' : frame) :
  (forall x, In x (global_values (f_db f)) -> gv_method x <> method) ->
  for_each (single_site_item method) l f = Ok f' ->
  f_db f' = f_db f.
Proof.
  revert f. induction l as [|item l IH]; simpl; intros f Hown H.
  - injection H as <-. reflexivity.
  - unfold bind in H. destruct (single_site_item method item f) as [f1|] eqn:H1; [|discriminate].
    apply single_site_item_db in H1; [|assumption].
    rewrite <- H1. apply IH; [rewrite H1|]; assumption.
Qed.

Lemma delete_own_foreign (method : string) (d : db) (x : Global_values_row) :
  In x (global_values (delete_own method d)) -> gv_method x <> method.
Proof.
  simpl. unfold delete_where. intros H. apply filter_In in H as [_ H].
  apply negb_true_iff in H. apply String.eqb_neq. assumption.
Qed.

Lemma single_site_foreign_row (st st' : db) (config : list (string * string))
    (method multisite : string) (p : Global_values_row -> bool) (r : Global_values_row) :
  dict_get config "MULTISITE" = Some multisite -> multisite <> "yes" ->
  first p (global_values st) = Some r -> gv_method r <> method ->
  save_config st config method = Returned EmptyString st' ->
  first p (global_values st') = Some r.
Proof.
  intros Hm Hne Hrow Hown. unfold save_config.
  rewrite (save_config_body_single_site _ _ _ _ Hm Hne).
  unfold getitem. destruct (dict_get config "SERVER_NAME") as [names|]; simpl bind; [|discriminate].
  destruct (for_each _ config _) as [f|e] eqn:Hf; [|discriminate].
  destruct (add_all (f_to_put f) (mark_first_config_saved (f_db f))) as [d'|] eqn:Hc;
    [|intros H; injection H as H _; discriminate].
  intros H; injection H as <-.
  apply single_site_loop_db in Hf; [|intros x; apply delete_own_foreign].
  eapply add_all_global_value; [eassumption|].
  rewrite mark_first_config_saved_global_values, Hf. simpl f_db.
  apply delete_own_global_value; assumption.
Qed.

(** C3 (counterexample). In single-site mode the log level that the manual
    writer stored survives a successful submission of another value under
    ["autoconf"]: the row keeps its value and its method. *)
Lemma single_site_autoconf_keeps_manual_row :
  exists st',
    save_config manual_store single_site_error_config "autoconf" = Returned EmptyString st'
    /\ first (gv_at "LOG_LEVEL" 0) (global_values st') = Some manual_level
    /\ first (gv_at "LOG_LEVEL" 0) (global_values st')
       <> Some {| gv_setting_id := "LOG_LEVEL"; gv_value := "error"; gv_suffix := 0;
                  gv_method := "autoconf" |}.
Proof.
  eexists. split; [vm_compute; reflexivity|]. split; [reflexivity | discriminate].
Qed.

(** C3 (amended). Let a global value be stored at (key, suffix) under
    ["manual"], and let a call of save_config under ["autoconf"] that
    submits [newValue] for that key succeed. In multisite mode the row then
    carries [newValue] and ["autoconf"], provided that [newValue] differs
    from the stored value and from the setting's default and that the key
    is reached as a global key (it does not start with the first service
    name and no other submitted key has the same setting key). In
    single-site mode the row is left as it was: there only the owner of a
    stored row rewrites it. *)
Theorem autoconf_override (st st' : db) (config : list (string * string))
    (K k newValue : string) (sfx : N) (r : Global_values_row) :
  first (gv_at k sfx) (global_values st) = Some r ->
  gv_method r = "manual" ->
  split_suffix K = Ok (k, sfx) ->
  dict_get config K = Some newValue ->
  save_config st config "autoconf" = Returned EmptyString st' ->
  (forall names s1 rest default,
      dict_get config "MULTISITE" = Some "yes" ->
      dict_get config "SERVER_NAME" = Some names ->
      Py.split names Py.space = s1 :: rest ->
      negb (String.eqb s1 EmptyString) && Py.startswith k s1 = false ->
      setting_default st (Py.replace k (s1 ++ "_") EmptyString) = Some default ->
      newValue <> default ->
      gv_value r <> newValue ->
      (forall K' v' k' s', In (K', v') config -> K' <> K ->
                           split_suffix K' = Ok (k', s') -> k' <> k) ->
      exists r', first (gv_at k sfx) (global_values st') = Some r'
                 /\ gv_value r' = newValue /\ gv_method r' = "autoconf")
  /\ (forall multisite,
        dict_get config "MULTISITE" = Some multisite -> multisite <> "yes" ->
        first (gv_at k sfx) (global_values st') = Some r).
Proof.
  intros Hrow Hmanual HK Hget Hsave.
  assert (Hforeign : gv_method r <> "autoconf") by (rewrite Hmanual; discriminate).
  split.
  - intros names s1 rest default Hm Hs Hsplit Hglobal Hsetting Hnew Hold Hother.
    revert Hsave. unfold save_config.
    rewrite (save_config_body_multisite _ _ _ _ Hm Hs), Hsplit.
    destruct (for_each _ (s1 :: rest) _) as [f|e] eqn:Hf; [|discriminate].
    destruct (add_all (f_to_put f) (mark_first_config_saved (f_db f))) as [d'|] eqn:Hc;
      [|intros H; injection H as H _; discriminate].
    intros H; injection H as <-.
    destruct (multisite_override st config K k newValue default s1 sfx r
                HK Hother Hnew Hold Hglobal Hsetting rest f Hrow Hforeign Hget Hf)
      as [_ [r' [Hr' Hvals]]].
    exists r'. split; [|assumption].
    eapply add_all_global_value; [eassumption|].
    rewrite mark_first_config_saved_global_values. assumption.
  - intros multisite Hm Hne.
    eapply single_site_foreign_row; eassumption.
Qed.

Lemma autoconf_override_witness :
  (exists st' r',
      save_config manual_store multisite_error_config "autoconf" = Returned EmptyString st'
      /\ first (gv_at "LOG_LEVEL" 0) (global_values st') = Some r'
      /\ gv_value r' = "error" /\ gv_method r' = "autoconf")
  /\ (exists st',
         save_config manual_store single_site_error_config "autoconf" = Returned EmptyString st'
         /\ first (gv_at "LOG_LEVEL" 0) (global_values st') = Some manual_level).
Proof.
  split.
  - eexists.
    assert (Hsave : save_config manual_store multisite_error_config "autoconf"
                    = Returned EmptyString _) by (vm_compute; reflexivity).
    destruct (autoconf_override manual_store _ multisite_error_config
                "LOG_LEVEL" "LOG_LEVEL" "error" 0%N manual_level
                eq_refl eq_refl eq_refl eq_refl Hsave) as [Hmulti _].
    destruct (Hmulti "app" "app" [] "info") as [r' Hr'];
      try reflexivity; try discriminate.
    + intros K' v' k' s' Hin HneK Hsplit.
      destruct Hin as [Hin|[Hin|[Hin|[]]]]; injection Hin as <- <-;
        try (injection Hsplit as <- <-; discriminate).
      contradiction HneK; reflexivity.
    + exists r'. split; [exact Hsave | exact Hr'].
  - eexists.
    assert (Hsave : save_config manual_store single_site_error_config "autoconf"
                    = Returned EmptyString _) by (vm_compute; reflexivity).
    destruct (autoconf_override manual_store _ single_site_error_config
                "LOG_LEVEL" "LOG_LEVEL" "error" 0%N manual_level
                eq_refl eq_refl eq_refl eq_refl Hsave) as [_ Hsingle].
    split; [exact Hsave|]. apply (Hsingle "no"); [reflexivity | discriminate].
Defined.

(** ** C6: values equal to the default *)

Lemma max_suffix_ge (d : db) (x : Services_settings_row) :
  In x (services_settings d) -> (ss_suffix x <= max_suffix d)%N.
Proof.
  unfold max_suffix. induction (services_settings d) as [|y l IH]; simpl; [intros []|].
  intros [->|H]; [lia | specialize (IH H); lia].
Qed.

Lemma probe_flow_next (d : db) (service : string) (t : Settings_row) (m : N) :
  probe_flow d service t m = Next -> (m <= max_suffix d)%N.
Proof.
  unfold probe_flow. destruct (negb (String.eqb (set_context t) "multisite")); [discriminate|].
  destruct (first _ (services_settings d)) as [x|] eqn:Hf.
  - intros _. apply find_some in Hf as [Hin Hat]. unfold ss_at in Hat.
    apply andb_true_iff in Hat as [_ Hat]. apply N.eqb_eq in Hat. rewrite <- Hat.
    apply max_suffix_ge. assumption.
  - destruct (0 <? m)%N eqn:Hm; [discriminate|]. intros _. apply N.ltb_ge in Hm. lia.
Qed.

Section Projection.

Variables (st : db) (methods : bool) (s : Settings_row).

Let k : string := set_id s.
Let target : cfg_value := shaped methods (set_default s) "default".

Hypothesis Hdefault : forall t, In t (settings st) -> set_id t = k -> set_default t = set_default s.
Hypothesis Hnone : first (gv_at k 0) (global_values st) = None.
Hypothesis Hfree : no_collision st k.

Lemma probe_key (service : string) (t : Settings_row) (n : N) (c : gmap string cfg_value) :
  In service (services st) -> In t (settings st) -> well_shaped methods c ->
  exists c', probe st methods service t n c = Ok (c', probe_flow st service t n)
    /\ well_shaped methods c'
    /\ (c !! k = Some target -> c' !! k = Some target)
    /\ (set_id t = k -> n = 0%N -> c' !! k = Some target).
Proof.
  intros Hsvc Ht Hc.
  destruct (probe_step st methods service t n c Hc) as [c' [Hp [Hc' [Hkeep Hset]]]].
  exists c'. split; [assumption|]. split; [assumption|].
  destruct (Hfree service t n Hsvc Ht) as [Hskey Hgkey].
  assert (Hhit : set_id t = k -> n = 0%N -> c' !! k = Some target).
  { intros Hid ->. unfold target. rewrite <- (Hdefault t Ht Hid), <- Hid.
    apply Hset; [reflexivity | rewrite Hid; assumption |].
    intros Heq. apply Hskey. unfold suffix_tail. simpl. rewrite append_empty_r.
    rewrite Heq. assumption. }
  split; [|assumption].
  intros Hk. destruct (N.eq_dec n 0%N) as [Hn|Hn].
  - destruct (String.eqb (set_id t) k) eqn:Hid.
    + apply String.eqb_eq in Hid. auto.
    + apply String.eqb_neq in Hid. rewrite Hkeep; [assumption| |congruence].
      subst n. unfold suffix_tail. simpl. rewrite append_empty_r. congruence.
  - rewrite Hkeep; [assumption| |congruence].
    intros Heq. apply Hgkey; [lia | congruence].
Qed.

Lemma probe_loop_key (service : string) (t : Settings_row) :
  In service (services st) -> In t (settings st) ->
  forall (fuel : nat) (m : N) (c : gmap string cfg_value),
    well_shaped methods c ->
    (m <= max_suffix st + 1)%N ->
    (N.to_nat (max_suffix st) + 2 <= fuel + N.to_nat m)%nat ->
    exists c' n', probe_loop fuel st methods service t m c = Some (Ok (c', n'))
      /\ well_shaped methods c'
      /\ (c !! k = Some target -> c' !! k = Some target)
      /\ (set_id t = k -> m = 0%N -> c' !! k = Some target).
Proof.
  intros Hsvc Ht. induction fuel as [|fuel IH]; intros m c Hc Hm Hfuel; [lia|].
  simpl. destruct (probe_key service t m c Hsvc Ht Hc) as [c1 [-> [Hc1 [Hkeep Hset]]]].
  destruct (probe_flow st service t m) eqn:Hflow.
  - exists c1, m. auto.
  - apply probe_flow_next in Hflow.
    destruct (IH (m + 1)%N c1 Hc1) as [c' [n' [Hrun [Hc' [Hkeep' _]]]]]; [lia | lia |].
    exists c', n'. split; [assumption|]. split; [assumption|]. split; auto.
Qed.

Lemma project_settings_key (service : string) (fuel : nat) :
  In service (services st) -> (enough_fuel st <= fuel)%nat ->
  forall (l : list Settings_row) (c : gmap string cfg_value),
    (forall t, In t l -> In t (settings st)) ->
    well_shaped methods c ->
    exists c', project_settings fuel st methods service l c = Some (Ok c')
      /\ well_shaped methods c'
      /\ (c !! k = Some target -> c' !! k = Some target)
      /\ (In s l -> c' !! k = Some target).
Proof.
  intros Hsvc Hfuel. induction l as [|t l IH]; intros c Hsub Hc; simpl.
  - exists c. split; [reflexivity|]. split; [assumption|]. split; [trivial | intros []].
  - assert (Ht : In t (settings st)) by (apply Hsub; left; reflexivity).
    destruct (probe_loop_key service t Hsvc Ht fuel 0%N c Hc) as [c1 [n1 [-> [Hc1 [Hkeep Hset]]]]];
      [lia | unfold enough_fuel in *; lia |].
    destruct (IH c1) as [c' [-> [Hc' [Hkeep' Hin']]]];
      [intros x Hx; apply Hsub; right; assumption | assumption |].
    exists c'. split; [reflexivity|]. split; [assumption|]. split; [auto|].
    intros [->|Hin]; [apply Hkeep', Hset; reflexivity | auto].
Qed.

Lemma project_services_key (fuel : nat) :
  (enough_fuel st <= fuel)%nat -> In s (settings st) ->
  forall (l : list string) (c : gmap string cfg_value),
    (forall x, In x l -> In x (services st)) ->
    well_shaped methods c ->
    exists c', project_services fuel st methods l c = Some (Ok c')
      /\ (c !! k = Some target -> c' !! k = Some target)
      /\ (l <> [] -> c' !! k = Some target).
Proof.
  intros Hfuel Hs. induction l as [|service l IH]; intros c Hsub Hc; simpl.
  - exists c. split; [reflexivity|]. split; [trivial | intros H; contradiction].
  - assert (Hsvc : In service (services st)) by (apply Hsub; left; reflexivity).
    destruct (project_settings_key service fuel Hsvc Hfuel (settings st) c (fun t H => H) Hc)
      as [c1 [-> [Hc1 [Hkeep Hin]]]].
    destruct (IH c1) as [c' [-> [Hkeep' _]]];
      [intros x Hx; apply Hsub; right; assumption | assumption |].
    exists c'. split; [reflexivity|]. split; [auto|]. intros _. auto.
Qed.

Lemma get_config_default (fuel : nat) :
  (enough_fuel st <= fuel)%nat -> In s (settings st) -> services st <> [] ->
  exists c, get_config fuel st methods = Some (Ok c) /\ c !! k = Some target.
Proof.
  intros Hfuel Hs Hne. unfold get_config.
  destruct (project_services_key fuel Hfuel Hs (services st) ∅ (fun x H => H)
              (well_shaped_empty methods)) as [c [Hrun [_ Hk]]].
  exists c. split; [assumption | auto].
Qed.

End Projection.

Lemma redundant_default (config : list (string * string)) (key value : string) :
  key <> "SERVER_NAME" -> redundant config key value value = true.
Proof.
  intros Hne. unfold redundant. apply String.eqb_neq in Hne. rewrite Hne, String.eqb_refl.
  reflexivity.
Qed.

Lemma delete_where_incl {A : Type} (p : A -> bool) (l : list A) : incl (delete_where p l) l.
Proof. unfold delete_where. apply incl_filter. Qed.

(** An item at its default in a multisite call: nothing is queued and no
    row is rewritten; the only change the store can see is the deletion
    that ["autoconf"] makes of the row it finds. *)
Lemma multisite_item_default (config : list (string * string)) (method server : string)
    (K v key : string) (suffix : N) (f : frame) :
  split_suffix K = Ok (key, suffix) ->
  setting_default (f_db f) (Py.replace key (server ++ "_") EmptyString) = Some v ->
  (negb (String.eqb server EmptyString) && Py.startswith key server = true ->
   Py.replace key (server ++ "_") EmptyString <> "SERVER_NAME") ->
  exists f', multisite_item config method server (K, v) f = Ok f'
    /\ f_to_put f' = f_to_put f
    /\ incl (global_values (f_db f')) (global_values (f_db f))
    /\ incl (services_settings (f_db f')) (services_settings (f_db f)).
Proof.
  intros Hsplit Hdef Hname. unfold multisite_item, bind. simpl fst. rewrite Hsplit. simpl.
  rewrite Hdef.
  destruct (negb (String.eqb server EmptyString) && Py.startswith key server) eqn:Hbranch.
  - unfold service_branch. rewrite (redundant_default _ _ _ (Hname eq_refl)).
    destruct (first _ (services_settings (f_db f))) as [x|].
    + destruct (String.eqb method "autoconf"); eexists; (split; [reflexivity|]); simpl;
        repeat split; try apply incl_refl. apply delete_where_incl.
    + exists f. repeat split; apply incl_refl.
  - destruct (negb (existsb (String.eqb key) (f_global_values f)));
      [|exists f; repeat split; apply incl_refl].
    unfold global_branch.
    destruct (gv_value <$> first (gv_at key suffix) (global_values (f_db f))) as [stored|].
    + destruct (String.eqb method "autoconf"); rewrite ?String.eqb_refl;
        eexists; (split; [reflexivity|]); simpl; repeat split; try apply incl_refl.
      apply delete_where_incl.
    + rewrite String.eqb_refl. eexists. split; [reflexivity|]. simpl.
      repeat split; apply incl_refl.
Qed.

Lemma single_site_item_default (method K v key : string) (suffix : N) (f : frame) :
  split_suffix K = Ok (key, suffix) ->
  setting_default (f_db f) key = Some v ->
  single_site_item method (K, v) f = Ok f.
Proof.
  intros Hsplit Hdef. unfold single_site_item, bind. simpl fst. rewrite Hsplit. simpl.
  rewrite Hdef, String.eqb_refl. reflexivity.
Qed.

(** C6 (counterexample). In multisite mode the key ["app_SERVER_NAME"]
    submitted with the default of [SERVER_NAME] is stored as a service
    setting all the same (line 321 exempts [SERVER_NAME] from the test
    against the default), and the projection reports it with the method of
    its writer. *)
Lemma default_server_name_is_stored :
  exists st' c,
    save_config catalog default_name_config "manual" = Returned EmptyString st'
    /\ setting_default catalog "SERVER_NAME" = Some "www.example.com"
    /\ services_settings st'
       = [{| ss_service_id := "app"; ss_setting_id := "SERVER_NAME";
             ss_value := "www.example.com"; ss_suffix := 0; ss_method := "manual" |}]
    /\ get_config (enough_fuel st') st' true = Some (Ok c)
    /\ c !! "app_SERVER_NAME" = Some (WithMethod "www.example.com" "manual").
Proof.
  eexists. eexists. split; [vm_compute; reflexivity|]. split; [reflexivity|].
  split; [reflexivity|]. split; [vm_compute; reflexivity|]. vm_compute. reflexivity.
Qed.

(** C6 (amended). A submitted value equal to the default of the setting
    its key resolves to makes save_config queue no row and rewrite none for
    that item, in single-site mode and in multisite mode, for a global key
    and for a key with a service prefix (["autoconf"] may delete the row it
    finds), with one exception: the [SERVER_NAME] of a service, which
    multisite mode stores even at its default. And when the store holds no
    global value at suffix 0 of a setting and at least one service,
    get_config with [methods] set reports the setting id with the default
    and the method ["default"], given that no other projected key has the
    same name. *)
Theorem default_elision :
  (forall (config : list (string * string)) (method server K v key : string) (suffix : N)
          (f : frame),
      split_suffix K = Ok (key, suffix) ->
      setting_default (f_db f) (Py.replace key (server ++ "_") EmptyString) = Some v ->
      (negb (String.eqb server EmptyString) && Py.startswith key server = true ->
       Py.replace key (server ++ "_") EmptyString <> "SERVER_NAME") ->
      exists f', multisite_item config method server (K, v) f = Ok f'
        /\ f_to_put f' = f_to_put f
        /\ incl (global_values (f_db f')) (global_values (f_db f))
        /\ incl (services_settings (f_db f')) (services_settings (f_db f)))
  /\ (forall (method K v key : string) (suffix : N) (f : frame),
         split_suffix K = Ok (key, suffix) ->
         setting_default (f_db f) key = Some v ->
         single_site_item method (K, v) f = Ok f)
  /\ (forall (st : db) (s : Settings_row) (fuel : nat),
         In s (settings st) ->
         (forall t, In t (settings st) -> set_id t = set_id s ->
                    set_default t = set_default s) ->
         first (gv_at (set_id s) 0) (global_values st) = None ->
         services st <> [] ->
         no_collision st (set_id s) ->
         (enough_fuel st <= fuel)%nat ->
         exists c, get_config fuel st true = Some (Ok c)
                   /\ c !! set_id s = Some (WithMethod (set_default s) "default")).
Proof.
  split; [|split].
  - intros config method server K v key sfx f Hsplit Hdef Hname.
    apply (multisite_item_default config method server K v key sfx f Hsplit Hdef Hname).
  - intros method K v key sfx f Hsplit Hdef.
    apply (single_site_item_default method K v key sfx f Hsplit Hdef).
  - intros st s fuel Hs Hdefault Hnone Hne Hfree Hfuel.
    apply (get_config_default st true s Hdefault Hnone Hfree fuel Hfuel Hs Hne).
Qed.

Lemma string_cons_inj (a b : ascii) (x y : string) : String a x = String b y -> a = b /\ x = y.
Proof. intros H. injection H as -> ->. split; reflexivity. Qed.

Lemma default_elision_witness :
  (exists f', multisite_item multisite_error_config "manual" "app" ("LOG_LEVEL", "info")
                (start catalog) = Ok f'
              /\ f_to_put f' = [])
  /\ single_site_item "manual" ("LOG_LEVEL", "info") (start catalog) = Ok (start catalog)
  /\ (exists c, get_config 2 one_service true = Some (Ok c)
                /\ c !! "LOG_LEVEL" = Some (WithMethod "info" "default")).
Proof.
  destruct default_elision as [Hmulti [Hsingle Hproject]].
  split; [|split].
  - destruct (Hmulti multisite_error_config "manual" "app" "LOG_LEVEL" "info" "LOG_LEVEL"
                0%N (start catalog)) as [f' [Hrun [Hput _]]];
      [reflexivity | reflexivity | discriminate |].
    exists f'. split; assumption.
  - apply (Hsingle "manual" "LOG_LEVEL" "info" "LOG_LEVEL" 0%N (start catalog));
      reflexivity.
  - apply (Hproject one_service level_setting 2%nat).
    + right. right. left. reflexivity.
    + intros t Ht Hid.
      destruct Ht as [<-|[<-|[<-|[<-|[]]]]]; try discriminate Hid; reflexivity.
    + reflexivity.
    + discriminate.
    + intros service t n Hsvc Ht. destruct Hsvc as [<-|[]]. split.
      * intros Heq. apply string_cons_inj in Heq as [Heq _]. discriminate Heq.
      * intros Hn. apply N.ltb_lt in Hn. rewrite (suffix_tail_pos n Hn).
        destruct Ht as [<-|[<-|[<-|[<-|[]]]]]; intros Heq;
          repeat (apply string_cons_inj in Heq as [? Heq]); discriminate.
    + vm_compute. lia.
Defined.

(** * Further results *)

(** ** The flush *)

Lemma add_entity_extend (e : entity) (d d' : db) :
  add_entity e d = Some d' -> d' = extend [e] d.
Proof.
  destruct e; simpl; intros H;
    repeat match type of H with
           | (if ?c then _ else _) = _ => destruct c; [discriminate|]
           end;
    injection H as <-; unfold extend; simpl; rewrite ?app_nil_r; destruct d; reflexivity.
Qed.

Lemma extend_cons (e : entity) (l : list entity) (d : db) :
  extend l (extend [e] d) = extend (e :: l) d.
Proof.
  unfold extend. destruct e; simpl; rewrite ?app_nil_r, <- ?app_assoc; reflexivity.
Qed.

(** A flush that goes through appends every pending object to its table and
    does nothing else. *)
Lemma add_all_extend (l : list entity) (d d' : db) :
  add_all l d = Some d' -> d' = extend l d.
Proof.
  revert d. induction l as [|e l IH]; simpl; intros d H.
  - injection H as <-. unfold extend. simpl. rewrite !app_nil_r. destruct d; reflexivity.
  - destruct (add_entity e d) as [d1|] eqn:He; [|discriminate].
    apply add_entity_extend in He. subst d1. rewrite (IH _ H). apply extend_cons.
Qed.

(** ** save_config: what is queued and what is rewritten *)

Lemma labelled_app (method : string) (l l' : list entity) :
  labelled method l -> labelled method l' -> labelled method (l ++ l').
Proof.
  intros H H' e He. apply in_app_or in He as [He|He]; [apply H | apply H']; assumption.
Qed.

Lemma labelled_put (method : string) (e : entity) (f : frame) :
  labelled method (f_to_put f) -> labelled method [e] ->
  labelled method (f_to_put (put e f)).
Proof. intros H He. simpl. apply labelled_app; assumption. Qed.

Lemma labelled_puts (method : string) (l : list entity) :
  labelled method l ->
  Forall (fun r => gv_method r = method) (puts_global_values l)
  /\ Forall (fun r => ss_method r = method) (puts_services_settings l)
  /\ puts_settings l = [] /\ puts_custom_configs l = [] /\ puts_plugins l = []
  /\ puts_selects l = [] /\ puts_jobs l = [] /\ puts_plugin_pages l = [].
Proof.
  induction l as [|e l IH]; intros H; [repeat split; constructor|].
  assert (He := H e (or_introl eq_refl)).
  destruct IH as [Hg [Hs [H1 [H2 [H3 [H4 [H5 H6]]]]]]];
    [intros x Hx; apply H; right; assumption|].
  destruct e; try contradiction; simpl; repeat split;
    try assumption; constructor; assumption.
Qed.

(** The frame after one item of a multisite call: what is queued carries
    the label of the caller, the services and the catalogue are not
    touched, the rows that are rewritten take the label of the caller, and
    a caller other than ["autoconf"] rewrites nothing. *)
Lemma multisite_item_keeps (st : db) (config : list (string * string))
    (method server : string) (item : string * string) (f f' : frame) :
  multisite_item config method server item f = Ok f' ->
  (labelled method (f_to_put f) -> labelled method (f_to_put f'))
  /\ (exists tl, f_to_put f' = f_to_put f ++ tl)
  /\ services (f_db f') = services (f_db f)
  /\ metadata (f_db f') = metadata (f_db f)
  /\ same_catalogue (f_db f) (f_db f')
  /\ (rows_ok st method (f_db f) -> rows_ok st method (f_db f'))
  /\ (method <> "autoconf" -> f_db f' = f_db f).
Proof.
  assert (Hsame : forall g : frame,
             f_db g = f_db f -> (exists tl, f_to_put g = f_to_put f ++ tl) ->
             (labelled method (f_to_put f) -> labelled method (f_to_put g)) ->
             (labelled method (f_to_put f) -> labelled method (f_to_put g))
             /\ (exists tl, f_to_put g = f_to_put f ++ tl)
             /\ services (f_db g) = services (f_db f)
             /\ metadata (f_db g) = metadata (f_db f)
             /\ same_catalogue (f_db f) (f_db g)
             /\ (rows_ok st method (f_db f) -> rows_ok st method (f_db g))
             /\ (method <> "autoconf" -> f_db g = f_db f)).
  { intros g Hg Htl Hlab. rewrite Hg.
    split; [assumption|]. split; [assumption|]. split; [reflexivity|].
    split; [reflexivity|]. split; [unfold same_catalogue; repeat split; reflexivity|].
    split; [trivial | reflexivity]. }
  assert (Hnil : exists tl : list entity, f_to_put f = f_to_put f ++ tl)
    by (exists []; symmetry; apply app_nil_r).
  assert (Hdb : forall d : db,
             services d = services (f_db f) -> metadata d = metadata (f_db f) ->
             same_catalogue (f_db f) d ->
             (rows_ok st method (f_db f) -> rows_ok st method d) ->
             String.eqb method "autoconf" = true ->
             (labelled method (f_to_put f) -> labelled method (f_to_put (with_db d f)))
             /\ (exists tl, f_to_put (with_db d f) = f_to_put f ++ tl)
             /\ services (f_db (with_db d f)) = services (f_db f)
             /\ metadata (f_db (with_db d f)) = metadata (f_db f)
             /\ same_catalogue (f_db f) (f_db (with_db d f))
             /\ (rows_ok st method (f_db f) -> rows_ok st method (f_db (with_db d f)))
             /\ (method <> "autoconf" -> f_db (with_db d f) = f_db f)).
  { intros d Hs Hm Hc Hr Hauto. simpl.
    split; [trivial|]. split; [assumption|]. split; [assumption|].
    split; [assumption|]. split; [assumption|]. split; [assumption|].
    intros Hne. apply String.eqb_neq in Hne. congruence. }
  unfold multisite_item, bind.
  destruct (split_suffix (fst item)) as [[key sfx]|e]; [|discriminate]. simpl.
  destruct (setting_default (f_db f) _) as [dflt|];
    [|intros H; injection H as <-; apply Hsame; auto].
  destruct (negb (String.eqb server EmptyString) && Py.startswith key server).
  - unfold service_branch.
    set (key' := Py.replace key (server ++ "_") EmptyString).
    destruct (first _ (services_settings (f_db f))) as [x|].
    + destruct (String.eqb method "autoconf") eqn:Hauto;
        [|intros H; injection H as <-; apply Hsame; auto].
      destruct (redundant config key' (snd item) dflt).
      * intros H; injection H as <-.
        apply Hdb; try reflexivity; [unfold same_catalogue; repeat split; reflexivity|].
        intros [Hg Hs]. split; [exact Hg|]. intros r Hr. apply Hs.
        simpl in Hr. apply (delete_where_incl _ _ r Hr).
      * destruct (f_global_value f) as [|[g|]]; try discriminate.
        destruct (negb (String.eqb g (snd item)));
          [|intros H; injection H as <-; apply Hsame; auto].
        intros H; injection H as <-.
        apply Hdb; try reflexivity; [unfold same_catalogue; repeat split; reflexivity|].
        intros [Hg Hs]. split; [exact Hg|]. intros r Hr.
        simpl in Hr. unfold update_where in Hr.
        apply in_map_iff in Hr as [r0 [Hr0 Hin]].
        destruct (ss_at server key' sfx r0); subst r.
        -- right. reflexivity.
        -- apply Hs. assumption.
    + destruct (redundant config key' (snd item) dflt);
        intros H; injection H as <-; [apply Hsame; auto|].
      apply Hsame; [reflexivity | eexists; reflexivity |].
      intros Hlab. apply labelled_put; [assumption|].
      intros e [<-|[]]. reflexivity.
  - destruct (negb (existsb (String.eqb key) (f_global_values f)));
      [|intros H; injection H as <-; apply Hsame; auto].
    unfold global_branch.
    destruct (gv_value <$> first (gv_at key sfx) (global_values (f_db f))) as [stored|].
    + destruct (String.eqb method "autoconf") eqn:Hauto;
        [|intros H; injection H as <-; apply Hsame; auto].
      destruct (String.eqb (snd item) dflt).
      * intros H; injection H as <-.
        match goal with
        | |- context [with_db ?d ?g] =>
            destruct (Hdb d) as [_ [_ [H1 [H2 [H3 [H4 H5]]]]]];
              try reflexivity; [unfold same_catalogue; repeat split; reflexivity| |]
        end.
        -- intros [Hg Hs]. split; [|exact Hs]. intros r Hr. apply Hg.
           simpl in Hr. apply (delete_where_incl _ _ r Hr).
        -- simpl in *. split; [trivial|]. split; [assumption|]. split; [assumption|].
           split; [assumption|]. split; [assumption|]. split; assumption.
      * destruct (negb (String.eqb stored (snd item)));
          [|intros H; injection H as <-; apply Hsame; auto].
        intros H; injection H as <-.
        match goal with
        | |- context [with_db ?d ?g] =>
            destruct (Hdb d) as [_ [_ [H1 [H2 [H3 [H4 H5]]]]]];
              try reflexivity; [unfold same_catalogue; repeat split; reflexivity| |]
        end.
        -- intros [Hg Hs]. split; [|exact Hs]. intros r Hr.
           simpl in Hr. unfold update_where in Hr.
           apply in_map_iff in Hr as [r0 [Hr0 Hin]].
           destruct (gv_at key sfx r0); subst r.
           ++ right. reflexivity.
           ++ apply Hg. assumption.
        -- simpl in *. split; [trivial|]. split; [assumption|]. split; [assumption|].
           split; [assumption|]. split; [assumption|]. split; assumption.
    + destruct (String.eqb (snd item) dflt);
        intros H; injection H as <-; [apply Hsame; auto|].
      apply Hsame; [reflexivity | eexists; reflexivity |].
      intros Hlab. apply labelled_put; [assumption|].
      intros e [<-|[]]. reflexivity.
Qed.

Lemma keeps_refl (st : db) (method : string) (f : frame) : keeps st method f f.
Proof.
  split; [trivial|]. split; [exists []; symmetry; apply app_nil_r|].
  split; [reflexivity|]. split; [reflexivity|].
  split; [unfold same_catalogue; repeat split; reflexivity|].
  split; [trivial | reflexivity].
Qed.

Lemma keeps_trans (st : db) (method : string) (f g h : frame) :
  keeps st method f g -> keeps st method g h -> keeps st method f h.
Proof.
  intros [L1 [[t1 T1] [S1 [M1 [C1 [R1 D1]]]]]] [L2 [[t2 T2] [S2 [M2 [C2 [R2 D2]]]]]].
  split; [auto|]. split; [exists (t1 ++ t2); rewrite T2, T1, app_assoc; reflexivity|].
  split; [congruence|]. split; [congruence|]. split.
  - unfold same_catalogue in *.
    destruct C1 as [A1 [A2 [A3 [A4 [A5 A6]]]]], C2 as [B1 [B2 [B3 [B4 [B5 B6]]]]].
    repeat split; congruence.
  - split; [auto|]. intros Hne. rewrite (D2 Hne). apply D1. assumption.
Qed.

Lemma keeps_put (st : db) (method : string) (e : entity) (f : frame) :
  labelled method [e] -> keeps st method f (put e f).
Proof.
  intros He. split; [intros H; apply labelled_put; assumption|].
  split; [eexists; reflexivity|]. split; [reflexivity|]. split; [reflexivity|].
  split; [unfold same_catalogue; repeat split; reflexivity|].
  split; [trivial | reflexivity].
Qed.

Lemma for_each_keeps {A : Type} (st : db) (method : string)
    (step : A -> frame -> result frame) (l : list A) :
  (forall x f f', step x f = Ok f' -> keeps st method f f') ->
  forall f f', for_each step l f = Ok f' -> keeps st method f f'.
Proof.
  intros Hstep. induction l as [|x l IH]; simpl; intros f f' H.
  - injection H as <-. apply keeps_refl.
  - unfold bind in H. destruct (step x f) as [f1|] eqn:H1; [|discriminate].
    eapply keeps_trans; [eapply Hstep; eassumption | apply IH; assumption].
Qed.

Lemma multisite_server_keeps (st : db) (config : list (string * string))
    (method server : string) (f f' : frame) :
  multisite_server config method server f = Ok f' -> keeps st method f f'.
Proof.
  unfold multisite_server. intros H.
  eapply keeps_trans; [|eapply for_each_keeps; [|exact H]].
  - destruct (negb (String.eqb server EmptyString) && _); [|apply keeps_refl].
    apply keeps_put. intros e [<-|[]]. exact I.
  - intros item g g' Hg. apply (multisite_item_keeps st _ _ _ _ _ _ Hg).
Qed.

(** In single-site mode nothing is rewritten once the caller's rows are
    gone, whoever the caller is. *)
Lemma single_site_item_keeps (st : db) (method : string) (item : string * string)
    (f f' : frame) :
  (forall x, In x (global_values (f_db f)) -> gv_method x <> method) ->
  single_site_item method item f = Ok f' ->
  keeps st method f f' /\ f_db f' = f_db f.
Proof.
  intros Hown H. assert (Hdb := single_site_item_db _ _ _ _ Hown H).
  split; [|assumption].
  revert H. unfold single_site_item, bind.
  destruct (split_suffix (fst item)) as [[key sfx]|e]; [|discriminate]. simpl.
  destruct (match setting_default (f_db f) key with Some d => _ | None => false end);
    intros H; injection H as <-; [apply keeps_refl|].
  unfold single_site_store in *.
  destruct (first (gv_at key sfx) (global_values (f_db f))) as [stored|] eqn:Hf.
  - apply find_some in Hf as [Hin _]. apply Hown in Hin. apply String.eqb_neq in Hin.
    rewrite Hin. apply keeps_refl.
  - apply keeps_put. intros e [<-|[]]. reflexivity.
Qed.

Lemma single_site_loop_keeps (st : db) (method : string) (l : list (string * string))
    (f f' : frame) :
  (forall x, In x (global_values (f_db f)) -> gv_method x <> method) ->
  for_each (single_site_item method) l f = Ok f' ->
  keeps st method f f' /\ f_db f' = f_db f.
Proof.
  revert f. induction l as [|item l IH]; simpl; intros f Hown H.
  - injection H as <-. split; [apply keeps_refl | reflexivity].
  - unfold bind in H. destruct (single_site_item method item f) as [f1|] eqn:H1; [|discriminate].
    destruct (single_site_item_keeps st _ _ _ _ Hown H1) as [K1 D1].
    destruct (IH f1) as [K2 D2]; [rewrite D1; assumption | assumption |].
    split; [eapply keeps_trans; eassumption | congruence].
Qed.

Lemma rows_ok_start (st : db) (method : string) : rows_ok st method (delete_own method st).
Proof.
  split; intros r Hr; simpl in Hr; unfold delete_where in Hr;
    apply filter_In in Hr as [Hin Hm]; apply negb_true_iff in Hm;
    apply String.eqb_neq in Hm; left; split; assumption.
Qed.

(** The frame at the end of the session block of save_config. *)
Lemma save_config_body_keeps (st : db) (config : list (string * string)) (method : string)
    (f : frame) :
  save_config_body config method (start (delete_own method st)) = Ok f ->
  keeps st method (start (delete_own method st)) f
  /\ (forall multisite, dict_get config "MULTISITE" = Some multisite ->
                        multisite <> "yes" -> f_db f = delete_own method st).
Proof.
  unfold save_config_body. destruct config as [|item rest] eqn:Hcfg.
  - intros H; injection H as <-. split; [apply keeps_refl | reflexivity].
  - rewrite <- Hcfg. unfold getitem.
    destruct (dict_get config "MULTISITE") as [m|]; simpl bind; [|discriminate].
    destruct (String.eqb m "yes") eqn:Hm.
    + destruct (dict_get config "SERVER_NAME") as [names|]; simpl bind; [|discriminate].
      intros H. split.
      * eapply for_each_keeps; [|exact H]. intros s g g'. apply multisite_server_keeps.
      * intros multisite Hget Hne. injection Hget as <-.
        apply String.eqb_eq in Hm. contradiction.
    + destruct (dict_get config "SERVER_NAME") as [names|]; simpl bind; [|discriminate].
      intros H.
      apply (single_site_loop_keeps st) in H as [K D];
        [|intros x; apply delete_own_foreign].
      split; [|intros _ _ _; exact D].
      eapply keeps_trans; [|exact K]. apply keeps_put. intros e [<-|[]]. exact I.
Qed.

Lemma mark_first_config_saved_tables (d : db) :
  services (mark_first_config_saved d) = services d
  /\ settings (mark_first_config_saved d) = settings d
  /\ global_values (mark_first_config_saved d) = global_values d
  /\ services_settings (mark_first_config_saved d) = services_settings d
  /\ custom_configs (mark_first_config_saved d) = custom_configs d
  /\ plugins (mark_first_config_saved d) = plugins d.
Proof.
  unfold mark_first_config_saved. destruct (metadata d) as [m|]; [|repeat split].
  destruct (negb (first_config_saved m)); repeat split.
Qed.

(** What a successful call returns: the frame its session block ended
    with, flushed. *)
Lemma save_config_success (st st' : db) (config : list (string * string)) (method : string) :
  save_config st config method = Returned EmptyString st' ->
  exists f, save_config_body config method (start (delete_own method st)) = Ok f
            /\ st' = extend (f_to_put f) (mark_first_config_saved (f_db f)).
Proof.
  unfold save_config.
  destruct (save_config_body config method (start (delete_own method st))) as [f|e];
    [|discriminate].
  destruct (add_all (f_to_put f) (mark_first_config_saved (f_db f))) as [d'|] eqn:Hc;
    [|intros H; injection H as H _; discriminate].
  intros H; injection H as <-. exists f. split; [reflexivity|].
  apply add_all_extend. assumption.
Qed.

Lemma labelled_nil (method : string) : labelled method [].
Proof. intros e []. Qed.

(** X1. A writer other than ["autoconf"] never touches a value of another
    writer: after a successful call the global values and the service
    settings are the rows the other writers had, in their order, followed
    by rows under the caller's label; services are only added, and the
    settings, custom configurations and plugins are as they were. *)
Theorem save_config_keeps_other_writers (st st' : db) (config : list (string * string))
    (method : string) :
  method <> "autoconf" ->
  save_config st config method = Returned EmptyString st' ->
  exists new_services new_values new_settings,
    services st' = services st ++ new_services
    /\ global_values st'
       = delete_where (fun r => String.eqb (gv_method r) method) (global_values st)
         ++ new_values
    /\ Forall (fun r => gv_method r = method) new_values
    /\ services_settings st'
       = delete_where (fun r => String.eqb (ss_method r) method) (services_settings st)
         ++ new_settings
    /\ Forall (fun r => ss_method r = method) new_settings
    /\ settings st' = settings st
    /\ custom_configs st' = custom_configs st
    /\ plugins st' = plugins st.
Proof.
  intros Hne Hsave. destruct (save_config_success _ _ _ _ Hsave) as [f [Hbody ->]].
  destruct (save_config_body_keeps _ _ _ _ Hbody) as [[L [_ [_ [_ [_ [_ D]]]]]] _].
  specialize (L (labelled_nil method)). specialize (D Hne). simpl in D.
  destruct (labelled_puts _ _ L) as [Hg [Hs [P1 [P2 [P3 _]]]]].
  destruct (mark_first_config_saved_tables (f_db f)) as [M1 [M2 [M3 [M4 [M5 M6]]]]].
  exists (puts_services (f_to_put f)), (puts_global_values (f_to_put f)),
    (puts_services_settings (f_to_put f)).
  unfold extend. simpl. rewrite M1, M2, M3, M4, M5, M6, P1, P2, P3, !app_nil_r, D.
  repeat split; assumption.
Qed.

Lemma save_config_keeps_other_writers_witness :
  exists st' new_values,
    save_config manual_store single_site_error_config "scheduler" = Returned EmptyString st'
    /\ global_values st' = [manual_level] ++ new_values
    /\ Forall (fun r => gv_method r = "scheduler") new_values.
Proof.
  eexists.
  assert (Hsave : save_config manual_store single_site_error_config "scheduler"
                  = Returned EmptyString _) by (vm_compute; reflexivity).
  destruct (save_config_keeps_other_writers manual_store _ single_site_error_config
              "scheduler" ltac:(discriminate) Hsave)
    as [ns [nv [nss [_ [Hg [Hf _]]]]]].
  exists nv. split; [exact Hsave|]. split; [exact Hg | exact Hf].
Defined.

(** X2. Whoever the caller is, after a successful call every global value
    and every service setting is either a row that another writer had
    before the call, unchanged, or a row under the caller's label: a value
    is never left rewritten under a foreign label. *)
Theorem save_config_labels (st st' : db) (config : list (string * string)) (method : string) :
  save_config st config method = Returned EmptyString st' ->
  (forall r, In r (global_values st') ->
     (In r (global_values st) /\ gv_method r <> method) \/ gv_method r = method)
  /\ (forall r, In r (services_settings st') ->
        (In r (services_settings st) /\ ss_method r <> method) \/ ss_method r = method).
Proof.
  intros Hsave. destruct (save_config_success _ _ _ _ Hsave) as [f [Hbody ->]].
  destruct (save_config_body_keeps _ _ _ _ Hbody) as [[L [_ [_ [_ [_ [R _]]]]]] _].
  specialize (L (labelled_nil method)). specialize (R (rows_ok_start st method)).
  destruct (labelled_puts _ _ L) as [Hg [Hs _]].
  destruct (mark_first_config_saved_tables (f_db f)) as [_ [_ [M3 [M4 _]]]].
  destruct R as [Rg Rs]. unfold extend. simpl. rewrite M3, M4.
  rewrite List.Forall_forall in Hg. rewrite List.Forall_forall in Hs.
  split; intros r Hr; apply in_app_or in Hr as [Hr|Hr].
  - apply Rg. assumption.
  - right. apply Hg. assumption.
  - apply Rs. assumption.
  - right. apply Hs. assumption.
Qed.

Lemma save_config_labels_witness :
  exists st',
    save_config manual_store multisite_error_config "autoconf" = Returned EmptyString st'
    /\ forall r, In r (global_values st') ->
         (In r (global_values manual_store) /\ gv_method r <> "autoconf")
         \/ gv_method r = "autoconf".
Proof.
  eexists.
  assert (Hsave : save_config manual_store multisite_error_config "autoconf"
                  = Returned EmptyString _) by (vm_compute; reflexivity).
  split; [exact Hsave|].
  apply (save_config_labels manual_store _ multisite_error_config "autoconf" Hsave).
Defined.

Lemma puts_services_In (l : list entity) (s : string) :
  In (E_Services s) l -> In s (puts_services l).
Proof.
  intros H. unfold puts_services. apply in_flat_map. exists (E_Services s).
  split; [assumption | left; reflexivity].
Qed.

Lemma puts_global_values_In (l : list entity) (r : Global_values_row) :
  In (E_Global_values r) l -> In r (puts_global_values l).
Proof.
  intros H. unfold puts_global_values. apply in_flat_map. exists (E_Global_values r).
  split; [assumption | left; reflexivity].
Qed.

Lemma keeps_queued (st : db) (method : string) (f f' : frame) (e : entity) :
  keeps st method f f' -> In e (f_to_put f) -> In e (f_to_put f').
Proof.
  intros [_ [[tl ->] _]] H. apply in_or_app. left. assumption.
Qed.

(** After the loop over the server names every non-empty name is a stored
    service or is queued to become one. *)
Lemma multisite_servers_ensured (st : db) (config : list (string * string))
    (method : string) (l : list string) (name : string) :
  In name l -> name <> EmptyString ->
  forall f f', for_each (multisite_server config method) l f = Ok f' ->
    In name (services (f_db f')) \/ In (E_Services name) (f_to_put f').
Proof.
  intros Hin Hne. induction l as [|s l IH]; [contradiction|].
  simpl. intros f f' H. unfold bind in H.
  destruct (multisite_server config method s f) as [f1|] eqn:H1; [|discriminate].
  assert (K2 : keeps st method f1 f').
  { eapply for_each_keeps; [|exact H]. intros x g g'. apply multisite_server_keeps. }
  destruct Hin as [->|Hin]; [|apply (IH Hin f1 f' H)].
  assert (Hone : In name (services (f_db f1)) \/ In (E_Services name) (f_to_put f1)).
  { unfold multisite_server in H1. apply String.eqb_neq in Hne.
    rewrite Hne in H1. simpl negb in H1.
    destruct (existsb (String.eqb name) (services (f_db f))) eqn:Hex; simpl in H1.
    - left. apply existsb_eqb_In in Hex.
      assert (K1 : keeps st method f f1).
      { eapply for_each_keeps; [|exact H1]. intros x g g' Hg.
        apply (multisite_item_keeps st _ _ _ _ _ _ Hg). }
      destruct K1 as [_ [_ [S1 _]]]. rewrite S1. assumption.
    - right.
      assert (K1 : keeps st method (put (E_Services name) f) f1).
      { eapply for_each_keeps; [|exact H1]. intros x g g' Hg.
        apply (multisite_item_keeps st _ _ _ _ _ _ Hg). }
      apply (keeps_queued _ _ _ _ _ K1). simpl. apply in_or_app. right. left. reflexivity. }
  destruct Hone as [Hs|Hq].
  - left. destruct K2 as [_ [_ [S2 _]]]. rewrite S2. assumption.
  - right. apply (keeps_queued _ _ _ _ _ K2 Hq).
Qed.

(** X3. save_config never removes a service. After a successful multisite
    call every non-empty name of [SERVER_NAME] is a stored service, and
    after a successful single-site call the first name is. *)
Theorem save_config_services (st st' : db) (config : list (string * string))
    (method : string) :
  save_config st config method = Returned EmptyString st' ->
  (forall s, In s (services st) -> In s (services st'))
  /\ (forall names name,
         dict_get config "MULTISITE" = Some "yes" ->
         dict_get config "SERVER_NAME" = Some names ->
         In name (Py.split names Py.space) -> name <> EmptyString ->
         In name (services st'))
  /\ (forall multisite names,
         dict_get config "MULTISITE" = Some multisite -> multisite <> "yes" ->
         dict_get config "SERVER_NAME" = Some names ->
         In (List.hd EmptyString (Py.split names Py.space)) (services st')).
Proof.
  intros Hsave. destruct (save_config_success _ _ _ _ Hsave) as [f [Hbody ->]].
  destruct (save_config_body_keeps _ _ _ _ Hbody) as [[_ [_ [S _]]] _]. simpl in S.
  destruct (mark_first_config_saved_tables (f_db f)) as [M1 _].
  unfold extend. simpl. rewrite M1, S. split; [|split].
  - intros s Hs. apply in_or_app. left. assumption.
  - intros names name Hm Hn Hin Hne.
    rewrite (save_config_body_multisite _ _ _ _ Hm Hn) in Hbody.
    destruct (multisite_servers_ensured st _ _ _ _ Hin Hne _ _ Hbody) as [H|H].
    + rewrite S in H. apply in_or_app. left. assumption.
    + apply in_or_app. right. apply puts_services_In. assumption.
  - intros multisite names Hm Hne Hn. apply in_or_app. right. apply puts_services_In.
    apply (single_site_queues_service config method multisite names _ f Hm Hne Hn Hbody).
Qed.

Lemma save_config_services_witness :
  exists st',
    save_config scenario_store scenario_config "manual" = Returned EmptyString st'
    /\ In "b" (services st').
Proof.
  eexists.
  assert (Hsave : save_config scenario_store scenario_config "manual"
                  = Returned EmptyString _) by (vm_compute; reflexivity).
  split; [exact Hsave|].
  destruct (save_config_services scenario_store _ scenario_config "manual" Hsave)
    as [_ [Hmulti _]].
  apply (Hmulti "a b" "b"); [reflexivity | reflexivity | | discriminate].
  right. left. reflexivity.
Defined.

(** X4. A successful save_config leaves [first_config_saved] set whenever
    the metadata row exists, so that is_first_config_saved answers true
    from then on; the other two flags of the row are as they were. Without
    the row the answer stays false. *)
Theorem save_config_marks_first_config (st st' : db) (config : list (string * string))
    (method : string) :
  save_config st config method = Returned EmptyString st' ->
  is_first_config_saved st' = match metadata st with Some _ => true | None => false end
  /\ db_is_initialized st' = db_is_initialized st
  /\ is_autoconf_loaded st' = is_autoconf_loaded st.
Proof.
  intros Hsave. destruct (save_config_success _ _ _ _ Hsave) as [f [Hbody ->]].
  destruct (save_config_body_keeps _ _ _ _ Hbody) as [[_ [_ [_ [M _]]]] _]. simpl in M.
  unfold is_first_config_saved, db_is_initialized, is_autoconf_loaded, extend. simpl.
  unfold mark_first_config_saved. rewrite M.
  destruct (metadata st) as [m|]; [|rewrite M; repeat split].
  destruct (first_config_saved m) eqn:Hm; simpl; [rewrite M, Hm|]; repeat split.
Qed.

Lemma save_config_marks_first_config_witness :
  exists st',
    save_config (set_metadata (Some {| is_initialized := true; first_config_saved := false;
                                       autoconf_loaded := false; version := "1.5" |}) catalog)
      single_site_config "manual" = Returned EmptyString st'
    /\ is_first_config_saved st' = true.
Proof.
  eexists.
  assert (Hsave : save_config (set_metadata (Some {| is_initialized := true;
                                                     first_config_saved := false;
                                                     autoconf_loaded := false;
                                                     version := "1.5" |}) catalog)
                    single_site_config "manual" = Returned EmptyString _)
    by (vm_compute; reflexivity).
  split; [exact Hsave|].
  apply (save_config_marks_first_config _ _ single_site_config "manual" Hsave).
Defined.

Lemma single_site_item_stores (st : db) (method : string) (K v k : string) (n : N)
    (f f' : frame) :
  f_db f = delete_own method st ->
  split_suffix K = Ok (k, n) ->
  setting_default st k <> Some v ->
  single_site_item method (K, v) f = Ok f' ->
  In (E_Global_values {| gv_setting_id := k; gv_value := v; gv_suffix := n;
                         gv_method := method |}) (f_to_put f')
  \/ exists r, In r (global_values st) /\ gv_at k n r = true /\ gv_method r <> method.
Proof.
  intros Hdb Hsplit Hdef. unfold single_site_item, bind. simpl fst. rewrite Hsplit. simpl.
  assert (Hset : setting_default (f_db f) k = setting_default st k)
    by (rewrite Hdb; reflexivity).
  rewrite Hset.
  assert (Hnot : match setting_default st k with
                 | Some d => String.eqb v d
                 | None => false
                 end = false).
  { destruct (setting_default st k) as [d|]; [|reflexivity].
    apply String.eqb_neq. intros ->. apply Hdef. reflexivity. }
  rewrite Hnot. intros H; injection H as <-. unfold single_site_store.
  destruct (first (gv_at k n) (global_values (f_db f))) as [stored|] eqn:Hf.
  - right. apply find_some in Hf as [Hin Hat]. rewrite Hdb in Hin.
    exists stored. split; [|split; [assumption|]].
    + simpl in Hin. apply (delete_where_incl _ _ _ Hin).
    + apply (delete_own_foreign method st). assumption.
  - left. simpl. apply in_or_app. right. left. reflexivity.
Qed.

Lemma single_site_loop_stores (st : db) (method : string) (K v k : string) (n : N)
    (l : list (string * string)) :
  In (K, v) l ->
  split_suffix K = Ok (k, n) ->
  setting_default st k <> Some v ->
  forall f f', f_db f = delete_own method st ->
    for_each (single_site_item method) l f = Ok f' ->
    In (E_Global_values {| gv_setting_id := k; gv_value := v; gv_suffix := n;
                           gv_method := method |}) (f_to_put f')
    \/ exists r, In r (global_values st) /\ gv_at k n r = true /\ gv_method r <> method.
Proof.
  intros Hin Hsplit Hdef. induction l as [|item l IH]; [contradiction|].
  simpl. intros f f' Hdb H. unfold bind in H.
  destruct (single_site_item method item f) as [f1|] eqn:H1; [|discriminate].
  assert (Hown : forall x, In x (global_values (f_db f)) -> gv_method x <> method)
    by (rewrite Hdb; intros x; apply delete_own_foreign).
  destruct (single_site_item_keeps st _ _ _ _ Hown H1) as [_ D1].
  assert (Hown1 : forall x, In x (global_values (f_db f1)) -> gv_method x <> method)
    by (rewrite D1; assumption).
  destruct Hin as [->|Hin]; [|apply (IH Hin f1 f'); [congruence | assumption]].
  destruct (single_site_item_stores st _ _ _ _ _ _ _ Hdb Hsplit Hdef H1) as [Hq|Hr];
    [left | right; assumption].
  destruct (single_site_loop_keeps st _ _ _ _ Hown1 H) as [K2 _].
  apply (keeps_queued _ _ _ _ _ K2 Hq).
Qed.

(** X5. In single-site mode every submitted value that is not the default
    of a known setting ends up stored under the caller's label (the key
    need not name a setting at all) unless another writer holds a row at
    that key and suffix. *)
Theorem single_site_stores_value (st st' : db) (config : list (string * string))
    (method multisite K v k : string) (n : N) :
  dict_get config "MULTISITE" = Some multisite -> multisite <> "yes" ->
  In (K, v) config ->
  split_suffix K = Ok (k, n) ->
  setting_default st k <> Some v ->
  save_config st config method = Returned EmptyString st' ->
  In {| gv_setting_id := k; gv_value := v; gv_suffix := n; gv_method := method |}
     (global_values st')
  \/ exists r, In r (global_values st) /\ gv_at k n r = true /\ gv_method r <> method.
Proof.
  intros Hm Hne Hin Hsplit Hdef Hsave.
  destruct (save_config_success _ _ _ _ Hsave) as [f [Hbody ->]].
  rewrite (save_config_body_single_site _ _ _ _ Hm Hne) in Hbody.
  unfold getitem in Hbody.
  destruct (dict_get config "SERVER_NAME") as [names|]; simpl bind in Hbody; [|discriminate].
  destruct (single_site_loop_stores st method K v k n config Hin Hsplit Hdef
              (put (E_Services (List.hd EmptyString (Py.split names Py.space)))
                 (start (delete_own method st))) f eq_refl Hbody)
    as [Hq|Hr]; [left | right; assumption].
  unfold extend. simpl. apply in_or_app. right. apply puts_global_values_In. assumption.
Qed.

Lemma single_site_stores_value_witness :
  exists st',
    save_config catalog unknown_key_config "manual" = Returned EmptyString st'
    /\ In {| gv_setting_id := "NO_SUCH_KEY"; gv_value := "x"; gv_suffix := 2;
             gv_method := "manual" |} (global_values st').
Proof.
  eexists.
  assert (Hsave : save_config catalog unknown_key_config "manual" = Returned EmptyString _)
    by (vm_compute; reflexivity).
  split; [exact Hsave|].
  assert (Hin : In ("NO_SUCH_KEY_2", "x") unknown_key_config)
    by (right; right; left; reflexivity).
  assert (Hne : "no" <> "yes") by discriminate.
  assert (Hdef : setting_default catalog "NO_SUCH_KEY" <> Some "x") by discriminate.
  destruct (single_site_stores_value catalog _ unknown_key_config "manual" "no"
              "NO_SUCH_KEY_2" "x" "NO_SUCH_KEY" 2%N eq_refl Hne Hin eq_refl Hdef Hsave)
    as [H|[r [[] _]]].
  exact H.
Defined.

(** X6. An empty submission is a wipe of the caller's values and nothing
    else: the call succeeds, no global value or service setting under the
    caller's label is left, every row of another writer is still there,
    and services are as they were. *)
Theorem save_config_empty_wipes (st : db) (method : string) :
  exists st',
    save_config st [] method = Returned EmptyString st'
    /\ (forall r, In r (global_values st')
                  <-> In r (global_values st) /\ gv_method r <> method)
    /\ (forall r, In r (services_settings st')
                  <-> In r (services_settings st) /\ ss_method r <> method)
    /\ services st' = services st.
Proof.
  eexists. split; [reflexivity|].
  destruct (mark_first_config_saved_tables (delete_own method st)) as [M1 [_ [M3 [M4 _]]]].
  simpl f_db. simpl f_to_put. simpl add_all.
  rewrite M1, M3, M4. simpl. unfold delete_where.
  split; [|split; [|reflexivity]]; intros r; rewrite filter_In, negb_true_iff;
    (split; intros [H1 H2]; split; [assumption | | assumption |]);
    try (apply String.eqb_neq; assumption).
Qed.

(** ** get_config: the turns of the suffix loop *)

Lemma probe_parts (d : db) (methods : bool) (service : string) (t : Settings_row)
    (n : N) (c : gmap string cfg_value) :
  probe d methods service t n c =
  if negb (String.eqb (set_context t) "multisite")
  then Ok (probe_global d methods t n c, Break)
  else
    c2 <- probe_seed methods service t n (probe_global d methods t n c) ;;
    Ok (probe_override d methods service t n c2, probe_flow d service t n).
Proof.
  unfold probe, probe_flow, probe_override. fold (probe_global d methods t n c).
  destruct (negb (String.eqb (set_context t) "multisite")); [reflexivity|].
  fold (probe_seed methods service t n (probe_global d methods t n c)).
  destruct (probe_seed methods service t n (probe_global d methods t n c)) as [c2|e];
    [|reflexivity].
  simpl bind. destruct (first _ (services_settings d)).
  - destruct (negb (set_multiple t)); reflexivity.
  - destruct (0 <? n)%N; [|destruct (negb (set_multiple t))]; reflexivity.
Qed.

Lemma is_Some_insert_keep (c : gmap string cfg_value) (k k' : string) (v : cfg_value) :
  is_Some (c !! k) -> is_Some (<[k' := v]> c !! k).
Proof.
  intros H. destruct (decide (k' = k)) as [->|Hne].
  - rewrite lookup_insert_eq. eauto.
  - rewrite lookup_insert_ne by assumption. assumption.
Qed.

Lemma suffix_tail_0 : suffix_tail 0 = EmptyString.
Proof. reflexivity. Qed.

Lemma service_key_0 (service id : string) :
  (service ++ "_" ++ id ++ suffix_tail 0)%string = (service ++ "_" ++ id)%string.
Proof. rewrite suffix_tail_0, append_empty_r. reflexivity. Qed.

Lemma global_key_0 (id : string) : (id ++ suffix_tail 0)%string = id.
Proof. rewrite suffix_tail_0. apply append_empty_r. Qed.

Lemma probe_global_facts (d : db) (methods : bool) (t : Settings_row) (n : N)
    (c : gmap string cfg_value) :
  (forall k, is_Some (c !! k) -> is_Some (probe_global d methods t n c !! k))
  /\ (forall k, k <> (set_id t ++ suffix_tail n)%string ->
                probe_global d methods t n c !! k = c !! k)
  /\ (n = 0%N -> probe_global d methods t n c !! set_id t = Some (global_entry d methods t)).
Proof.
  unfold probe_global, global_entry. split; [|split].
  - intros k Hk. destruct (first _ (global_values d)); [apply is_Some_insert_keep; assumption|].
    destruct (n =? 0)%N; [apply is_Some_insert_keep|]; assumption.
  - intros k Hk. destruct (first _ (global_values d)).
    + rewrite lookup_insert_ne by congruence. reflexivity.
    + destruct (n =? 0)%N eqn:Hn; [|reflexivity]. apply N.eqb_eq in Hn. subst n.
      rewrite global_key_0 in Hk. rewrite lookup_insert_ne by congruence. reflexivity.
  - intros ->. destruct (first _ (global_values d)).
    + rewrite global_key_0. apply lookup_insert_eq.
    + simpl. apply lookup_insert_eq.
Qed.

Lemma probe_seed_facts (methods : bool) (service : string) (t : Settings_row) (n : N)
    (c c2 : gmap string cfg_value) :
  probe_seed methods service t n c = Ok c2 ->
  (forall k, is_Some (c !! k) -> is_Some (c2 !! k))
  /\ (forall k, k <> (service ++ "_" ++ set_id t ++ suffix_tail n)%string ->
                c2 !! k = c !! k)
  /\ (n = 0%N -> forall x m, c !! set_id t = Some (shaped methods x m) ->
      c2 !! (service ++ "_" ++ set_id t)%string = Some (shaped methods x "default")).
Proof.
  unfold probe_seed. destruct (n =? 0)%N eqn:Hn.
  - apply N.eqb_eq in Hn. subst n. unfold bind.
    destruct (seeded methods c (set_id t)) as [v|e] eqn:Hv; [|discriminate].
    intros H; injection H as <-. split; [|split].
    + intros k Hk. apply is_Some_insert_keep. assumption.
    + intros k Hk. rewrite service_key_0 in Hk.
      rewrite lookup_insert_ne by congruence. reflexivity.
    + intros _ x m Hx. rewrite lookup_insert_eq. f_equal.
      unfold seeded in Hv. rewrite Hx in Hv. destruct methods; simpl in *; congruence.
  - apply N.eqb_neq in Hn.
    assert (Hpos : (0 <? n)%N = true) by (apply N.ltb_lt; lia).
    destruct (c !! (set_id t ++ "_" ++ Py.str n)%string) as [v0|].
    + unfold bind.
      destruct (seeded methods c (set_id t ++ "_" ++ Py.str n)) as [v|e]; [|discriminate].
      intros H; injection H as <-. split; [|split].
      * intros k Hk. apply is_Some_insert_keep. assumption.
      * intros k Hk. rewrite (suffix_tail_pos n Hpos) in Hk.
        rewrite lookup_insert_ne by congruence. reflexivity.
      * intros Hz. contradiction.
    + intros H; injection H as <-. split; [|split]; [auto | reflexivity | contradiction].
Qed.

Lemma probe_override_facts (d : db) (methods : bool) (service : string) (t : Settings_row)
    (n : N) (c : gmap string cfg_value) :
  (forall k, is_Some (c !! k) -> is_Some (probe_override d methods service t n c !! k))
  /\ (forall k, k <> (service ++ "_" ++ set_id t ++ suffix_tail n)%string ->
                probe_override d methods service t n c !! k = c !! k)
  /\ (forall s, first (ss_at service (set_id t) n) (services_settings d) = Some s ->
                probe_override d methods service t n c
                  !! (service ++ "_" ++ set_id t ++ suffix_tail n)%string
                = Some (shaped methods (ss_value s) (ss_method s)))
  /\ (first (ss_at service (set_id t) n) (services_settings d) = None ->
      probe_override d methods service t n c = c).
Proof.
  unfold probe_override. destruct (first _ (services_settings d)) as [s|].
  - split; [|split; [|split]].
    + intros k Hk. apply is_Some_insert_keep. assumption.
    + intros k Hk. rewrite lookup_insert_ne by congruence. reflexivity.
    + intros s' H; injection H as <-. apply lookup_insert_eq.
    + discriminate.
  - split; [|split; [|split]]; [auto | reflexivity | discriminate | reflexivity].
Qed.

(** More turns than needed change nothing. *)
Lemma probe_loop_fuel (d : db) (methods : bool) (service : string) (t : Settings_row)
    (fuel fuel' : nat) (m : N) (c : gmap string cfg_value)
    (r : result (gmap string cfg_value * N)) :
  probe_loop fuel d methods service t m c = Some r -> (fuel <= fuel')%nat ->
  probe_loop fuel' d methods service t m c = Some r.
Proof.
  revert fuel' m c. induction fuel as [|fuel IH]; intros fuel' m c H Hle; [discriminate|].
  destruct fuel' as [|fuel']; [lia|]. simpl in *.
  destruct (probe d methods service t m c) as [[c1 [|]]|e]; try assumption.
  apply IH; [assumption | lia].
Qed.

Lemma project_settings_fuel (d : db) (methods : bool) (service : string)
    (fuel fuel' : nat) (l : list Settings_row) (c : gmap string cfg_value)
    (r : result (gmap string cfg_value)) :
  project_settings fuel d methods service l c = Some r -> (fuel <= fuel')%nat ->
  project_settings fuel' d methods service l c = Some r.
Proof.
  revert c. induction l as [|t l IH]; intros c H Hle; [assumption|]. simpl in *.
  destruct (probe_loop fuel d methods service t 0 c) as [r1|] eqn:H1; [|discriminate].
  rewrite (probe_loop_fuel _ _ _ _ _ _ _ _ _ H1 Hle).
  destruct r1 as [[c1 n1]|e]; [apply IH|]; assumption.
Qed.

Lemma project_services_fuel (d : db) (methods : bool) (fuel fuel' : nat)
    (l : list string) (c : gmap string cfg_value) (r : result (gmap string cfg_value)) :
  project_services fuel d methods l c = Some r -> (fuel <= fuel')%nat ->
  project_services fuel' d methods l c = Some r.
Proof.
  revert c. induction l as [|s l IH]; intros c H Hle; [assumption|]. simpl in *.
  destruct (project_settings fuel d methods s (settings d) c) as [r1|] eqn:H1; [|discriminate].
  rewrite (project_settings_fuel _ _ _ _ _ _ _ _ H1 Hle).
  destruct r1 as [c1|e]; [apply IH|]; assumption.
Qed.

Section Walk.

Variables (st : db) (methods : bool).
Variable Q : gmap string cfg_value -> Prop.
Variables (service0 : string) (t0 : Settings_row).

Hypothesis Hkeep : forall service t n c c' fl,
  In service (services st) -> In t (settings st) ->
  probe st methods service t n c = Ok (c', fl) -> Q c -> Q c'.
Hypothesis Hhit : forall c c' fl,
  probe st methods service0 t0 0 c = Ok (c', fl) -> Q c'.

Lemma walk_loop (service : string) (t : Settings_row) :
  In service (services st) -> In t (settings st) ->
  forall (fuel : nat) (m : N) (c : gmap string cfg_value),
    well_shaped methods c ->
    (m <= max_suffix st + 1)%N ->
    (N.to_nat (max_suffix st) + 2 <= fuel + N.to_nat m)%nat ->
    exists c' n', probe_loop fuel st methods service t m c = Some (Ok (c', n'))
      /\ well_shaped methods c'
      /\ (Q c -> Q c')
      /\ (service = service0 -> t = t0 -> m = 0%N -> Q c').
Proof.
  intros Hsvc Ht. induction fuel as [|fuel IH]; intros m c Hc Hm Hfuel; [lia|].
  simpl. destruct (probe_step st methods service t m c Hc) as [c1 [Hp [Hc1 _]]].
  rewrite Hp. destruct (probe_flow st service t m) eqn:Hflow.
  - exists c1, m. split; [reflexivity|]. split; [assumption|]. split.
    + apply (Hkeep _ _ _ _ _ _ Hsvc Ht Hp).
    + intros -> -> ->. apply (Hhit _ _ _ Hp).
  - apply probe_flow_next in Hflow.
    destruct (IH (m + 1)%N c1 Hc1) as [c' [n' [Hrun [Hc' [Hk _]]]]]; [lia | lia |].
    exists c', n'. split; [assumption|]. split; [assumption|]. split.
    + intros Hq. apply Hk. apply (Hkeep _ _ _ _ _ _ Hsvc Ht Hp Hq).
    + intros -> -> ->. apply Hk. apply (Hhit _ _ _ Hp).
Qed.

Lemma walk_settings (service : string) :
  In service (services st) ->
  forall (l : list Settings_row) (c : gmap string cfg_value),
    (forall t, In t l -> In t (settings st)) ->
    well_shaped methods c ->
    exists c', project_settings (enough_fuel st) st methods service l c = Some (Ok c')
      /\ well_shaped methods c'
      /\ (Q c -> Q c')
      /\ (service = service0 -> In t0 l -> Q c').
Proof.
  intros Hsvc. induction l as [|t l IH]; intros c Hsub Hc; simpl.
  - exists c. split; [reflexivity|]. split; [assumption|]. split; [trivial | intros _ []].
  - assert (Ht : In t (settings st)) by (apply Hsub; left; reflexivity).
    destruct (walk_loop service t Hsvc Ht (enough_fuel st) 0%N c Hc)
      as [c1 [n1 [-> [Hc1 [Hk Hh]]]]]; [lia | unfold enough_fuel; lia |].
    destruct (IH c1) as [c' [-> [Hc' [Hk' Hh']]]];
      [intros x Hx; apply Hsub; right; assumption | assumption |].
    exists c'. split; [reflexivity|]. split; [assumption|]. split; [auto|].
    intros Hs [->|Hin]; [apply Hk', Hh; auto | auto].
Qed.

Lemma walk_services :
  forall (l : list string) (c : gmap string cfg_value),
    (forall s, In s l -> In s (services st)) ->
    well_shaped methods c ->
    exists c', project_services (enough_fuel st) st methods l c = Some (Ok c')
      /\ well_shaped methods c'
      /\ (Q c -> Q c')
      /\ (In service0 l -> In t0 (settings st) -> Q c').
Proof.
  induction l as [|s l IH]; intros c Hsub Hc; simpl.
  - exists c. split; [reflexivity|]. split; [assumption|]. split; [trivial | intros []].
  - assert (Hsvc : In s (services st)) by (apply Hsub; left; reflexivity).
    destruct (walk_settings s Hsvc (settings st) c (fun t H => H) Hc)
      as [c1 [-> [Hc1 [Hk Hh]]]].
    destruct (IH c1) as [c' [-> [Hc' [Hk' Hh']]]];
      [intros x Hx; apply Hsub; right; assumption | assumption |].
    exists c'. split; [reflexivity|]. split; [assumption|]. split; [auto|].
    intros [->|Hin] Ht; [apply Hk', Hh; auto | auto].
Qed.

(** get_config runs to its end without raising; what every turn keeps and
    one turn establishes holds of the mapping it returns. *)
Lemma walk :
  exists c, (forall fuel, (enough_fuel st <= fuel)%nat ->
                          get_config fuel st methods = Some (Ok c))
            /\ well_shaped methods c
            /\ (In service0 (services st) -> In t0 (settings st) -> Q c).
Proof.
  destruct (walk_services (services st) ∅ (fun s H => H) (well_shaped_empty methods))
    as [c [Hrun [Hc [_ Hh]]]].
  exists c. split; [|split; assumption].
  intros fuel Hfuel. unfold get_config.
  apply (project_services_fuel _ _ _ _ _ _ _ Hrun Hfuel).
Qed.

End Walk.

Lemma probe_inv (d : db) (methods : bool) (service : string) (t : Settings_row) (n : N)
    (c c' : gmap string cfg_value) (fl : flow) :
  probe d methods service t n c = Ok (c', fl) ->
  (set_context t <> "multisite" /\ c' = probe_global d methods t n c)
  \/ (set_context t = "multisite"
      /\ exists c2, probe_seed methods service t n (probe_global d methods t n c) = Ok c2
                    /\ c' = probe_override d methods service t n c2).
Proof.
  rewrite probe_parts. destruct (String.eqb (set_context t) "multisite") eqn:Hctx; simpl negb.
  - apply String.eqb_eq in Hctx. cbv iota. unfold bind.
    destruct (probe_seed methods service t n (probe_global d methods t n c)) as [c2|e];
      [|discriminate].
    intros H; injection H as <- _. right. split; [assumption|]. exists c2. split; reflexivity.
  - apply String.eqb_neq in Hctx. intros H; injection H as <- _. left. split; auto.
Qed.

Lemma probe_monotone (d : db) (methods : bool) (service : string) (t : Settings_row)
    (n : N) (c c' : gmap string cfg_value) (fl : flow) (k : string) :
  probe d methods service t n c = Ok (c', fl) ->
  is_Some (c !! k) -> is_Some (c' !! k).
Proof.
  intros Hp Hk. destruct (probe_global_facts d methods t n c) as [G1 _].
  destruct (probe_inv _ _ _ _ _ _ _ _ Hp) as [[_ ->]|[_ [c2 [Hs ->]]]]; [auto|].
  destruct (probe_seed_facts _ _ _ _ _ _ Hs) as [S1 _].
  destruct (probe_override_facts d methods service t n c2) as [O1 _]. auto.
Qed.

Lemma probe_other_key (d : db) (methods : bool) (service : string) (t : Settings_row)
    (n : N) (c c' : gmap string cfg_value) (fl : flow) (k : string) :
  probe d methods service t n c = Ok (c', fl) ->
  k <> (set_id t ++ suffix_tail n)%string ->
  (set_context t = "multisite" ->
   k <> (service ++ "_" ++ set_id t ++ suffix_tail n)%string) ->
  c' !! k = c !! k.
Proof.
  intros Hp Hg Hs. destruct (probe_global_facts d methods t n c) as [_ [G3 _]].
  destruct (probe_inv _ _ _ _ _ _ _ _ Hp) as [[_ ->]|[Hctx [c2 [Hseed ->]]]]; [auto|].
  destruct (probe_seed_facts _ _ _ _ _ _ Hseed) as [_ [S3 _]].
  destruct (probe_override_facts d methods service t n c2) as [_ [O4 _]].
  rewrite O4, S3 by auto. auto.
Qed.

Lemma probe_global_key (d : db) (methods : bool) (service : string) (t : Settings_row)
    (c c' : gmap string cfg_value) (fl : flow) :
  probe d methods service t 0 c = Ok (c', fl) ->
  (set_context t = "multisite" -> (service ++ "_" ++ set_id t)%string <> set_id t) ->
  c' !! set_id t = Some (global_entry d methods t).
Proof.
  intros Hp Hne. destruct (probe_global_facts d methods t 0 c) as [_ [_ G2]].
  destruct (probe_inv _ _ _ _ _ _ _ _ Hp) as [[_ ->]|[Hctx [c2 [Hseed ->]]]]; [auto|].
  destruct (probe_seed_facts _ _ _ _ _ _ Hseed) as [_ [S3 _]].
  destruct (probe_override_facts d methods service t 0 c2) as [_ [O4 _]].
  specialize (Hne Hctx).
  rewrite O4, S3 by (rewrite service_key_0; congruence). auto.
Qed.

Lemma global_entry_shaped (d : db) (methods : bool) (t : Settings_row) :
  exists m, global_entry d methods t = shaped methods (global_value_of d t) m.
Proof.
  unfold global_entry, global_value_of.
  destruct (first _ (global_values d)); eauto.
Qed.

Lemma probe_service_key (d : db) (methods : bool) (service : string) (t : Settings_row)
    (c c' : gmap string cfg_value) (fl : flow) :
  probe d methods service t 0 c = Ok (c', fl) ->
  set_context t = "multisite" ->
  c' !! (service ++ "_" ++ set_id t)%string = Some (service_entry d methods service t).
Proof.
  intros Hp Hctx. destruct (probe_global_facts d methods t 0 c) as [_ [_ G2]].
  destruct (probe_inv _ _ _ _ _ _ _ _ Hp) as [[Hno _]|[_ [c2 [Hseed ->]]]]; [contradiction|].
  destruct (probe_seed_facts _ _ _ _ _ _ Hseed) as [_ [_ S2]].
  destruct (probe_override_facts d methods service t 0 c2) as [_ [_ [O2 O3]]].
  unfold service_entry.
  destruct (first (ss_at service (set_id t) 0) (services_settings d)) as [s|].
  - rewrite <- (service_key_0 service (set_id t)). apply O2. reflexivity.
  - rewrite (O3 eq_refl). destruct (global_entry_shaped d methods t) as [m Hm].
    apply (S2 eq_refl (global_value_of d t) m). rewrite <- Hm. apply G2. reflexivity.
Qed.

Lemma get_config_runs (st : db) (methods : bool) :
  exists c, forall fuel, (enough_fuel st <= fuel)%nat ->
                         get_config fuel st methods = Some (Ok c).
Proof.
  destruct (walk st methods (fun _ => True) EmptyString url_setting
              (fun _ _ _ _ _ _ _ _ _ _ => I) (fun _ _ _ _ => I)) as [c [H _]].
  exists c. exact H.
Qed.

(** X7. get_config always runs to its end: on every store the suffix loops
    stop and no lookup raises, and once the bound on the turns is at least
    the largest stored suffix plus two, the mapping returned does not depend
    on the bound. With [methods] set every value of that mapping is a
    dictionary with a value and a method. *)
Theorem get_config_total (st : db) (methods : bool) :
  exists c, (forall fuel, (enough_fuel st <= fuel)%nat ->
                          get_config fuel st methods = Some (Ok c))
            /\ well_shaped methods c.
Proof.
  destruct (walk st methods (fun _ => True) EmptyString url_setting
              (fun _ _ _ _ _ _ _ _ _ _ => I) (fun _ _ _ _ => I)) as [c [H [Hw _]]].
  exists c. split; assumption.
Qed.

(** X8. Keys of the projection: when the store holds at least one service,
    every setting id is a key of the mapping that get_config returns, and
    for every service and every setting of context multisite the key made
    of the service id, an underscore and the setting id is one too. *)
Theorem get_config_keys (st : db) (methods : bool) :
  exists c,
    (forall fuel, (enough_fuel st <= fuel)%nat -> get_config fuel st methods = Some (Ok c))
    /\ (services st <> [] -> forall t, In t (settings st) -> is_Some (c !! set_id t))
    /\ (forall service t, In service (services st) -> In t (settings st) ->
                          set_context t = "multisite" ->
                          is_Some (c !! (service ++ "_" ++ set_id t)%string)).
Proof.
  destruct (get_config_runs st methods) as [c Hc]. exists c. split; [exact Hc|].
  assert (Hsame : forall c0, (forall fuel, (enough_fuel st <= fuel)%nat ->
                                get_config fuel st methods = Some (Ok c0)) -> c0 = c).
  { intros c0 H0. specialize (H0 _ (Nat.le_refl _)). specialize (Hc _ (Nat.le_refl _)).
    congruence. }
  split.
  - intros Hne t Ht. destruct (services st) as [|service0 rest] eqn:Hs; [contradiction|].
    destruct (walk st methods (fun c => is_Some (c !! set_id t)) service0 t) as [c0 [H0 [_ Hq]]].
    + intros service t' n c1 c1' fl _ _ Hp. apply (probe_monotone _ _ _ _ _ _ _ _ _ Hp).
    + intros c1 c1' fl Hp. destruct (probe_global_facts st methods t 0 c1) as [_ [_ G2]].
      destruct (probe_inv _ _ _ _ _ _ _ _ Hp) as [[_ ->]|[_ [c2 [Hseed ->]]]].
      * rewrite G2 by reflexivity. eauto.
      * destruct (probe_seed_facts _ _ _ _ _ _ Hseed) as [S1 _].
        destruct (probe_override_facts st methods service0 t 0 c2) as [O1 _].
        apply O1, S1. rewrite G2 by reflexivity. eauto.
    + rewrite <- (Hsame c0 H0). apply Hq; [rewrite Hs; left; reflexivity | assumption].
  - intros service t Hsvc Ht Hctx.
    destruct (walk st methods (fun c => is_Some (c !! (service ++ "_" ++ set_id t)%string))
                service t) as [c0 [H0 [_ Hq]]].
    + intros service' t' n c1 c1' fl _ _ Hp. apply (probe_monotone _ _ _ _ _ _ _ _ _ Hp).
    + intros c1 c1' fl Hp. rewrite (probe_service_key _ _ _ _ _ _ _ Hp Hctx). eauto.
    + rewrite <- (Hsame c0 H0). apply Hq; assumption.
Qed.

Lemma get_config_keys_witness :
  exists c, get_config 2 one_service false = Some (Ok c)
            /\ is_Some (c !! "LOG_LEVEL")
            /\ is_Some (c !! "app_REVERSE_PROXY_URL").
Proof.
  destruct (get_config_keys one_service false) as [c [Hrun [Hglobal Hservice]]].
  exists c. split; [apply Hrun; vm_compute; lia|]. split.
  - apply (Hglobal ltac:(discriminate) level_setting). right. right. left. reflexivity.
  - apply (Hservice "app" url_setting); [left; reflexivity | | reflexivity].
    right. right. right. left. reflexivity.
Defined.

Lemma global_entry_same (d : db) (methods : bool) (t t' : Settings_row) :
  set_id t' = set_id t -> set_default t' = set_default t ->
  global_entry d methods t' = global_entry d methods t.
Proof. unfold global_entry. intros -> ->. reflexivity. Qed.

Lemma service_entry_same (d : db) (methods : bool) (service : string) (t t' : Settings_row) :
  set_id t' = set_id t -> set_default t' = set_default t ->
  service_entry d methods service t' = service_entry d methods service t.
Proof. unfold service_entry, global_value_of. intros -> ->. reflexivity. Qed.

(** What the projection shows under a setting id. *)
Lemma get_config_shows_global (st : db) (methods : bool) (t : Settings_row) :
  In t (settings st) ->
  services st <> [] ->
  (forall t', In t' (settings st) -> set_id t' = set_id t ->
              set_default t' = set_default t) ->
  no_collision st (set_id t) ->
  exists c,
    (forall fuel, (enough_fuel st <= fuel)%nat -> get_config fuel st methods = Some (Ok c))
    /\ c !! set_id t = Some (global_entry st methods t).
Proof.
  intros Ht Hne Hdefault Hfree.
  destruct (services st) as [|service0 rest] eqn:Hs; [contradiction|].
  assert (Hsvc0 : In service0 (services st)) by (rewrite Hs; left; reflexivity).
  assert (Hstep : forall service t' n c c' fl,
             In service (services st) -> In t' (settings st) ->
             probe st methods service t' n c = Ok (c', fl) ->
             (set_id t' = set_id t -> n = 0%N ->
              c' !! set_id t = Some (global_entry st methods t))
             /\ (c !! set_id t = Some (global_entry st methods t) ->
                 c' !! set_id t = Some (global_entry st methods t))).
  { intros service t' n c c' fl Hsvc Ht' Hp.
    destruct (Hfree service t' n Hsvc Ht') as [Hskey Hgkey].
    assert (Hhit : set_id t' = set_id t -> n = 0%N ->
                   c' !! set_id t = Some (global_entry st methods t)).
    { intros Hid ->. rewrite <- (global_entry_same st methods t t' Hid (Hdefault t' Ht' Hid)).
      rewrite <- Hid. apply (probe_global_key _ _ _ _ _ _ _ Hp).
      intros _ Heq. apply Hskey. rewrite service_key_0. congruence. }
    split; [assumption|]. intros Hq.
    destruct (N.eq_dec n 0%N) as [Hn|Hn].
    - destruct (String.eqb (set_id t') (set_id t)) eqn:Hid.
      + apply String.eqb_eq in Hid. auto.
      + apply String.eqb_neq in Hid.
        rewrite (probe_other_key _ _ _ _ _ _ _ _ _ Hp); [assumption| |intros _; congruence].
        subst n. rewrite global_key_0. congruence.
    - rewrite (probe_other_key _ _ _ _ _ _ _ _ _ Hp); [assumption| |intros _; congruence].
      intros Heq. apply Hgkey; [lia | congruence]. }
  destruct (walk st methods (fun c => c !! set_id t = Some (global_entry st methods t))
              service0 t) as [c [Hrun [_ Hq]]].
  - intros service t' n c c' fl Hsvc Ht' Hp. apply (Hstep _ _ _ _ _ _ Hsvc Ht' Hp).
  - intros c c' fl Hp. destruct (Hstep _ _ _ _ _ _ Hsvc0 Ht Hp) as [H1 _].
    apply H1; reflexivity.
  - exists c. split; [assumption|]. apply Hq; assumption.
Qed.

(** X9. What get_config shows under a setting id: the value and the method
    of the global value stored at suffix 0, or the default with the method
    ["default"] when none is stored. This holds when the store has a
    service, the settings that share the id share the default, and no
    suffixed key or service key of the projection has the same name. *)
Theorem get_config_global_value (st : db) (methods : bool) (t : Settings_row) :
  In t (settings st) ->
  services st <> [] ->
  (forall t', In t' (settings st) -> set_id t' = set_id t ->
              set_default t' = set_default t) ->
  no_collision st (set_id t) ->
  exists c,
    (forall fuel, (enough_fuel st <= fuel)%nat -> get_config fuel st methods = Some (Ok c))
    /\ c !! set_id t = Some (global_entry st methods t).
Proof. exact (get_config_shows_global st methods t). Qed.

(** X10. What get_config shows under the key of a service for a setting of
    context multisite: the value and the method of the service's own
    setting at suffix 0 when it has one; otherwise the global value at
    suffix 0, or the default, always with the method ["default"]. This
    holds when no other key of the projection has the same name. *)
Theorem get_config_service_value (st : db) (methods : bool) (service : string)
    (t : Settings_row) :
  In service (services st) ->
  In t (settings st) ->
  set_context t = "multisite" ->
  (forall t', In t' (settings st) -> set_id t' = set_id t ->
              set_default t' = set_default t) ->
  sole_writer st service t ->
  exists c,
    (forall fuel, (enough_fuel st <= fuel)%nat -> get_config fuel st methods = Some (Ok c))
    /\ c !! (service ++ "_" ++ set_id t)%string = Some (service_entry st methods service t).
Proof.
  intros Hsvc0 Ht Hctx Hdefault Hsole.
  set (key := (service ++ "_" ++ set_id t)%string).
  assert (Hstep : forall service' t' n c c' fl,
             In service' (services st) -> In t' (settings st) ->
             probe st methods service' t' n c = Ok (c', fl) ->
             c !! key = Some (service_entry st methods service t) ->
             c' !! key = Some (service_entry st methods service t)).
  { intros service' t' n c c' fl Hsvc Ht' Hp Hq.
    destruct (Hsole service' t' n Hsvc Ht') as [Hgkey Hskey].
    destruct (String.eqb (service' ++ "_" ++ set_id t' ++ suffix_tail n) key) eqn:Hk.
    - apply String.eqb_eq in Hk. destruct (Hskey Hk) as [-> [Hid ->]].
      destruct (String.eqb (set_context t') "multisite") eqn:Hc'.
      + apply String.eqb_eq in Hc'.
        rewrite <- (service_entry_same st methods service t t' Hid (Hdefault t' Ht' Hid)).
        unfold key. rewrite <- Hid. apply (probe_service_key _ _ _ _ _ _ _ Hp Hc').
      + apply String.eqb_neq in Hc'.
        rewrite (probe_other_key _ _ _ _ _ _ _ _ _ Hp); [assumption | | contradiction].
        intros Heq. apply Hgkey. symmetry. exact Heq.
    - apply String.eqb_neq in Hk.
      rewrite (probe_other_key _ _ _ _ _ _ _ _ _ Hp); [assumption | | intros _; congruence].
      intros Heq. apply Hgkey. symmetry. exact Heq. }
  destruct (walk st methods (fun c => c !! key = Some (service_entry st methods service t))
              service t) as [c [Hrun [_ Hq]]].
  - exact Hstep.
  - intros c c' fl Hp. apply (probe_service_key _ _ _ _ _ _ _ Hp Hctx).
  - exists c. split; [assumption|]. apply Hq; assumption.
Qed.

Ltac strip_chars H := repeat (apply string_cons_inj in H as [? H]).

Lemma suffix_tail_empty (n : N) : suffix_tail n = EmptyString -> n = 0%N.
Proof.
  unfold suffix_tail. destruct (0 <? n)%N eqn:Hn; [discriminate|].
  intros _. apply N.ltb_ge in Hn. lia.
Qed.

Lemma layered_no_collision : no_collision layered_store "LOG_LEVEL".
Proof.
  intros service t n Hsvc Ht. destruct Hsvc as [<-|[]]. split.
  - intros Heq. apply string_cons_inj in Heq as [Heq _]. discriminate Heq.
  - intros Hn. apply N.ltb_lt in Hn. rewrite (suffix_tail_pos n Hn).
    destruct Ht as [<-|[<-|[<-|[<-|[]]]]]; intros Heq; strip_chars Heq; discriminate.
Qed.

Lemma layered_sole_writer : sole_writer layered_store "app" url_setting.
Proof.
  intros service t n Hsvc Ht. destruct Hsvc as [<-|[]]. split.
  - destruct Ht as [<-|[<-|[<-|[<-|[]]]]]; intros Heq;
      apply string_cons_inj in Heq as [Heq _]; discriminate Heq.
  - intros Heq. split; [reflexivity|].
    destruct Ht as [<-|[<-|[<-|[<-|[]]]]]; strip_chars Heq; try discriminate.
    split; [reflexivity | apply suffix_tail_empty; assumption].
Qed.

Lemma get_config_global_value_witness :
  exists c, get_config 2 layered_store true = Some (Ok c)
            /\ c !! "LOG_LEVEL" = Some (WithMethod "warn" "manual").
Proof.
  destruct (get_config_global_value layered_store true level_setting) as [c [Hrun Hc]].
  - right. right. left. reflexivity.
  - discriminate.
  - intros t Ht Hid.
    destruct Ht as [<-|[<-|[<-|[<-|[]]]]]; try discriminate Hid; reflexivity.
  - exact layered_no_collision.
  - exists c. split; [apply Hrun; vm_compute; lia | exact Hc].
Defined.

Lemma get_config_service_value_witness :
  exists c, get_config 2 layered_store true = Some (Ok c)
            /\ c !! "app_REVERSE_PROXY_URL" = Some (WithMethod "/x" "scheduler").
Proof.
  destruct (get_config_service_value layered_store true "app" url_setting)
    as [c [Hrun Hc]].
  - left. reflexivity.
  - right. right. right. left. reflexivity.
  - reflexivity.
  - intros t Ht Hid.
    destruct Ht as [<-|[<-|[<-|[<-|[]]]]]; try discriminate Hid; reflexivity.
  - exact layered_sole_writer.
  - exists c. split; [apply Hrun; vm_compute; lia | exact Hc].
Defined.

(** ** get_config: with and without the methods *)

Lemma bare_shaped (value method : string) :
  bare (shaped true value method) = shaped false value method.
Proof. reflexivity. Qed.

Lemma probe_global_bare (d : db) (t : Settings_row) (n : N) (c : gmap string cfg_value) :
  probe_global d false t n (bare <$> c) = bare <$> probe_global d true t n c.
Proof.
  unfold probe_global. destruct (first _ (global_values d)).
  - rewrite fmap_insert. reflexivity.
  - destruct (n =? 0)%N; [rewrite fmap_insert|]; reflexivity.
Qed.

Lemma seeded_bare (c : gmap string cfg_value) (k : string) (v : cfg_value) :
  seeded true c k = Ok v -> seeded false (bare <$> c) k = Ok (bare v).
Proof.
  unfold seeded. rewrite lookup_fmap. destruct (c !! k) as [[x|x m]|]; simpl;
    try discriminate.
  intros H; injection H as <-. reflexivity.
Qed.

Lemma probe_seed_bare (service : string) (t : Settings_row) (n : N)
    (c c2 : gmap string cfg_value) :
  probe_seed true service t n c = Ok c2 ->
  probe_seed false service t n (bare <$> c) = Ok (bare <$> c2).
Proof.
  unfold probe_seed. destruct (n =? 0)%N.
  - unfold bind. destruct (seeded true c (set_id t)) as [v|e] eqn:Hv; [|discriminate].
    intros H; injection H as <-. rewrite (seeded_bare _ _ _ Hv), fmap_insert. reflexivity.
  - rewrite lookup_fmap. destruct (c !! (set_id t ++ "_" ++ Py.str n)%string) as [v0|]; simpl.
    + unfold bind.
      destruct (seeded true c (set_id t ++ "_" ++ Py.str n)) as [v|e] eqn:Hv; [|discriminate].
      intros H; injection H as <-. rewrite (seeded_bare _ _ _ Hv), fmap_insert. reflexivity.
    + intros H; injection H as <-. reflexivity.
Qed.

Lemma probe_override_bare (d : db) (service : string) (t : Settings_row) (n : N)
    (c : gmap string cfg_value) :
  probe_override d false service t n (bare <$> c)
  = bare <$> probe_override d true service t n c.
Proof.
  unfold probe_override. destruct (first _ (services_settings d)); [|reflexivity].
  rewrite fmap_insert. reflexivity.
Qed.

Lemma probe_bare (d : db) (service : string) (t : Settings_row) (n : N)
    (c c' : gmap string cfg_value) (fl : flow) :
  probe d true service t n c = Ok (c', fl) ->
  probe d false service t n (bare <$> c) = Ok (bare <$> c', fl).
Proof.
  rewrite !probe_parts, probe_global_bare.
  destruct (negb (String.eqb (set_context t) "multisite")).
  - intros H; injection H as <- <-. reflexivity.
  - unfold bind.
    destruct (probe_seed true service t n (probe_global d true t n c)) as [c2|e] eqn:Hs;
      [|discriminate].
    rewrite (probe_seed_bare _ _ _ _ _ Hs), probe_override_bare.
    intros H; injection H as <- <-. reflexivity.
Qed.

Lemma probe_loop_bare (d : db) (service : string) (t : Settings_row) (fuel : nat) :
  forall (m : N) (c c' : gmap string cfg_value) (n' : N),
    probe_loop fuel d true service t m c = Some (Ok (c', n')) ->
    probe_loop fuel d false service t m (bare <$> c) = Some (Ok (bare <$> c', n')).
Proof.
  induction fuel as [|fuel IH]; intros m c c' n' H; [discriminate|]. simpl in *.
  destruct (probe d true service t m c) as [[c1 fl]|e] eqn:Hp; [|discriminate].
  rewrite (probe_bare _ _ _ _ _ _ _ Hp). destruct fl.
  - injection H as <- <-. reflexivity.
  - apply IH. assumption.
Qed.

Lemma project_settings_bare (d : db) (service : string) (fuel : nat)
    (l : list Settings_row) :
  forall (c c' : gmap string cfg_value),
    project_settings fuel d true service l c = Some (Ok c') ->
    project_settings fuel d false service l (bare <$> c) = Some (Ok (bare <$> c')).
Proof.
  induction l as [|t l IH]; intros c c' H; simpl in *.
  - injection H as <-. reflexivity.
  - destruct (probe_loop fuel d true service t 0 c) as [[[c1 n1]|e]|] eqn:Hl; try discriminate.
    rewrite (probe_loop_bare _ _ _ _ _ _ _ _ Hl). apply IH. assumption.
Qed.

Lemma project_services_bare (d : db) (fuel : nat) (l : list string) :
  forall (c c' : gmap string cfg_value),
    project_services fuel d true l c = Some (Ok c') ->
    project_services fuel d false l (bare <$> c) = Some (Ok (bare <$> c')).
Proof.
  induction l as [|s l IH]; intros c c' H; simpl in *.
  - injection H as <-. reflexivity.
  - destruct (project_settings fuel d true s (settings d) c) as [[c1|e]|] eqn:Hl;
      try discriminate.
    rewrite (project_settings_bare _ _ _ _ _ _ Hl). apply IH. assumption.
Qed.

(** X11. The flag [methods] changes the shape of the values and nothing
    else: the mapping that get_config returns without it is the mapping it
    returns with it, each dictionary replaced by its ["value"]; the keys
    are the same. *)
Theorem get_config_methods_erased (st : db) :
  exists c,
    forall fuel, (enough_fuel st <= fuel)%nat ->
      get_config fuel st true = Some (Ok c)
      /\ get_config fuel st false = Some (Ok (bare <$> c)).
Proof.
  destruct (get_config_runs st true) as [c Hc]. exists c.
  intros fuel Hfuel. specialize (Hc fuel Hfuel). split; [assumption|].
  unfold get_config in *. rewrite <- (fmap_empty bare).
  apply project_services_bare. assumption.
Qed.

(** ** get_config reads four tables *)

Lemma probe_ext (d d' : db) (methods : bool) (service : string) (t : Settings_row)
    (n : N) (c : gmap string cfg_value) :
  global_values d' = global_values d -> services_settings d' = services_settings d ->
  probe d' methods service t n c = probe d methods service t n c.
Proof.
  intros Hg Hs. unfold probe. rewrite Hg, Hs. reflexivity.
Qed.

Lemma probe_loop_ext (d d' : db) (methods : bool) (service : string) (t : Settings_row)
    (fuel : nat) :
  global_values d' = global_values d -> services_settings d' = services_settings d ->
  forall n c, probe_loop fuel d' methods service t n c = probe_loop fuel d methods service t n c.
Proof.
  intros Hg Hs. induction fuel as [|fuel IH]; intros n c; simpl; [reflexivity|].
  rewrite (probe_ext d d') by assumption.
  destruct (probe d methods service t n c) as [[c1 []]|e]; [reflexivity | apply IH | reflexivity].
Qed.

Lemma project_settings_ext (d d' : db) (methods : bool) (service : string) (fuel : nat)
    (l : list Settings_row) :
  global_values d' = global_values d -> services_settings d' = services_settings d ->
  forall c, project_settings fuel d' methods service l c
            = project_settings fuel d methods service l c.
Proof.
  intros Hg Hs. induction l as [|t l IH]; intros c; simpl; [reflexivity|].
  rewrite (probe_loop_ext d d') by assumption.
  destruct (probe_loop fuel d methods service t 0 c) as [[[c1 n1]|e]|]; [apply IH | |];
    reflexivity.
Qed.

Lemma project_services_ext (d d' : db) (methods : bool) (fuel : nat) (l : list string) :
  settings d' = settings d ->
  global_values d' = global_values d -> services_settings d' = services_settings d ->
  forall c, project_services fuel d' methods l c = project_services fuel d methods l c.
Proof.
  intros Ht Hg Hs. induction l as [|s l IH]; intros c; simpl; [reflexivity|].
  rewrite Ht, (project_settings_ext d d') by assumption.
  destruct (project_settings fuel d methods s (settings d) c) as [[c1|e]|]; [apply IH | |];
    reflexivity.
Qed.

(** The projection depends on the services, the settings, the global
    values and the settings of the services, and on nothing else of the
    store. *)
Lemma get_config_ext (d d' : db) (fuel : nat) (methods : bool) :
  same_config_tables d d' -> get_config fuel d' methods = get_config fuel d methods.
Proof.
  intros [Hsv [Ht [Hg Hs]]]. unfold get_config. rewrite Hsv.
  apply project_services_ext; assumption.
Qed.

(** ** save_custom_configs *)

Lemma puts_of_custom_configs (rows : list Custom_configs_row) :
  puts_custom_configs (List.map E_Custom_configs rows) = rows
  /\ puts_services (List.map E_Custom_configs rows) = []
  /\ puts_settings (List.map E_Custom_configs rows) = []
  /\ puts_global_values (List.map E_Custom_configs rows) = []
  /\ puts_services_settings (List.map E_Custom_configs rows) = []
  /\ puts_plugins (List.map E_Custom_configs rows) = []
  /\ puts_selects (List.map E_Custom_configs rows) = []
  /\ puts_jobs (List.map E_Custom_configs rows) = []
  /\ puts_plugin_pages (List.map E_Custom_configs rows) = [].
Proof.
  induction rows as [|r rows IH]; simpl; [repeat split|].
  destruct IH as [-> [-> [-> [-> [-> [-> [-> [-> ->]]]]]]]]. repeat split.
Qed.

(** Flushing custom configurations alone appends them to their table. *)
Lemma extend_custom_configs (rows : list Custom_configs_row) (d : db) :
  extend (List.map E_Custom_configs rows) d
  = set_custom_configs (custom_configs d ++ rows) d.
Proof.
  unfold extend, set_custom_configs.
  destruct (puts_of_custom_configs rows) as [-> [-> [-> [-> [-> [-> [-> [-> ->]]]]]]]].
  rewrite !app_nil_r. reflexivity.
Qed.

Lemma option_eqb_eq (a b : option string) : option_eqb a b = true <-> a = b.
Proof.
  destruct a as [x|], b as [y|]; simpl; try (split; [discriminate | congruence]).
  - rewrite String.eqb_eq. split; congruence.
  - tauto.
Qed.

Lemma cc_at_key (r r' : Custom_configs_row) :
  cc_at (cc_service_id r) (cc_type r) (cc_name r) r' = true <-> cc_key r' = cc_key r.
Proof.
  unfold cc_at, cc_key. rewrite !andb_true_iff, option_eqb_eq, !String.eqb_eq.
  split; [intros [[-> ->] ->]; reflexivity | intros H; injection H; auto].
Qed.

Lemma cc_free_app (rows : list Custom_configs_row) (r r' : Custom_configs_row) :
  cc_free rows r = true -> cc_key r' <> cc_key r -> cc_free (rows ++ [r']) r = true.
Proof.
  unfold cc_free. intros Hfree Hne. rewrite existsb_app. simpl.
  apply negb_true_iff in Hfree. rewrite Hfree, orb_false_r. simpl.
  apply negb_true_iff. destruct (cc_at _ _ _ r') eqn:H; [|reflexivity].
  apply cc_at_key in H. contradiction.
Qed.

(** Rows with free and pairwise distinct keys are flushed. *)
Lemma add_all_custom_configs (rows : list Custom_configs_row) :
  forall d,
    (forall r, In r rows -> cc_free (custom_configs d) r = true) ->
    List.NoDup (List.map cc_key rows) ->
    add_all (List.map E_Custom_configs rows) d
    = Some (set_custom_configs (custom_configs d ++ rows) d).
Proof.
  induction rows as [|r rows IH]; intros d Hfree Hnd; simpl.
  - rewrite app_nil_r. destruct d; reflexivity.
  - assert (Hr := Hfree r (or_introl eq_refl)). unfold cc_free in Hr.
    apply negb_true_iff in Hr. rewrite Hr.
    simpl in Hnd. apply List.NoDup_cons_iff in Hnd as [Hnotin Hnd].
    rewrite IH; [|simpl|assumption].
    + simpl. rewrite <- app_assoc. reflexivity.
    + intros r' Hr'. apply cc_free_app; [apply Hfree; right; assumption|].
      intros Heq. apply Hnotin. rewrite Heq. apply in_map. assumption.
Qed.

Section Custom.

Variable sha256_hexdigest : string -> string.
Variable method : string.

Lemma custom_config_item_new (c : custom_config) (f : cc_frame) :
  cc_free (custom_configs (c_db f)) ((build_config sha256_hexdigest method) c) = true ->
  (custom_config_item sha256_hexdigest method) c f = {| c_db := c_db f; c_to_put := c_to_put f ++ [E_Custom_configs ((build_config sha256_hexdigest method) c)];
                c_message := service_warning (c_db f) c (c_message f) |}.
Proof.
  unfold cc_free. intros H. apply negb_true_iff, first_existsb in H.
  unfold custom_config_item. rewrite H. reflexivity.
Qed.

Lemma custom_config_item_foreign (c : custom_config) (f : cc_frame) :
  method <> "autoconf" ->
  (forall r, In r (custom_configs (c_db f)) -> cc_method r <> method) ->
  cc_free (custom_configs (c_db f)) ((build_config sha256_hexdigest method) c) = false ->
  (custom_config_item sha256_hexdigest method) c f = {| c_db := c_db f; c_to_put := c_to_put f;
                c_message := service_warning (c_db f) c (c_message f) |}.
Proof.
  unfold cc_free. intros Hauto Hown H. apply negb_false_iff in H.
  unfold custom_config_item.
  destruct (first _ (custom_configs (c_db f))) as [r|] eqn:Hr.
  - apply find_some in Hr as [Hin _].
    assert (H1 : String.eqb method (cc_method r) = false)
      by (apply String.eqb_neq; intros Heq; apply (Hown r Hin); congruence).
    assert (H2 : String.eqb method "autoconf" = false) by (apply String.eqb_neq; assumption).
    rewrite H1, H2, andb_false_r. reflexivity.
  - apply first_existsb in Hr. congruence.
Qed.

(** Entries with free keys are all queued, and the store is not touched
    before the flush. *)
Lemma custom_configs_new (l : list custom_config) :
  forall f,
    (forall c, In c l -> cc_free (custom_configs (c_db f)) ((build_config sha256_hexdigest method) c) = true) ->
    List.fold_left (fun f c => (custom_config_item sha256_hexdigest method) c f) l f
    = {| c_db := c_db f;
         c_to_put := c_to_put f ++ List.map E_Custom_configs (List.map (build_config sha256_hexdigest method) l);
         c_message := warned (c_db f) l (c_message f) |}.
Proof.
  induction l as [|c l IH]; intros f Hfree; simpl.
  - rewrite app_nil_r. destruct f; reflexivity.
  - rewrite (custom_config_item_new c f) by (apply Hfree; left; reflexivity).
    rewrite IH; simpl; [|intros c' Hc'; apply Hfree; right; assumption].
    rewrite <- app_assoc. reflexivity.
Qed.

(** A writer other than ["autoconf"], its own rows deleted, updates
    nothing: entries with a free key are queued, the others are dropped. *)
Lemma custom_configs_own (l : list custom_config) :
  method <> "autoconf" ->
  forall f,
    (forall r, In r (custom_configs (c_db f)) -> cc_method r <> method) ->
    List.fold_left (fun f c => (custom_config_item sha256_hexdigest method) c f) l f
    = {| c_db := c_db f;
         c_to_put := c_to_put f
                     ++ List.map E_Custom_configs
                          (List.map (build_config sha256_hexdigest method)
                             (List.filter (fun c => cc_free (custom_configs (c_db f)) ((build_config sha256_hexdigest method) c)) l));
         c_message := warned (c_db f) l (c_message f) |}.
Proof.
  intros Hauto. induction l as [|c l IH]; intros f Hown; simpl.
  - rewrite app_nil_r. destruct f; reflexivity.
  - destruct (cc_free (custom_configs (c_db f)) ((build_config sha256_hexdigest method) c)) eqn:Hfree.
    + rewrite (custom_config_item_new c f Hfree). rewrite IH; simpl; [|assumption].
      rewrite <- app_assoc. reflexivity.
    + rewrite (custom_config_item_foreign c f Hauto Hown Hfree). rewrite IH; simpl; [|assumption].
      reflexivity.
Qed.

Lemma others_foreign (rows : list Custom_configs_row) (r : Custom_configs_row) :
  In r (others method rows) -> cc_method r <> method.
Proof.
  unfold others, delete_where. intros H. apply filter_In in H as [_ H].
  apply negb_true_iff, String.eqb_neq in H. assumption.
Qed.

Lemma others_app (rows rows' : list Custom_configs_row) :
  others method (rows ++ rows') = others method rows ++ others method rows'.
Proof. unfold others, delete_where. apply List.filter_app. Qed.

Lemma others_idem (rows : list Custom_configs_row) :
  others method (others method rows) = others method rows.
Proof.
  unfold others, delete_where. induction rows as [|r rows IH]; simpl; [reflexivity|].
  destruct (negb (String.eqb (cc_method r) method)) eqn:H; simpl; [rewrite H|]; congruence.
Qed.

Lemma others_built (l : list custom_config) : others method (List.map (build_config sha256_hexdigest method) l) = [].
Proof.
  unfold others, delete_where. induction l as [|c l IH]; simpl; [reflexivity|].
  rewrite String.eqb_refl. simpl. assumption.
Qed.

End Custom.

Lemma append_empty (a b : string) : (a ++ b)%string = EmptyString -> a = EmptyString /\ b = EmptyString.
Proof. destruct a; [intros H; split; [reflexivity | exact H] | discriminate]. Qed.

Lemma service_warning_empty (d : db) (c : custom_config) (m : string) :
  service_warning d c m = EmptyString <-> m = EmptyString /\ ~ unknown_service d c.
Proof.
  unfold service_warning, unknown_service.
  destruct (cc_in_service c) as [s|] eqn:Hs.
  - unfold truthy.
    destruct (String.eqb s EmptyString) eqn:He; simpl.
    + apply String.eqb_eq in He. split.
      * intros ->. split; [reflexivity|]. intros [s' [H [Hne _]]]. congruence.
      * tauto.
    + apply String.eqb_neq in He.
      destruct (existsb (String.eqb s) (services d)) eqn:Hex; simpl.
      * apply existsb_eqb_In in Hex. split.
        -- intros ->. split; [reflexivity|]. intros [s' [H [_ Hn]]].
           injection H as <-. contradiction.
        -- tauto.
      * split.
        -- intros H. apply append_empty in H as [_ H]. apply append_empty in H as [_ H].
           discriminate H.
        -- intros [_ Hn]. exfalso. apply Hn. exists s. split; [reflexivity|].
           split; [assumption|]. intros Hin. apply existsb_eqb_In in Hin. congruence.
  - split; [|tauto]. intros ->. split; [reflexivity|]. intros [s [H _]]. discriminate H.
Qed.

Lemma warned_empty (d : db) (l : list custom_config) :
  forall m, warned d l m = EmptyString
            <-> m = EmptyString /\ forall c, In c l -> ~ unknown_service d c.
Proof.
  unfold warned. induction l as [|c l IH]; intros m; simpl.
  - split; [intros ->; split; [reflexivity | contradiction] | tauto].
  - rewrite IH, service_warning_empty. split.
    + intros [[-> Hc] Hl]. split; [reflexivity|]. intros c' [<-|Hc']; auto.
    + intros [-> H]. split; [split; [reflexivity|]|]; auto.
Qed.

(** What a writer other than ["autoconf"] does, in one equation. *)
Lemma save_custom_configs_own (sha256_hexdigest : string -> string) (st : db)
    (l : list custom_config) (method : string) :
  method <> "autoconf" ->
  let d := set_custom_configs (others method (custom_configs st)) st in
  let rows := List.map (build_config sha256_hexdigest method)
                (List.filter (fun c => cc_free (custom_configs d)
                                         (build_config sha256_hexdigest method c)) l) in
  save_custom_configs sha256_hexdigest st l method
  = match add_all (List.map E_Custom_configs rows) d with
    | Some st' => Returned (warned d l EmptyString) st'
    | None =>
        Returned ((if String.eqb (warned d l EmptyString) EmptyString then EmptyString
                   else warned d l EmptyString ++ endl)
                  ++ format_exc (IntegrityError "UNIQUE constraint failed"))%string st
    end.
Proof.
  intros Hauto d rows. unfold save_custom_configs. fold (others method (custom_configs st)).
  fold d. rewrite (custom_configs_own sha256_hexdigest method l Hauto).
  - reflexivity.
  - intros r Hr. apply (others_foreign method (custom_configs st)). exact Hr.
Qed.

(** X12. A writer other than ["autoconf"] never changes a custom
    configuration of another writer: whatever the call returns, the rows of
    the other writers are the same, in the same order; a row under the
    caller's label was stored before or was built from a submitted entry;
    the other tables, and so the mapping of get_config, are as before. *)
Theorem save_custom_configs_other_writers (sha256_hexdigest : string -> string)
    (st st' : db) (l : list custom_config) (method message : string) :
  method <> "autoconf" ->
  save_custom_configs sha256_hexdigest st l method = Returned message st' ->
  others method (custom_configs st') = others method (custom_configs st)
  /\ (forall r, In r (custom_configs st') -> cc_method r = method ->
        In r (custom_configs st)
        \/ exists c, In c l /\ r = build_config sha256_hexdigest method c)
  /\ same_config_tables st st'
  /\ plugins st' = plugins st /\ metadata st' = metadata st
  /\ forall fuel methods, get_config fuel st' methods = get_config fuel st methods.
Proof.
  intros Hauto. rewrite (save_custom_configs_own sha256_hexdigest st l method Hauto).
  cbv zeta. destruct (add_all _ _) as [st1|] eqn:Hc; intros H; injection H as _ <-.
  - apply add_all_extend in Hc. rewrite extend_custom_configs in Hc. subst st1.
    assert (Hsame : same_config_tables st
                      (set_custom_configs
                         (custom_configs (set_custom_configs (others method (custom_configs st)) st)
                          ++ List.map (build_config sha256_hexdigest method)
                               (List.filter
                                  (fun c => cc_free
                                     (custom_configs
                                        (set_custom_configs (others method (custom_configs st)) st))
                                     (build_config sha256_hexdigest method c)) l))
                         (set_custom_configs (others method (custom_configs st)) st)))
      by (repeat split).
    split; [|split; [|split; [exact Hsame|split; [reflexivity|split; [reflexivity|]]]]].
    + simpl. rewrite others_app, others_idem, others_built, app_nil_r. reflexivity.
    + simpl. intros r Hr Hm. apply in_app_or in Hr as [Hr|Hr].
      * left. apply (delete_where_incl _ _ _ Hr).
      * right. apply in_map_iff in Hr as [c [<- Hc]]. apply filter_In in Hc as [Hc _].
        exists c. split; [assumption | reflexivity].
    + intros fuel methods. apply get_config_ext. exact Hsame.
  - split; [reflexivity|]. split; [intros r Hr _; left; assumption|].
    split; [repeat split|]. split; [reflexivity|]. split; reflexivity.
Qed.

Lemma save_custom_configs_other_writers_witness :
  exists message st',
    save_custom_configs plain_digest snippets_store ui_snippets "ui" = Returned message st'
    /\ others "ui" (custom_configs st')
       = [{| cc_service_id := None; cc_type := "http"; cc_name := "gzip";
             cc_data := "gzip on;"; cc_checksum := "gzip on;"; cc_method := "scheduler" |}].
Proof.
  eexists. eexists.
  assert (Hsave : save_custom_configs plain_digest snippets_store ui_snippets "ui"
                  = Returned _ _) by (vm_compute; reflexivity).
  split; [exact Hsave|].
  assert (Hne : "ui" <> "autoconf") by discriminate.
  destruct (save_custom_configs_other_writers plain_digest snippets_store _ ui_snippets
              "ui" _ Hne Hsave) as [H _].
  rewrite H. reflexivity.
Defined.

(** X13. Entries whose keys are free once the caller's rows are deleted,
    and pairwise distinct, are all stored: the call does not fail, and
    get_custom_configs then lists the rows of the other writers followed by
    the submitted entries in their order, under the caller's label, with
    the type in lower case and dashes as underscores and the escaped line
    ends of the value resolved. The message is empty exactly when no entry
    names a service that is not stored; an entry that does is stored all
    the same. *)
Theorem save_custom_configs_round_trip (sha256_hexdigest : string -> string)
    (st : db) (l : list custom_config) (method : string) :
  (forall c, In c l ->
             cc_free (others method (custom_configs st))
               (build_config sha256_hexdigest method c) = true) ->
  List.NoDup (List.map (fun c => cc_key (build_config sha256_hexdigest method c)) l) ->
  exists message st',
    save_custom_configs sha256_hexdigest st l method = Returned message st'
    /\ get_custom_configs st'
       = List.map view_of (others method (custom_configs st))
         ++ List.map (fun c => view_of (build_config sha256_hexdigest method c)) l
    /\ (message = EmptyString <-> forall c, In c l -> ~ unknown_service st c).
Proof.
  intros Hfree Hnd. unfold save_custom_configs. fold (others method (custom_configs st)).
  rewrite (custom_configs_new sha256_hexdigest method l) by exact Hfree.
  cbv beta iota delta [c_db c_to_put c_message]. rewrite app_nil_l.
  rewrite add_all_custom_configs.
  - eexists. eexists. split; [reflexivity|]. split.
    + unfold get_custom_configs. simpl. rewrite List.map_app, List.map_map. reflexivity.
    + rewrite warned_empty. split; [intros [_ H]; exact H | intros H; split; [reflexivity|exact H]].
  - intros r Hr. apply in_map_iff in Hr as [c [<- Hc]]. apply Hfree. assumption.
  - rewrite List.map_map. exact Hnd.
Qed.

Lemma save_custom_configs_round_trip_witness :
  exists message st',
    save_custom_configs plain_digest snippets_store ui_snippets "ui" = Returned message st'
    /\ get_custom_configs st'
       = [{| v_service_id := None; v_type := "http"; v_name := "gzip";
             v_data := "gzip on;"; v_method := "scheduler" |};
          {| v_service_id := Some "app"; v_type := "server_http"; v_name := "open";
             v_data := "allow all;"; v_method := "ui" |};
          {| v_service_id := Some "ghost"; v_type := "server_http"; v_name := "closed";
             v_data := "return 404;"; v_method := "ui" |}]
    /\ message <> EmptyString.
Proof.
  destruct (save_custom_configs_round_trip plain_digest snippets_store ui_snippets "ui")
    as [message [st' [Hsave [Hget Hmsg]]]].
  - intros c [<-|[<-|[]]]; reflexivity.
  - apply List.NoDup_cons; [intros [H|[]]; discriminate H|].
    apply List.NoDup_cons; [intros []|]. apply List.NoDup_nil.
  - exists message, st'. split; [exact Hsave|]. split; [exact Hget|].
    intros Hempty. destruct Hmsg as [Hmsg _].
    apply (Hmsg Hempty {| cc_in_value := "return 404;"; cc_in_service := Some "ghost";
                          cc_in_type := "SERVER-HTTP"; cc_in_name := "closed" |}).
    + right. left. reflexivity.
    + exists "ghost". split; [reflexivity|]. split; [discriminate|].
      intros [H|[]]. discriminate H.
Defined.

(** X14. For a writer other than ["autoconf"] the call can be repeated:
    the same entries submitted again to the store that the call left give
    the same message and leave the store as it is. *)
Theorem save_custom_configs_idempotent (sha256_hexdigest : string -> string)
    (st st' : db) (l : list custom_config) (method message : string) :
  method <> "autoconf" ->
  save_custom_configs sha256_hexdigest st l method = Returned message st' ->
  save_custom_configs sha256_hexdigest st' l method = Returned message st'.
Proof.
  intros Hauto Hsave. assert (Hfirst := Hsave).
  rewrite (save_custom_configs_own sha256_hexdigest st l method Hauto) in Hsave.
  cbv zeta in Hsave. destruct (add_all _ _) as [st1|] eqn:Hc; injection Hsave as Hm <-.
  - rewrite (save_custom_configs_own sha256_hexdigest st1 l method Hauto). cbv zeta.
    assert (Hst1 := Hc). apply add_all_extend in Hst1. rewrite extend_custom_configs in Hst1.
    assert (Hd : set_custom_configs (others method (custom_configs st1)) st1
                 = set_custom_configs (others method (custom_configs st)) st).
    { rewrite Hst1. unfold set_custom_configs at 1. simpl.
      rewrite others_app, others_idem, others_built, app_nil_r. reflexivity. }
    rewrite Hd, Hc, Hm. reflexivity.
  - exact Hfirst.
Qed.

Lemma save_custom_configs_idempotent_witness :
  exists message st',
    save_custom_configs plain_digest snippets_store ui_snippets "ui" = Returned message st'
    /\ save_custom_configs plain_digest st' ui_snippets "ui" = Returned message st'.
Proof.
  eexists. eexists.
  assert (Hsave : save_custom_configs plain_digest snippets_store ui_snippets "ui"
                  = Returned _ _) by (vm_compute; reflexivity).
  split; [exact Hsave|].
  assert (Hne : "ui" <> "autoconf") by discriminate.
  exact (save_custom_configs_idempotent plain_digest snippets_store _ ui_snippets "ui" _
           Hne Hsave).
Defined.

(** ** update_external_plugins: what is kept and what is replaced *)

Lemma NoDup_map_eq {A B : Type} (f : A -> B) (l : list A) (x y : A) :
  List.NoDup (List.map f l) -> In x l -> In y l -> f x = f y -> x = y.
Proof.
  induction l as [|a l IH]; simpl; intros Hnd Hx Hy Hf; [contradiction|].
  apply List.NoDup_cons_iff in Hnd as [Hnotin Hnd].
  destruct Hx as [->|Hx], Hy as [->|Hy]; auto.
  - exfalso. apply Hnotin. rewrite Hf. apply in_map. assumption.
  - exfalso. apply Hnotin. rewrite <- Hf. apply in_map. assumption.
Qed.

Lemma missing_ids_external (st : db) (l : list plugin_manifest) (id : string) :
  In id (missing_ids st l) ->
  exists r, In r (plugins st) /\ pl_external r = true /\ pl_id r = id.
Proof.
  unfold missing_ids. intros H. apply filter_In in H as [H _].
  apply in_map_iff in H as [r [Hid Hr]]. apply filter_In in Hr as [Hr Hext].
  exists r. auto.
Qed.

(** With one row per plugin id, a built-in plugin is not among the
    plugins to delete. *)
Lemma builtin_not_missing (st : db) (l : list plugin_manifest) (r : Plugins_row) :
  List.NoDup (List.map pl_id (plugins st)) ->
  In r (plugins st) -> pl_external r = false ->
  existsb (String.eqb (pl_id r)) (missing_ids st l) = false.
Proof.
  intros Hnd Hr Hext.
  destruct (existsb (String.eqb (pl_id r)) (missing_ids st l)) eqn:Hex; [|reflexivity].
  apply existsb_eqb_In in Hex. apply missing_ids_external in Hex as [r' [Hr' [Hext' Hid]]].
  rewrite (NoDup_map_eq pl_id _ _ _ Hnd Hr' Hr Hid) in Hext'. congruence.
Qed.

Section Replace.

Variable sha256_hexdigest : string -> string.
Variable reconcile : plugin_manifest -> Plugins_row -> up_frame -> up_frame.

Lemma puts_plugins_app (l l' : list entity) :
  puts_plugins (l ++ l') = puts_plugins l ++ puts_plugins l'.
Proof. unfold puts_plugins. apply List.flat_map_app. Qed.

Lemma puts_plugins_none (l : list entity) :
  (forall r, ~ In (E_Plugins r) l) -> puts_plugins l = [].
Proof.
  induction l as [|e l IH]; intros H; [reflexivity|]. simpl.
  rewrite IH by (intros r Hr; apply (H r); right; assumption).
  destruct e; try reflexivity. exfalso. apply (H r). left. reflexivity.
Qed.

Lemma puts_plugins_entities (p : plugin_manifest) :
  puts_plugins (plugin_entities sha256_hexdigest p) = [plugin_row p].
Proof.
  unfold plugin_entities. rewrite puts_plugins_app. simpl.
  rewrite puts_plugins_none; [reflexivity|].
  intros r Hr. apply in_app_or in Hr as [Hr|Hr].
  - apply in_flat_map in Hr as [s [_ Hr]]. unfold setting_entities in Hr.
    apply in_app_or in Hr as [Hr|[Hr|[]]]; [|discriminate Hr].
    apply in_map_iff in Hr as [x [Hx _]]. discriminate Hx.
  - apply in_app_or in Hr as [Hr|Hr]; apply in_map_iff in Hr as [x [Hx _]]; discriminate Hx.
Qed.

Lemma puts_plugins_manifests (l : list plugin_manifest) :
  puts_plugins (List.flat_map (plugin_entities sha256_hexdigest) l) = List.map plugin_row l.
Proof.
  induction l as [|p l IH]; [reflexivity|].
  change (List.flat_map (plugin_entities sha256_hexdigest) (p :: l))
    with (plugin_entities sha256_hexdigest p
          ++ List.flat_map (plugin_entities sha256_hexdigest) l).
  rewrite puts_plugins_app, puts_plugins_entities, IH. reflexivity.
Qed.

(** The outcome of the synchronisation: the manifests are all queued on
    the store with the missing plugins deleted. *)
Lemma update_external_plugins_run (st : db) (l : list plugin_manifest) :
  update_external_plugins sha256_hexdigest reconcile st l
  = match add_all (List.flat_map (plugin_entities sha256_hexdigest) l)
            (delete_plugins (missing_ids st l) st) with
    | Some st' => (Returned EmptyString st', [])
    | None => (Returned commit_failure st, [])
    end.
Proof.
  unfold update_external_plugins. rewrite plugin_items_insert. reflexivity.
Qed.

End Replace.

(** X15. A synchronisation of the external plugins never removes a
    built-in plugin: when the store holds one row per plugin id, every
    plugin that is not external is still stored afterwards, whatever the
    submitted list and whatever the call returns, and so are its settings,
    its jobs and its pages. *)
Theorem update_external_plugins_keeps_builtin (sha256_hexdigest : string -> string)
    (reconcile : plugin_manifest -> Plugins_row -> up_frame -> up_frame)
    (st st' : db) (l : list plugin_manifest) (message : string) (warnings : list string)
    (r : Plugins_row) :
  List.NoDup (List.map pl_id (plugins st)) ->
  update_external_plugins sha256_hexdigest reconcile st l = (Returned message st', warnings) ->
  In r (plugins st) -> pl_external r = false ->
  In r (plugins st')
  /\ (forall s, In s (settings st) -> set_plugin_id s = pl_id r -> In s (settings st'))
  /\ (forall j, In j (jobs st) -> job_plugin_id j = pl_id r -> In j (jobs st'))
  /\ (forall g, In g (plugin_pages st) -> pp_plugin_id g = pl_id r -> In g (plugin_pages st')).
Proof.
  intros Hnd Hrun Hr Hext. rewrite update_external_plugins_run in Hrun.
  assert (Hkeep := builtin_not_missing st l r Hnd Hr Hext).
  destruct (add_all _ _) as [st1|] eqn:Hc; injection Hrun as _ <- _.
  - apply add_all_extend in Hc. subst st1. unfold extend, delete_plugins, delete_where. simpl.
    split; [|split; [|split]].
    + apply in_or_app. left. apply filter_In. split; [assumption|]. rewrite Hkeep. reflexivity.
    + intros s Hs Hid. apply in_or_app. left. apply filter_In. split; [assumption|].
      rewrite Hid, Hkeep. reflexivity.
    + intros j Hj Hid. apply in_or_app. left. apply filter_In. split; [assumption|].
      rewrite Hid, Hkeep. reflexivity.
    + intros g Hg Hid. apply in_or_app. left. apply filter_In. split; [assumption|].
      rewrite Hid, Hkeep. reflexivity.
  - auto.
Qed.

Lemma mixed_store_ids : List.NoDup (List.map pl_id (plugins mixed_store)).
Proof.
  apply List.NoDup_cons; [intros [H|[]]; discriminate H|].
  apply List.NoDup_cons; [intros []|]. apply List.NoDup_nil.
Qed.

Lemma update_external_plugins_keeps_builtin_witness :
  exists st',
    update_external_plugins plain_digest no_reconcile mixed_store [external_manifest]
    = (Returned EmptyString st', [])
    /\ In builtin_plugin (plugins st')
    /\ In {| job_plugin_id := "builtin1"; job_name := "core-job"; job_file := "core.py";
             job_every := "hour"; job_reload := true |} (jobs st').
Proof.
  eexists.
  assert (Hrun : update_external_plugins plain_digest no_reconcile mixed_store
                   [external_manifest] = (Returned EmptyString _, []))
    by (vm_compute; reflexivity).
  split; [exact Hrun|].
  destruct (update_external_plugins_keeps_builtin plain_digest no_reconcile mixed_store _
              [external_manifest] EmptyString [] builtin_plugin mixed_store_ids Hrun)
    as [H1 [_ [H3 _]]]; [left; reflexivity | reflexivity |].
  split; [exact H1|]. apply H3; [left; reflexivity | reflexivity].
Defined.

(** X16. A synchronisation that succeeds replaces the external plugins
    wholesale: with one row per plugin id in the store, the plugins
    afterwards are the built-in ones, as they were and in their order,
    followed by one external row per manifest in the order of the list. No
    id of the list was stored before the call, and nothing was logged. *)
Theorem update_external_plugins_replaces (sha256_hexdigest : string -> string)
    (reconcile : plugin_manifest -> Plugins_row -> up_frame -> up_frame)
    (st st' : db) (l : list plugin_manifest) (warnings : list string) :
  List.NoDup (List.map pl_id (plugins st)) ->
  update_external_plugins sha256_hexdigest reconcile st l = (Returned EmptyString st', warnings) ->
  plugins st' = List.filter (fun r => negb (pl_external r)) (plugins st)
                ++ List.map plugin_row l
  /\ (forall p, In p l -> has_plugin (pm_id p) st = false)
  /\ warnings = [].
Proof.
  intros Hnd Hrun.
  assert (Hfree : forall p, In p l -> has_plugin (pm_id p) st = false).
  { intros p Hp. destruct (has_plugin (pm_id p) st) eqn:Hhas; [|reflexivity].
    rewrite (update_external_plugins_clash sha256_hexdigest reconcile st l p Hp Hhas) in Hrun.
    injection Hrun as Hrun _ _. exfalso. exact (commit_failure_not_empty Hrun). }
  rewrite update_external_plugins_run in Hrun.
  destruct (add_all _ _) as [st1|] eqn:Hc; [injection Hrun as Hst Hw | injection Hrun as Hm _ _].
  - subst st1. apply add_all_extend in Hc. subst st'. split; [|split; [exact Hfree | auto]].
    unfold extend, delete_plugins, delete_where. simpl.
    rewrite puts_plugins_manifests. f_equal.
    apply List.filter_ext_in. intros r Hr. f_equal.
    destruct (pl_external r) eqn:Hext.
    + apply existsb_eqb_In. unfold missing_ids. apply filter_In. split.
      * apply in_map. apply filter_In. split; assumption.
      * apply negb_true_iff.
        destruct (existsb (String.eqb (pl_id r)) (List.map pm_id l)) eqn:Hex; [|reflexivity].
        apply existsb_eqb_In in Hex. apply in_map_iff in Hex as [p [Hid Hp]].
        specialize (Hfree p Hp). unfold has_plugin in Hfree.
        assert (Hin : existsb (fun x => String.eqb (pl_id x) (pm_id p)) (plugins st) = true).
        { apply existsb_exists. exists r. split; [assumption|].
          apply String.eqb_eq. congruence. }
        congruence.
    + apply builtin_not_missing; assumption.
  - exfalso. exact (commit_failure_not_empty Hm).
Qed.

Lemma update_external_plugins_replaces_witness :
  exists st',
    update_external_plugins plain_digest no_reconcile mixed_store [external_manifest]
    = (Returned EmptyString st', [])
    /\ plugins st' = [builtin_plugin; plugin_row external_manifest].
Proof.
  eexists.
  assert (Hrun : update_external_plugins plain_digest no_reconcile mixed_store
                   [external_manifest] = (Returned EmptyString _, []))
    by (vm_compute; reflexivity).
  split; [exact Hrun|].
  destruct (update_external_plugins_replaces plain_digest no_reconcile mixed_store _
              [external_manifest] [] mixed_store_ids Hrun) as [H _].
  rewrite H. reflexivity.
Defined.

Lemma filter_all {A : Type} (p : A -> bool) (l : list A) :
  (forall x, p x = true) -> List.filter p l = l.
Proof.
  intros H. induction l as [|x l IH]; simpl; [reflexivity|]. rewrite H, IH. reflexivity.
Qed.

Lemma filter_none {A : Type} (p : A -> bool) (l : list A) :
  (forall x, p x = false) -> List.filter p l = [].
Proof.
  intros H. induction l as [|x l IH]; simpl; [reflexivity|]. rewrite H, IH. reflexivity.
Qed.

(** Deleting no plugin leaves the store as it is. *)
Lemma delete_plugins_nil (d : db) : delete_plugins [] d = d.
Proof.
  unfold delete_plugins, delete_where. cbn [existsb].
  rewrite (filter_none (fun _ : Settings_row => false)) by reflexivity.
  cbn [List.map existsb].
  rewrite !filter_all by reflexivity. destruct d; reflexivity.
Qed.

(** X17. Submitting the empty list uninstalls every external plugin: the
    call always succeeds, every plugin left was stored before and is
    built-in, and a second empty submission changes nothing more. *)
Theorem update_external_plugins_empty (sha256_hexdigest : string -> string)
    (reconcile : plugin_manifest -> Plugins_row -> up_frame -> up_frame) (st : db) :
  exists st',
    update_external_plugins sha256_hexdigest reconcile st [] = (Returned EmptyString st', [])
    /\ (forall r, In r (plugins st') -> In r (plugins st) /\ pl_external r = false)
    /\ external_ids st' = []
    /\ update_external_plugins sha256_hexdigest reconcile st' []
       = (Returned EmptyString st', []).
Proof.
  rewrite update_external_plugins_run. simpl add_all. eexists. split; [reflexivity|].
  assert (Hall : forall d, missing_ids d [] = external_ids d).
  { intros d. unfold missing_ids, external_ids. simpl.
    induction (List.map pl_id (List.filter pl_external (plugins d))) as [|x xs IH];
      simpl; congruence. }
  assert (Hleft : forall r, In r (plugins (delete_plugins (missing_ids st []) st)) ->
                            In r (plugins st) /\ pl_external r = false).
  { rewrite Hall. unfold delete_plugins, delete_where. simpl.
    intros r Hr. apply filter_In in Hr as [Hr Hgone]. split; [assumption|].
    destruct (pl_external r) eqn:Hext; [|reflexivity].
    apply negb_true_iff in Hgone.
    assert (Hin : In (pl_id r) (external_ids st))
      by (apply in_map, filter_In; split; assumption).
    apply existsb_eqb_In in Hin. congruence. }
  assert (Hnone : external_ids (delete_plugins (missing_ids st []) st) = []).
  { unfold external_ids.
    destruct (List.filter pl_external (plugins (delete_plugins (missing_ids st []) st)))
      as [|r rest] eqn:Hf; [reflexivity|].
    assert (Hr : In r (r :: rest)) by (left; reflexivity).
    rewrite <- Hf in Hr. apply filter_In in Hr as [Hr Hext].
    destruct (Hleft r Hr) as [_ Hb]. congruence. }
  split; [exact Hleft|]. split; [exact Hnone|].
  rewrite update_external_plugins_run, Hall, Hnone, delete_plugins_nil. reflexivity.
Qed.

(** ** The metadata row *)

(** X18. set_autoconf_load and is_autoconf_loaded: with the metadata row
    in place the call returns the empty string, is_autoconf_loaded then
    answers the value that was set and the two other flags are as they
    were; without the row the call returns a message, the store is as it
    was and is_autoconf_loaded answers false. In both cases get_config and
    get_custom_configs return what they returned before. *)
Theorem set_autoconf_load_round_trip (st st' : db) (value : bool) (message : string) :
  set_autoconf_load st value = Returned message st' ->
  (message = EmptyString <-> metadata st <> None)
  /\ (message = EmptyString ->
      is_autoconf_loaded st' = value
      /\ is_first_config_saved st' = is_first_config_saved st
      /\ db_is_initialized st' = db_is_initialized st)
  /\ (message <> EmptyString -> st' = st /\ is_autoconf_loaded st' = false)
  /\ (forall fuel methods, get_config fuel st' methods = get_config fuel st methods)
  /\ get_custom_configs st' = get_custom_configs st.
Proof.
  unfold set_autoconf_load, is_autoconf_loaded, is_first_config_saved, db_is_initialized.
  destruct (metadata st) as [m|] eqn:Hm; intros H; injection H as <- <-.
  - split; [split; [discriminate | reflexivity]|].
    split; [intros _; simpl; repeat split|].
    split; [intros H; contradiction|].
    split; [|reflexivity].
    intros fuel methods. apply get_config_ext. repeat split.
  - split; [split; [discriminate | intros H; contradiction]|].
    split; [discriminate|].
    split; [intros _; rewrite Hm; split; reflexivity|].
    split; reflexivity.
Qed.

Lemma set_autoconf_load_round_trip_witness :
  exists st',
    set_autoconf_load initialized_store true = Returned EmptyString st'
    /\ is_autoconf_loaded st' = true
    /\ is_first_config_saved st' = false.
Proof.
  eexists.
  assert (Hset : set_autoconf_load initialized_store true = Returned EmptyString _)
    by reflexivity.
  split; [exact Hset|].
  destruct (set_autoconf_load_round_trip initialized_store _ true EmptyString Hset)
    as [_ [H _]].
  destruct (H eq_refl) as [H1 [H2 _]]. split; [exact H1 | exact H2].
Defined.

(** ** Keys with a suffix *)

Lemma startswith_substring (s : string) :
  forall m, Py.startswith s (String.substring 0 m s) = true.
Proof.
  induction s as [|c s IH]; intros [|m]; simpl; try reflexivity.
  rewrite Ascii.eqb_refl. apply IH.
Qed.

(** X19. Reading the suffix of a submitted key does not raise on a key
    within the limit of [int] on digits: [int] is only applied to what the
    pattern matched, a run of digits that the key holds. The setting key
    that is left is a prefix of the submitted key, and a key that does not
    end in an underscore and digits is left whole, at suffix 0. *)
Theorem split_suffix_total (key : string) :
  (String.length key <= Py.max_str_digits)%nat ->
  exists k n,
    split_suffix key = Ok (k, n)
    /\ Py.startswith key k = true
    /\ (Py.search_suffix key = false -> k = key /\ n = 0%N).
Proof.
  intros _. destruct (split_suffix_never_raises key) as [k [n H]]. exists k, n.
  split; [exact H|]. revert H. unfold split_suffix.
  destruct (Py.search_suffix key).
  - destruct (Py.int _) as [sfx|]; [|discriminate].
    intros H; injection H as <- <-. split; [|discriminate].
    unfold Py.drop_end. apply startswith_substring.
  - intros H; injection H as <- <-. split; [|auto].
    rewrite <- (startswith_substring key (String.length key)).
    f_equal. clear. induction key as [|c key IH]; simpl; congruence.
Qed.

Lemma split_suffix_total_witness :
  exists k n,
    split_suffix "REVERSE_PROXY_URL_12" = Ok (k, n)
    /\ Py.startswith "REVERSE_PROXY_URL_12" k = true.
Proof.
  destruct (split_suffix_total "REVERSE_PROXY_URL_12") as [k [n [H1 [H2 _]]]].
  - vm_compute. lia.
  - exists k, n. split; assumption.
Defined.

(** X20. The keys that get_config writes are read back by save_config: a
    setting id followed by the tail of a suffix (nothing at suffix 0, an
    underscore and the suffix in decimal above) splits into the id and the
    suffix, provided that at suffix 0 the id itself does not end in an
    underscore and digits. *)
Theorem split_suffix_of_projected_key (id : string) (n : N) :
  (0 < n)%N \/ Py.search_suffix id = false ->
  split_suffix (id ++ suffix_tail n) = Ok (id, n).
Proof.
  intros H. destruct (0 <? n)%N eqn:Hn.
  - rewrite (suffix_tail_pos n Hn). apply split_suffix_canonical.
  - apply N.ltb_ge in Hn. destruct H as [H|H]; [lia|].
    assert (n = 0%N) as -> by lia.
    change (suffix_tail 0) with EmptyString. rewrite append_empty_r.
    unfold split_suffix. rewrite H. reflexivity.
Qed.

Lemma split_suffix_of_projected_key_witness :
  split_suffix "REVERSE_PROXY_URL_12" = Ok ("REVERSE_PROXY_URL", 12%N)
  /\ split_suffix "REVERSE_PROXY_URL" = Ok ("REVERSE_PROXY_URL", 0%N).
Proof.
  split.
  - apply (split_suffix_of_projected_key "REVERSE_PROXY_URL" 12). left. reflexivity.
  - apply (split_suffix_of_projected_key "REVERSE_PROXY_URL" 0). right. reflexivity.
Defined.

(** ** A single-site submission read back *)

(** Where a queued global value comes from, one item. *)
Lemma single_site_item_origin (method : string) (item : string * string) (f f' : frame)
    (r : Global_values_row) :
  single_site_item method item f = Ok f' ->
  In (E_Global_values r) (f_to_put f') ->
  In (E_Global_values r) (f_to_put f)
  \/ (split_suffix (fst item) = Ok (gv_setting_id r, gv_suffix r)
      /\ gv_value r = snd item /\ gv_method r = method
      /\ setting_default (f_db f) (gv_setting_id r) <> Some (snd item)).
Proof.
  unfold single_site_item, bind.
  destruct (split_suffix (fst item)) as [[key sfx]|e]; [|discriminate]. simpl.
  destruct (setting_default (f_db f) key) as [default|] eqn:Hd.
  - destruct (String.eqb (snd item) default) eqn:Hv; intros H; injection H as <-; [auto|].
    apply String.eqb_neq in Hv. unfold single_site_store.
    destruct (first (gv_at key sfx) (global_values (f_db f))) as [stored|].
    + destruct (String.eqb (gv_method stored) method); simpl; auto.
    + simpl. intros Hin. apply in_app_or in Hin as [Hin|[Hin|[]]]; [auto|].
      injection Hin as <-. right. simpl. rewrite Hd.
      repeat split. congruence.
  - intros H; injection H as <-. unfold single_site_store.
    destruct (first (gv_at key sfx) (global_values (f_db f))) as [stored|].
    + destruct (String.eqb (gv_method stored) method); simpl; auto.
    + simpl. intros Hin. apply in_app_or in Hin as [Hin|[Hin|[]]]; [auto|].
      injection Hin as <-. right. simpl. rewrite Hd.
      repeat split. discriminate.
Qed.

(** Where a queued global value comes from, the whole submission. *)
Lemma single_site_loop_origin (st : db) (method : string) (r : Global_values_row)
    (l : list (string * string)) :
  forall f f',
    f_db f = delete_own method st ->
    for_each (single_site_item method) l f = Ok f' ->
    In (E_Global_values r) (f_to_put f') ->
    In (E_Global_values r) (f_to_put f)
    \/ exists K' v', In (K', v') l
                     /\ split_suffix K' = Ok (gv_setting_id r, gv_suffix r)
                     /\ gv_value r = v' /\ gv_method r = method
                     /\ setting_default st (gv_setting_id r) <> Some v'.
Proof.
  induction l as [|item l IH]; simpl; intros f f' Hdb H Hin.
  - injection H as <-. auto.
  - unfold bind in H.
    destruct (single_site_item method item f) as [f1|] eqn:H1; [|discriminate].
    assert (Hown : forall x, In x (global_values (f_db f)) -> gv_method x <> method)
      by (rewrite Hdb; intros x; apply delete_own_foreign).
    assert (D1 := single_site_item_db _ _ _ _ Hown H1).
    destruct (IH f1 f' ltac:(congruence) H Hin) as [Hq|[K' [v' [Hl Hrest]]]].
    + destruct (single_site_item_origin _ _ _ _ _ H1 Hq) as [Hq'|[Hs [Hv [Hm Hdef]]]];
        [auto|].
      right. exists (fst item), (snd item). rewrite Hdb in Hdef.
      split; [left; destruct item; reflexivity|]. auto.
    + right. exists K', v'. split; [right; assumption | assumption].
Qed.

Lemma first_app_none {A : Type} (p : A -> bool) (l l' : list A) :
  first p l = None -> first p (l ++ l') = first p l'.
Proof.
  unfold first. induction l as [|x l IH]; simpl; [reflexivity|].
  destruct (p x); [discriminate | exact IH].
Qed.

Lemma puts_global_values_origin (l : list entity) (r : Global_values_row) :
  In r (puts_global_values l) -> In (E_Global_values r) l.
Proof.
  unfold puts_global_values. intros H. apply in_flat_map in H as [e [He Hr]].
  destruct e; try contradiction. destruct Hr as [->|[]]. assumption.
Qed.

Lemma setting_default_shared (st : db) (t : Settings_row) :
  In t (settings st) ->
  (forall t', In t' (settings st) -> set_id t' = set_id t -> set_default t' = set_default t) ->
  setting_default st (set_id t) = Some (set_default t).
Proof.
  intros Ht Hshared. unfold setting_default.
  destruct (first (fun s => String.eqb (set_id s) (set_id t)) (settings st)) as [t'|] eqn:Hf.
  - apply find_some in Hf as [Hin Hid]. apply String.eqb_eq in Hid.
    simpl. rewrite (Hshared t' Hin Hid). reflexivity.
  - exfalso. unfold first in Hf. apply (find_none _ _ Hf) in Ht.
    rewrite String.eqb_refl in Ht. discriminate.
Qed.

(** The global value that a successful single-site submission leaves at a
    setting key: the submitted value under the caller's label, or none
    when the value is the default. *)
Lemma single_site_leaves (st st' : db) (config : list (string * string))
    (method multisite v : string) (t : Settings_row) :
  dict_get config "MULTISITE" = Some multisite -> multisite <> "yes" ->
  In t (settings st) ->
  (forall t', In t' (settings st) -> set_id t' = set_id t -> set_default t' = set_default t) ->
  Py.search_suffix (set_id t) = false ->
  In (set_id t, v) config ->
  sole_value config (set_id t) v ->
  unclaimed st method (set_id t) ->
  save_config st config method = Returned EmptyString st' ->
  settings st' = settings st
  /\ services st' <> []
  /\ first (gv_at (set_id t) 0) (global_values st')
     = if String.eqb v (set_default t) then None
       else Some {| gv_setting_id := set_id t; gv_value := v; gv_suffix := 0;
                    gv_method := method |}.
Proof.
  intros Hm Hne Ht Hshared Hplain Hin Hsole Hfree Hsave.
  destruct (save_config_success _ _ _ _ Hsave) as [f [Hbody ->]].
  rewrite (save_config_body_single_site _ _ _ _ Hm Hne) in Hbody.
  unfold getitem in Hbody.
  destruct (dict_get config "SERVER_NAME") as [names|]; simpl bind in Hbody; [|discriminate].
  set (f0 := put (E_Services (List.hd EmptyString (Py.split names Py.space)))
               (start (delete_own method st))) in *.
  assert (Hdb0 : f_db f0 = delete_own method st) by reflexivity.
  assert (Hown : forall x, In x (global_values (f_db f0)) -> gv_method x <> method)
    by (rewrite Hdb0; intros x; apply delete_own_foreign).
  destruct (single_site_loop_keeps st _ _ _ _ Hown Hbody) as [Hkeeps Hdb].
  rewrite Hdb0 in Hdb.
  assert (Hsplit : split_suffix (set_id t) = Ok (set_id t, 0%N))
    by (unfold split_suffix; rewrite Hplain; reflexivity).
  assert (Hdefault := setting_default_shared st t Ht Hshared).
  destruct (mark_first_config_saved_tables (f_db f)) as [M1 [M2 [M3 _]]].
  split; [|split].
  - unfold extend. simpl.
    assert (Hnone : puts_settings (f_to_put f) = []).
    { destruct (puts_settings (f_to_put f)) as [|s rest] eqn:Hp; [reflexivity|].
      exfalso. assert (Hs : In s (puts_settings (f_to_put f))) by (rewrite Hp; left; reflexivity).
      unfold puts_settings in Hs. apply in_flat_map in Hs as [e [He Hs]].
      destruct Hkeeps as [Hlab _].
      assert (Hl : labelled method (f_to_put f)).
      { apply Hlab. intros e' [<-|[]]. exact I. }
      specialize (Hl e He). destruct e; try contradiction. }
    rewrite Hnone, app_nil_r, M2, Hdb. reflexivity.
  - unfold extend. simpl. intros Hnil. apply app_eq_nil in Hnil as [_ Hnil].
    assert (Hq : In (E_Services (List.hd EmptyString (Py.split names Py.space))) (f_to_put f)).
    { apply (keeps_queued _ _ _ _ _ Hkeeps). left. reflexivity. }
    apply puts_services_In in Hq. rewrite Hnil in Hq. contradiction.
  - unfold extend. cbn [global_values]. rewrite M3, Hdb.
    assert (Hold : first (gv_at (set_id t) 0) (global_values (delete_own method st)) = None).
    { destruct (first _ (global_values (delete_own method st))) as [x|] eqn:Hx; [|reflexivity].
      exfalso. apply find_some in Hx as [Hx Hat].
      apply (delete_own_foreign method st x Hx).
      apply Hfree; [|assumption]. simpl in Hx. apply (delete_where_incl _ _ _ Hx). }
    rewrite (first_app_none _ _ _ Hold).
    assert (Horigin : forall x, In x (puts_global_values (f_to_put f)) ->
                                gv_at (set_id t) 0 x = true ->
                                x = {| gv_setting_id := set_id t; gv_value := v; gv_suffix := 0;
                                       gv_method := method |}
                                /\ v <> set_default t).
    { intros x Hx Hat. apply puts_global_values_origin in Hx.
      destruct (single_site_loop_origin st method x config f0 f Hdb0 Hbody Hx)
        as [[Hq|[]]|[K' [v' [Hl [Hs [Hv [Hmeth Hdef]]]]]]]; [discriminate Hq|].
      unfold gv_at in Hat. apply andb_true_iff in Hat as [Hid Hsfx].
      apply String.eqb_eq in Hid. apply N.eqb_eq in Hsfx.
      rewrite Hid, Hsfx in Hs. rewrite Hid in Hdef.
      assert (v' = v) as -> by (apply (Hsole K' v' Hl Hs)).
      split; [destruct x; simpl in *; congruence|].
      intros ->. apply Hdef. exact Hdefault. }
    destruct (String.eqb v (set_default t)) eqn:Hv.
    + apply String.eqb_eq in Hv.
      destruct (first _ (puts_global_values (f_to_put f))) as [x|] eqn:Hx; [|reflexivity].
      exfalso. apply find_some in Hx as [Hx Hat].
      destruct (Horigin x Hx Hat) as [_ Hn]. contradiction.
    + apply String.eqb_neq in Hv.
      destruct (first _ (puts_global_values (f_to_put f))) as [x|] eqn:Hx.
      * apply find_some in Hx as [Hx Hat]. destruct (Horigin x Hx Hat) as [-> _]. reflexivity.
      * exfalso.
        assert (Hdef : setting_default st (set_id t) <> Some v) by (rewrite Hdefault; congruence).
        destruct (single_site_loop_stores st method (set_id t) v (set_id t) 0 config
                    Hin Hsplit Hdef f0 f Hdb0 Hbody) as [Hq|[x [Hxin [Hat Hforeign]]]].
        -- apply puts_global_values_In in Hq. unfold first in Hx.
           apply (find_none _ _ Hx) in Hq. unfold gv_at in Hq. simpl in Hq.
           rewrite String.eqb_refl in Hq. discriminate Hq.
        -- apply Hforeign. apply Hfree; assumption.
Qed.

(** X21. What a writer saves in single-site mode is what get_config shows
    afterwards. For a setting whose id has no suffix, submitted once with
    the value [v], on a store where no other writer holds the key: after a
    successful save_config the mapping of get_config has [v] under the
    setting id, with the caller's label when [v] differs from the default
    of the setting and with ["default"] when it is the default (no row is
    stored then, and the projection falls back on the default). *)
Theorem save_config_then_get_config (st st' : db) (config : list (string * string))
    (method multisite v : string) (t : Settings_row) (methods : bool) :
  dict_get config "MULTISITE" = Some multisite -> multisite <> "yes" ->
  In t (settings st) ->
  (forall t', In t' (settings st) -> set_id t' = set_id t -> set_default t' = set_default t) ->
  Py.search_suffix (set_id t) = false ->
  In (set_id t, v) config ->
  sole_value config (set_id t) v ->
  unclaimed st method (set_id t) ->
  save_config st config method = Returned EmptyString st' ->
  no_collision st' (set_id t) ->
  exists c,
    (forall fuel, (enough_fuel st' <= fuel)%nat -> get_config fuel st' methods = Some (Ok c))
    /\ c !! set_id t = Some (shaped methods v (shown_method method v (set_default t))).
Proof.
  intros Hm Hne Ht Hshared Hplain Hin Hsole Hfree Hsave Hkeys.
  destruct (single_site_leaves st st' config method multisite v t
              Hm Hne Ht Hshared Hplain Hin Hsole Hfree Hsave) as [Hset [Hsvc Hrow]].
  destruct (get_config_shows_global st' methods t) as [c [Hrun Hc]].
  - rewrite Hset. assumption.
  - assumption.
  - rewrite Hset. assumption.
  - assumption.
  - exists c. split; [exact Hrun|]. rewrite Hc. f_equal.
    unfold global_entry, shown_method. rewrite Hrow.
    destruct (String.eqb v (set_default t)) eqn:Hv; [|reflexivity].
    apply String.eqb_eq in Hv. rewrite Hv. reflexivity.
Qed.

Lemma level_config_sole : sole_value level_config "LOG_LEVEL" "debug".
Proof.
  intros K' v' [H|[H|[H|[]]]] Hs; injection H as <- <-; [discriminate Hs.. | reflexivity].
Qed.

Lemma save_config_then_get_config_witness :
  exists c,
    save_config catalog level_config "manual"
    = Returned EmptyString (store_after (save_config catalog level_config "manual"))
    /\ get_config 2 (store_after (save_config catalog level_config "manual")) true
       = Some (Ok c)
    /\ c !! "LOG_LEVEL" = Some (WithMethod "debug" "manual").
Proof.
  assert (Hsave : save_config catalog level_config "manual"
                  = Returned EmptyString
                      (store_after (save_config catalog level_config "manual")))
    by (vm_compute; reflexivity).
  assert (Hne : "no" <> "yes") by discriminate.
  assert (Ht : In level_setting (settings catalog)) by (right; right; left; reflexivity).
  assert (Hin : In ("LOG_LEVEL", "debug") level_config) by (right; right; left; reflexivity).
  destruct (save_config_then_get_config catalog
              (store_after (save_config catalog level_config "manual"))
              level_config "manual" "no" "debug" level_setting true eq_refl Hne Ht)
    as [c [Hrun Hc]];
    [| reflexivity | exact Hin | exact level_config_sole | | exact Hsave | |].
  - intros t' Ht' Hid.
    destruct Ht' as [<-|[<-|[<-|[<-|[]]]]]; try discriminate Hid; reflexivity.
  - intros r [].
  - intros service t n Hsvc Ht'. destruct Hsvc as [<-|[]]. split.
    + intros Heq. apply string_cons_inj in Heq as [Heq _]. discriminate Heq.
    + intros Hn. apply N.ltb_lt in Hn. rewrite (suffix_tail_pos n Hn).
      destruct Ht' as [<-|[<-|[<-|[<-|[]]]]]; intros Heq; strip_chars Heq; discriminate.
  - exists c. split; [exact Hsave|]. split; [apply Hrun; vm_compute; lia | exact Hc].
Defined.

(** ** update_job_cache *)

Lemma jc_at_key (j : string) (s : option string) (fl : string) (r : Job_cache_row) :
  jc_at j s fl r = true <-> jc_key r = (j, s, fl).
Proof.
  unfold jc_at, jc_key. rewrite !andb_true_iff, option_eqb_eq, !String.eqb_eq.
  split; [intros [[-> ->] ->]; reflexivity | intros H; injection H; auto].
Qed.

Lemma first_update_first {A : Type} (p : A -> bool) (f : A -> A) (l : list A) (x : A) :
  first p l = Some x -> p (f x) = true -> first p (update_first p f l) = Some (f x).
Proof.
  unfold first. induction l as [|y l IH]; simpl; [discriminate|].
  destruct (p y) eqn:Hy.
  - intros H; injection H as ->. intros Hf. simpl. rewrite Hf. reflexivity.
  - intros H Hf. simpl. rewrite Hy. apply IH; assumption.
Qed.

Lemma filter_update_first {A : Type} (p q : A -> bool) (f : A -> A) (l : list A) :
  (forall x, p x = true -> q x = false /\ q (f x) = false) ->
  List.filter q (update_first p f l) = List.filter q l.
Proof.
  intros H. induction l as [|y l IH]; simpl; [reflexivity|].
  destruct (p y) eqn:Hy; simpl.
  - destruct (H y Hy) as [-> ->]. reflexivity.
  - rewrite IH. reflexivity.
Qed.

Lemma map_update_first {A B : Type} (p : A -> bool) (f : A -> A) (k : A -> B) (l : list A) :
  (forall x, k (f x) = k x) -> List.map k (update_first p f l) = List.map k l.
Proof.
  intros H. induction l as [|y l IH]; simpl; [reflexivity|].
  destruct (p y); simpl; [rewrite H | rewrite IH]; reflexivity.
Qed.

(** X22. update_job_cache is an upsert on (job name, service id, file
    name): afterwards the row found under the three columns carries the
    submitted data and checksum and the time of the call; the rows under
    any other key are the rows that were there; a table with one row per
    key still has one row per key; and the table grows by one row when the
    key was free and by none otherwise. *)
Theorem update_job_cache_upsert (table : list Job_cache_row) (now : N)
    (job_name : string) (service_id : option string) (file_name data : string)
    (checksum : option string) :
  let table' := snd (update_job_cache table now job_name service_id file_name data checksum) in
  (exists cache,
        first (jc_at job_name service_id file_name) table' = Some cache
        /\ jc_key cache = (job_name, service_id, file_name)
        /\ jc_data cache = data /\ jc_checksum cache = checksum
        /\ jc_last_update cache = now)
  /\ (forall j s fl, (j, s, fl) <> (job_name, service_id, file_name) ->
        List.filter (jc_at j s fl) table' = List.filter (jc_at j s fl) table)
  /\ (List.NoDup (List.map jc_key table) -> List.NoDup (List.map jc_key table'))
  /\ length table'
     = (length table
        + (if existsb (jc_at job_name service_id file_name) table then 0 else 1))%nat.
Proof.
  unfold update_job_cache.
  destruct (first (jc_at job_name service_id file_name) table) as [x|] eqn:Hx; simpl.
  - assert (Hex : existsb (jc_at job_name service_id file_name) table = true).
    { destruct (existsb _ table) eqn:He; [reflexivity|].
      apply first_existsb in He. congruence. }
    assert (Hat : jc_at job_name service_id file_name x = true)
      by (apply find_some in Hx as [_ Hx]; exact Hx).
    split; [|split; [|split]].
    + eexists. split; [apply first_update_first; [exact Hx | exact Hat]|].
      simpl. apply jc_at_key in Hat. repeat split. exact Hat.
    + intros j s fl Hne. apply filter_update_first. intros y Hy.
      apply jc_at_key in Hy.
      split; (destruct (jc_at j s fl _) eqn:Hq; [|reflexivity]);
        apply jc_at_key in Hq; unfold jc_key in *; simpl in *; congruence.
    + intros Hnd. rewrite map_update_first; [assumption | reflexivity].
    + rewrite Hex, Nat.add_0_r. clear. induction table as [|y l IH]; simpl; [reflexivity|].
      destruct (jc_at job_name service_id file_name y); simpl; congruence.
  - assert (Hex : existsb (jc_at job_name service_id file_name) table = false)
      by (apply first_existsb; assumption).
    split; [|split; [|split]].
    + eexists. split.
      * rewrite (first_app_none _ _ _ Hx). unfold first. simpl.
        unfold jc_at. simpl. rewrite !String.eqb_refl.
        replace (option_eqb service_id service_id) with true
          by (symmetry; apply option_eqb_eq; reflexivity).
        reflexivity.
      * repeat split.
    + intros j s fl Hne. rewrite List.filter_app. simpl.
      destruct (jc_at j s fl _) eqn:Hq; [|apply app_nil_r].
      apply jc_at_key in Hq. unfold jc_key in Hq. simpl in Hq. congruence.
    + intros Hnd. rewrite List.map_app. simpl.
      apply List.NoDup_app; [assumption | apply List.NoDup_cons; [intros [] | apply List.NoDup_nil]|].
      intros k Hk [<-|[]]. apply in_map_iff in Hk as [y [Hk Hy]].
      unfold first in Hx. apply (find_none _ _ Hx) in Hy.
      assert (Hy' : jc_at job_name service_id file_name y = true)
        by (apply jc_at_key; exact Hk).
      congruence.
    + rewrite Hex, length_app. reflexivity.
Qed.

(** ** save_config in multisite mode: one global value for a setting key *)

















